(** * gtsfm: data association, view-pair selection, outlier removal and
      keypoint filtering, embedded shallowly.

    Python floats are modelled by exact rationals ([Q]); a NaN is [None] where
    numpy can produce one.  Python exceptions are the left summand of a sum
    type.  A [dict] is an association list in insertion order, because the
    code iterates over its items. *)

From Stdlib Require Import String.
From Stdlib Require Import List ZArith QArith Qround Bool Lia Arith.
From Stdlib Require Import Sorted Permutation Lqa Qabs.
Import ListNotations.
Local Open Scope Z_scope.

(* ================================================================== *)
(** * Part I: the embedding *)
(* ================================================================== *)

(** ** Python exceptions and the error monad *)

Module Py.

Inductive exn : Type :=
| ZeroDivisionError
| IndexError
| UnboundLocalError
| TypeError (msg : string)
| RuntimeError (msg : string).

Definition result (A : Type) : Type := (exn + A)%type.

Definition ret {A : Type} (a : A) : result A := inr a.
Definition raise {A : Type} (e : exn) : result A := inl e.

Definition bind {A B : Type} (m : result A) (k : A -> result B) : result B :=
  match m with
  | inl e => inl e
  | inr a => k a
  end.

Definition raises {A : Type} (m : result A) : Prop :=
  exists e, m = inl e.

(** A list comprehension whose body may raise. *)
Fixpoint mapM {A B : Type} (f : A -> result B) (l : list A) : result (list B) :=
  match l with
  | [] => ret []
  | x :: l' =>
    match f x with
    | inl e => inl e
    | inr y =>
      match mapM f l' with
      | inl e => inl e
      | inr ys => inr (y :: ys)
      end
    end
  end.

(** [xs[i]] for [0 <= i]; past the end it raises. *)
Definition getitem {A : Type} (xs : list A) (i : nat) : result A :=
  match nth_error xs i with
  | Some x => ret x
  | None => raise IndexError
  end.

(** [a / b] on two Python ints: true division. *)
Definition truediv (a b : Z) : result Q :=
  if b =? 0 then raise ZeroDivisionError
  else ret (inject_Z a / inject_Z b)%Q.

(** Normalised bound of a slice [xs[lo:stop]] on a sequence of length [n]:
    a negative bound counts from the end, and the result is clipped to
    [0..n]. *)
Definition slice_bound (n : nat) (k : Z) : nat :=
  if k <? 0 then Z.to_nat (Z.max 0 (Z.of_nat n + k))
  else Nat.min (Z.to_nat k) n.

(** [xs[lo:hi]] with step 1. *)
Definition slice {A : Type} (xs : list A) (lo hi : Z) : list A :=
  let n := length xs in
  let l := slice_bound n lo in
  let h := slice_bound n hi in
  firstn (h - l) (skipn l xs).

(** [xs[:hi]]. *)
Definition slice_to {A : Type} (xs : list A) (hi : Z) : list A :=
  firstn (slice_bound (length xs) hi) xs.

End Py.

Notation "x <- m ;; k" := (Py.bind m (fun x => k))
  (at level 61, m at next level, right associativity).

(** ** The numpy operations the code calls *)

Module Np.

Definition Qltb (a b : Q) : bool := negb (Qle_bool b a).

(** Insertion of [x] into a list sorted by [leb]; equal keys keep their
    order of arrival. *)
Fixpoint insert_by {A : Type} (leb : A -> A -> bool) (x : A) (l : list A) : list A :=
  match l with
  | [] => [x]
  | y :: l' => if leb y x then y :: insert_by leb x l' else x :: l
  end.

Fixpoint sort_by {A : Type} (leb : A -> A -> bool) (l : list A) : list A :=
  match l with
  | [] => []
  | x :: l' => insert_by leb x (sort_by leb l')
  end.

(** [np.sort] on a one-dimensional float array. *)
Definition sort (l : list Q) : list Q := sort_by Qle_bool (rev l).

Definition enumerate {A : Type} (l : list A) : list (nat * A) :=
  combine (seq 0 (length l)) l.

(** [np.argsort] on a one-dimensional array whose elements are compared with
    [leb]: the indices that sort it in ascending order.  Ties keep index
    order. *)
Definition argsort_by {A : Type} (leb : A -> A -> bool) (l : list A) : list nat :=
  map fst (sort_by (fun a b => leb (snd a) (snd b)) (rev (enumerate l))).

Definition sum (l : list Q) : Q := fold_right Qplus 0%Q l.

(** [np.mean]; the mean of an empty array is NaN. *)
Definition mean (l : list Q) : option Q :=
  match l with
  | [] => None
  | _ => Some (sum l / inject_Z (Z.of_nat (length l)))%Q
  end.

(** [np.median]; the median of an empty array is NaN. *)
Definition median (l : list Q) : option Q :=
  match l with
  | [] => None
  | _ =>
    let s := sort l in
    let n := length s in
    if Nat.even n
    then Some ((nth (n / 2 - 1) s 0 + nth (n / 2) s 0) / 2)%Q
    else Some (nth (n / 2) s 0%Q)
  end.

(** Rounding of a rational to the nearest integer, ties to even. *)
Definition round_half_even (x : Q) : Z :=
  let f := Qfloor x in
  let r := (x - inject_Z f)%Q in
  if Qltb r (1 # 2) then f
  else if Qltb (1 # 2) r then f + 1
  else if Z.even f then f else f + 1.

(** [np.round(x, decimals)] for [decimals = 3]. *)
Definition round3 (x : Q) : Q :=
  (inject_Z (round_half_even (x * 1000)) / 1000)%Q.

Definition round3_nan (x : option Q) : option Q := option_map round3 x.


(** [np.arange(n)[i]] for a Python int [i]: negative indices count from the
    end, anything outside [-n .. n-1] raises [IndexError]. *)
Definition arange_getitem (n : Z) (i : Z) : Py.result Z :=
  if (0 <=? i) && (i <? n) then Py.ret i
  else if (- n <=? i) && (i <? 0) then Py.ret (n + i)
  else Py.raise Py.IndexError.

(** [int(np.sum(a == k))] on an integer array. *)
Definition count_eq (a : list Z) (k : Z) : Z :=
  Z.of_nat (length (filter (fun x => x =? k) a)).

End Np.

(** ** gtsam's containers, as far as [DataAssociation.run] uses them *)

Module Gtsam.

Definition Point2 : Type := (Q * Q)%type.
Definition Point3 : Type := (Q * Q * Q)%type.

(** [SfmTrack]: a 3D point and its supporting (camera index, pixel)
    measurements. *)
Record SfmTrack : Type := mkSfmTrack {
  point3 : Point3;
  measurements : list (Z * Point2)
}.

Definition number_measurements (t : SfmTrack) : Z :=
  Z.of_nat (length (measurements t)).

(** [list(track.point3())]. *)
Definition point3_list (t : SfmTrack) : list Q :=
  let '(x, y, z) := point3 t in [x; y; z].

Section SfmData.
Variable Camera : Type.

(** [SfmData]: cameras and tracks, each in order of insertion. *)
Record SfmData : Type := mkSfmData {
  cameras : list Camera;
  tracks : list SfmTrack
}.

Definition empty : SfmData := mkSfmData [] [].

Definition add_track (d : SfmData) (t : SfmTrack) : SfmData :=
  mkSfmData (cameras d) (tracks d ++ [t]).

Definition add_camera (d : SfmData) (c : Camera) : SfmData :=
  mkSfmData (cameras d ++ [c]) (tracks d).

Definition number_tracks (d : SfmData) : Z := Z.of_nat (length (tracks d)).

Definition track (d : SfmData) (j : nat) : option SfmTrack :=
  nth_error (tracks d) j.

End SfmData.

Arguments mkSfmData {Camera}.
Arguments cameras {Camera}.
Arguments tracks {Camera}.
Arguments empty {Camera}.
Arguments add_track {Camera}.
Arguments add_camera {Camera}.
Arguments number_tracks {Camera}.
Arguments track {Camera}.

End Gtsam.

(** ** gtsfm/common: 2D tracks *)

Module Common.

(** Modelled from the spec: the measurement and track types of
    gtsfm/common/sfm_track.py, which is not among the sources.  One
    observation of a 2D track is an image index, a keypoint index in that
    image and the keypoint's pixel coordinates. *)
Record SfmMeasurement : Type := mkMeasurement {
  m_image : Z;
  m_keypoint : Z;
  m_uv : Gtsam.Point2
}.

Record SfmTrack2d : Type := mkSfmTrack2d {
  measurements_2d : list SfmMeasurement
}.

Definition number_measurements (t : SfmTrack2d) : Z :=
  Z.of_nat (length (measurements_2d t)).

End Common.

(** ** gtsfm/data_association/data_assoc.py *)

Module DataAssoc.

Import Gtsam.

(** Modelled from the spec: the enumeration [TriangulationParam] of
    point3d_initializer.py, which is not among the sources; the spec names a
    direct and a sampling mode. *)
Inductive TriangulationParam : Type := DIRECT | RANSAC.

(** The [NamedTuple] [DataAssociation]. *)
Record DataAssociation : Type := mkDataAssociation {
  reproj_error_thresh : Q;
  min_track_len : Z;
  mode : TriangulationParam;
  num_ransac_hypotheses : option Z
}.

(** [__validate_track]. *)
Definition validate_track (self : DataAssociation) (sfm_track : option SfmTrack) : bool :=
  match sfm_track with
  | None => false
  | Some t => min_track_len self <=? number_measurements t
  end.

(** The values stored in the metrics dictionary. *)
Inductive MetricValue : Type :=
| MFloat (x : option Q)
| MInt (n : Z)
| MFloatList (l : list Q)
| MPoints (l : list (list Q)).

Definition Metrics : Type := list (string * MetricValue).

Fixpoint lookup (k : string) (m : Metrics) : option MetricValue :=
  match m with
  | [] => None
  | (k', v) :: m' => if String.eqb k k' then Some v else lookup k m'
  end.

(** What [triangulate] hands back: the track or [None], the average
    reprojection error, and the cheirality flag. *)
Definition Triangulated : Type := (option SfmTrack * Q * bool)%type.

Section Run.

Variable Camera : Type.
Variable CorrIdxs : Type.
Variable Keypoints : Type.

(** The two collaborators of [run] that live in other files:
    [SfmTrack2d.generate_tracks_from_pairwise_matches] and
    [Point3dInitializer(cameras, mode, thresh, hypotheses).triangulate]. *)
Variable generate_tracks_from_pairwise_matches :
  list (Z * Z * CorrIdxs) -> list Keypoints -> Py.result (list Common.SfmTrack2d).
Variable triangulate :
  list (Z * Camera) -> TriangulationParam -> Q -> option Z ->
  Common.SfmTrack2d -> Triangulated.

(** [Point3dInitializer(cameras, self.mode, self.reproj_error_thresh,
    self.num_ransac_hypotheses).triangulate]. *)
Definition tri_of (self : DataAssociation) (cameras : list (Z * Camera))
  : Common.SfmTrack2d -> Triangulated :=
  triangulate cameras (mode self) (reproj_error_thresh self)
              (num_ransac_hypotheses self).

(** The variables the triangulation loop updates. *)
Record LoopState : Type := mkLoopState {
  num_tracks_w_cheirality_exceptions : Z;
  per_accepted_track_avg_errors : list Q;
  per_rejected_track_avg_errors : list Q;
  triangulated_data : SfmData Camera
}.

Definition loop_init : LoopState := mkLoopState 0 [] [] empty.

(** One iteration of [for track_2d in tracks_2d]. *)
Definition loop_body (self : DataAssociation) (tri : Common.SfmTrack2d -> Triangulated)
    (st : LoopState) (track_2d : Common.SfmTrack2d) : LoopState :=
  let '(sfm_track, avg_track_reproj_error, is_cheirality_failure) := tri track_2d in
  let n := if is_cheirality_failure
           then num_tracks_w_cheirality_exceptions st + 1
           else num_tracks_w_cheirality_exceptions st in
  match sfm_track with
  | Some t =>
    if validate_track self (Some t)
    then mkLoopState n
           (per_accepted_track_avg_errors st ++ [avg_track_reproj_error])
           (per_rejected_track_avg_errors st)
           (add_track (triangulated_data st) t)
    else mkLoopState n
           (per_accepted_track_avg_errors st)
           (per_rejected_track_avg_errors st ++ [avg_track_reproj_error])
           (triangulated_data st)
  | None =>
    mkLoopState n
      (per_accepted_track_avg_errors st)
      (per_rejected_track_avg_errors st ++ [avg_track_reproj_error])
      (triangulated_data st)
  end.

Definition triangulate_tracks (self : DataAssociation)
    (tri : Common.SfmTrack2d -> Triangulated)
    (tracks_2d : list Common.SfmTrack2d) : LoopState :=
  fold_left (loop_body self tri) tracks_2d loop_init.

(** [for i, cam in cameras.items()]: the index check against
    [np.arange(num_cameras)] and [add_camera]. *)
Fixpoint add_cameras (num_cameras : Z) (items : list (Z * Camera))
    (data : SfmData Camera) : Py.result (SfmData Camera) :=
  match items with
  | [] => Py.ret data
  | (i, cam) :: rest =>
    expected <- Np.arange_getitem num_cameras i ;;
    if negb (i =? expected)
    then Py.raise (Py.RuntimeError "Some cameras must have been dropped ")
    else add_cameras num_cameras rest (add_camera data cam)
  end.

(** Modelled from the spec: [SfmResult.get_track_length_statistics] of
    gtsfm/common/sfm_result.py, which is not among the sources: the mean and
    the median of the numbers of measurements of the tracks in the scene, and
    the array of these numbers. *)
Definition get_track_length_statistics (data : SfmData Camera)
  : option Q * option Q * list Z :=
  let track_lengths := map number_measurements (tracks data) in
  (Np.mean (map inject_Z track_lengths),
   Np.median (map inject_Z track_lengths),
   track_lengths).

(** [[list(data.track(j).point3()) for j in range(n)]]. *)
Definition collect_points_3d (data : SfmData Camera) (n : Z) : list (list Q) :=
  flat_map (fun j => match track data j with
                     | Some t => [point3_list t]
                     | None => []
                     end)
           (seq 0 (Z.to_nat n)).

(** [DataAssociation.run]. *)
Definition run (self : DataAssociation)
    (cameras : list (Z * Camera))
    (corr_idxs_dict : list (Z * Z * CorrIdxs))
    (keypoints_list : list Keypoints)
  : Py.result (SfmData Camera * Metrics) :=
  tracks_2d <- generate_tracks_from_pairwise_matches corr_idxs_dict keypoints_list ;;
  let num_tracks_2d := Z.of_nat (length tracks_2d) in
  let track_lengths := map Common.number_measurements tracks_2d in
  let mean_2d_track_length := Np.mean (map inject_Z track_lengths) in
  let tri := tri_of self cameras in
  let st := triangulate_tracks self tri tracks_2d in
  let num_accepted_tracks := number_tracks (triangulated_data st) in
  accepted_tracks_ratio <- Py.truediv num_accepted_tracks num_tracks_2d ;;
  track_cheirality_failure_ratio <-
    Py.truediv (num_tracks_w_cheirality_exceptions st) num_tracks_2d ;;
  let num_cameras := Z.of_nat (length cameras) in
  data <- add_cameras num_cameras cameras (triangulated_data st) ;;
  let '(mean_3d_track_length, median_3d_track_length, track_lengths_3d) :=
    get_track_length_statistics data in
  let points_3d := collect_points_3d data num_accepted_tracks in
  let data_assoc_metrics : Metrics :=
    [ ("mean_2d_track_length", MFloat (Np.round3_nan mean_2d_track_length));
      ("accepted_tracks_ratio", MFloat (Some (Np.round3 accepted_tracks_ratio)));
      ("track_cheirality_failure_ratio",
         MFloat (Some (Np.round3 track_cheirality_failure_ratio)));
      ("num_accepted_tracks", MInt num_accepted_tracks);
      ("mean_3d_track_length", MFloat (Np.round3_nan mean_3d_track_length));
      ("median_3d_track_length", MFloat median_3d_track_length);
      ("num_len_2_tracks", MInt (Np.count_eq track_lengths_3d 2));
      ("num_len_3_tracks", MInt (Np.count_eq track_lengths_3d 3));
      ("num_len_4_tracks", MInt (Np.count_eq track_lengths_3d 4));
      ("num_len_5_tracks", MInt (Np.count_eq track_lengths_3d 5));
      ("num_len_6_tracks", MInt (Np.count_eq track_lengths_3d 6));
      ("num_len_7_tracks", MInt (Np.count_eq track_lengths_3d 7));
      ("num_len_8_tracks", MInt (Np.count_eq track_lengths_3d 8));
      ("num_len_9_tracks", MInt (Np.count_eq track_lengths_3d 9));
      ("num_len_10_tracks", MInt (Np.count_eq track_lengths_3d 10));
      ("per_rejected_track_avg_errors", MFloatList (per_rejected_track_avg_errors st));
      ("per_accepted_track_avg_errors", MFloatList (per_accepted_track_avg_errors st));
      ("points_3d", MPoints points_3d) ]%string in
  Py.ret (data, data_assoc_metrics).

End Run.

Arguments mkLoopState {Camera}.
Arguments num_tracks_w_cheirality_exceptions {Camera}.
Arguments per_accepted_track_avg_errors {Camera}.
Arguments per_rejected_track_avg_errors {Camera}.
Arguments triangulated_data {Camera}.
Arguments tri_of {Camera}.
Arguments loop_init {Camera}.
Arguments loop_body {Camera}.
Arguments triangulate_tracks {Camera}.
Arguments add_cameras {Camera}.
Arguments get_track_length_statistics {Camera}.
Arguments collect_points_3d {Camera}.
Arguments run {Camera CorrIdxs Keypoints}.

End DataAssoc.

(** ** gtsfm/common/keypoints.py *)

Module Keypoints.

(** Modelled from the spec: the class [Keypoints] of
    gtsfm/common/keypoints.py, which is not among the sources: an (N, 2)
    array of coordinates and optional per-keypoint scales and responses. *)
Record t : Type := mkKeypoints {
  coordinates : list Gtsam.Point2;
  scales : option (list Q);
  responses : option (list Q)
}.

(** [a[idxs]] with an integer index array: the rows named by [idxs], in the
    order of [idxs]. *)
Definition take {A : Type} (a : list A) (idxs : list nat) : Py.result (list A) :=
  Py.mapM (Py.getitem a) idxs.

Definition take_opt {A : Type} (a : option (list A)) (idxs : list nat)
  : Py.result (option (list A)) :=
  match a with
  | None => Py.ret None
  | Some l => r <- take l idxs ;; Py.ret (Some r)
  end.

(** Modelled from the spec: [Keypoints.extract_indices] of
    gtsfm/common/keypoints.py, which is not among the sources: the
    sub-selection of the keypoints by an index list, in the order of the
    list, applied to the coordinates and to every optional attribute. *)
Definition extract_indices (kp : t) (idxs : list nat) : Py.result t :=
  c <- take (coordinates kp) idxs ;;
  s <- take_opt (scales kp) idxs ;;
  r <- take_opt (responses kp) idxs ;;
  Py.ret (mkKeypoints c s r).

End Keypoints.

(** ** gtsfm/frontend/detector_descriptor/detector_descriptor_base.py *)

Module DetectorDescriptor.

(** The state of a [DetectorDescriptorBase] object. *)
Record DetectorDescriptorBase : Type := mkDetectorDescriptor {
  max_keypoints : Z
}.

(** [np.argsort(-responses)]. *)
Definition argsort_neg (responses : list Q) : list nat :=
  Np.argsort_by Qle_bool (map Qopp responses).

(** [filter_by_response]; a descriptor array is the list of its rows. *)
Definition filter_by_response {D : Type} (self : DetectorDescriptorBase)
    (keypoints : Keypoints.t) (descriptors : list D)
  : Py.result (Keypoints.t * list D) :=
  match Keypoints.responses keypoints with
  | None => Py.ret (keypoints, descriptors)
  | Some responses =>
    let sort_idxs := argsort_neg responses in
    let sort_idxs := Py.slice_to sort_idxs (max_keypoints self) in
    kp <- Keypoints.extract_indices keypoints sort_idxs ;;
    ds <- Keypoints.take descriptors sort_idxs ;;
    Py.ret (kp, ds)
  end.

End DetectorDescriptor.

(** ** gtsfm/utils/ellipsoid.py *)

Module Ellipsoid.


(** A two-dimensional float array: [shape[1]] and the rows. *)
Record ndarray2 : Type := mkArray {
  shape1 : nat;
  rows : list (list Q)
}.

Section Norm.

(** The floating-point square root, which has no exact rational model. *)
Variable fsqrt : Q -> Q.




End Norm.

End Ellipsoid.

(** ** gtsfm/densify/mvsnets/source/PatchmatchNet/eval_gtsfm.py *)

Module PatchmatchEval.

(** An entry of the float matrix [pairs]: a finite score or [-np.inf]. *)
Inductive score : Type :=
| NegInf
| Fin (q : Q).

Definition score_leb (a b : score) : bool :=
  match a, b with
  | NegInf, _ => true
  | Fin _, NegInf => false
  | Fin x, Fin y => Qle_bool x y
  end.

Definition matrix : Type := list (list score).

(** [row[c] = v]. *)
Fixpoint set_nth {A : Type} (row : list A) (c : nat) (v : A) : Py.result (list A) :=
  match row, c with
  | [], _ => Py.raise Py.IndexError
  | _ :: row', O => Py.ret (v :: row')
  | x :: row', S c' => r <- set_nth row' c' v ;; Py.ret (x :: r)
  end.

(** [pairs[i][i] = -np.inf]. *)
Definition set_diag_entry (pairs : matrix) (i : nat) : Py.result matrix :=
  row <- Py.getitem pairs i ;;
  row' <- set_nth row i NegInf ;;
  set_nth pairs i row'.

(** [for i in range(num_viewpoint): pairs[i][i] = -np.inf], together with the
    value the name [i] is bound to when the loop is left. *)
Fixpoint diag_loop (range : list nat) (pairs : matrix) (i : option nat)
  : Py.result (matrix * option nat) :=
  match range with
  | [] => Py.ret (pairs, i)
  | j :: range' =>
    pairs' <- set_diag_entry pairs j ;;
    diag_loop range' pairs' (Some j)
  end.

Definition ncols (pairs : matrix) : nat :=
  match pairs with
  | [] => O
  | row :: _ => length row
  end.

Definition column (pairs : matrix) (c : nat) : list score :=
  flat_map (fun row => match nth_error row c with
                       | Some x => [x]
                       | None => []
                       end) pairs.

(** Row [r] of [np.argsort(pairs, axis=0)]: for every column, the index of
    its [r]-th smallest entry. *)
Definition argsort_axis0_row (pairs : matrix) (r : nat) : list nat :=
  map (fun c => nth r (Np.argsort_by score_leb (column pairs c)) O)
      (seq 0 (ncols pairs)).

(** [np.argsort(pairs, axis=0)[:, 1:nviews][:, ::-1]]. *)
Definition pair_idx (pairs : matrix) (nviews : Z) : list (list nat) :=
  map (fun r => rev (Py.slice (argsort_axis0_row pairs r) 1 nviews))
      (seq 0 (length pairs)).

(** [read_pair_file]. *)
Definition read_pair_file (pairs : matrix) (nviews : Z)
  : Py.result (list (nat * list nat)) :=
  let num_viewpoint := length pairs in
  st <- diag_loop (seq 0 num_viewpoint) pairs None ;;
  let '(pairs, i) := st in
  let pair_idx := pair_idx pairs nviews in
  Py.mapM (fun view_idx =>
             let ref_view := view_idx in
             match i with
             | None => Py.raise Py.UnboundLocalError
             | Some i =>
               src_views <- Py.getitem pair_idx i ;;
               Py.ret (ref_view, src_views)
             end)
          (seq 0 num_viewpoint).

(** A matrix with [n] rows of at least [n] entries each. *)
Definition holds_diagonal (n : nat) (pairs : matrix) : Prop :=
  length pairs = n /\ Forall (fun row => (n <= length row)%nat) pairs.

End PatchmatchEval.

(** ** The Track Builder *)

Module TrackBuilder.

(** A graph node: (image index, keypoint index). *)
Definition Node : Type := (Z * Z)%type.

Definition node_eqb (a b : Node) : bool :=
  (fst a =? fst b) && (snd a =? snd b).

Definition mem (a : Node) (c : list Node) : bool := existsb (node_eqb a) c.

Definition add_node (a : Node) (c : list Node) : list Node :=
  if mem a c then c else c ++ [a].

Definition touches (e : Node * Node) (c : list Node) : bool :=
  mem (fst e) c || mem (snd e) c.

(** Modelled from the spec: the union step of the Track Builder, which is not
    among the sources.  The components that hold an endpoint of the edge are
    merged into one, which also receives the two endpoints. *)
Definition union (comps : list (list Node)) (e : Node * Node) : list (list Node) :=
  let touching := filter (touches e) comps in
  let rest := filter (fun c => negb (touches e c)) comps in
  rest ++ [add_node (snd e) (add_node (fst e) (concat touching))].

(** Modelled from the spec: the correspondence edges of all image pairs, in
    dictionary order. *)
Definition edges (corr_idxs_dict : list (Z * Z * list (Z * Z))) : list (Node * Node) :=
  flat_map (fun entry =>
              let '(i1, i2, idxs) := entry in
              map (fun k => ((i1, fst k), (i2, snd k))) idxs)
           corr_idxs_dict.

(** Modelled from the spec: the connected components after all unions. *)
Definition components (corr_idxs_dict : list (Z * Z * list (Z * Z))) : list (list Node) :=
  fold_left union (edges corr_idxs_dict) [].

Fixpoint distinct (l : list Z) : bool :=
  match l with
  | [] => true
  | x :: l' => negb (existsb (Z.eqb x) l') && distinct l'
  end.

(** Modelled from the spec: the validity check of the Track Builder; no two
    nodes of the component share an image index. *)
Definition valid (c : list Node) : bool := distinct (map fst c).

Definition getitemZ {A : Type} (xs : list A) (i : Z) : Py.result A :=
  if i <? 0 then Py.raise Py.IndexError else Py.getitem xs (Z.to_nat i).

(** Modelled from the spec: the measurement of a node, with the pixel
    coordinates of its keypoint. *)
Definition measurement_of (keypoints_list : list Keypoints.t) (n : Node)
  : Py.result Common.SfmMeasurement :=
  kp <- getitemZ keypoints_list (fst n) ;;
  uv <- getitemZ (Keypoints.coordinates kp) (snd n) ;;
  Py.ret (Common.mkMeasurement (fst n) (snd n) uv).

Definition track_of (keypoints_list : list Keypoints.t) (c : list Node)
  : Py.result Common.SfmTrack2d :=
  ms <- Py.mapM (measurement_of keypoints_list) c ;;
  Py.ret (Common.mkSfmTrack2d ms).

(** Modelled from the spec: [SfmTrack2d.generate_tracks_from_pairwise_matches]
    of gtsfm/common/sfm_track.py, which is not among the sources.  Every
    (image, keypoint index) pair is a node, every correspondence unions the
    components of its two endpoints, every component is a candidate track, and
    a component with two nodes of one image is dropped.  A keypoint index out
    of range aborts. *)
Definition generate_tracks_from_pairwise_matches
    (corr_idxs_dict : list (Z * Z * list (Z * Z)))
    (keypoints_list : list Keypoints.t)
  : Py.result (list Common.SfmTrack2d) :=
  Py.mapM (track_of keypoints_list) (filter valid (components corr_idxs_dict)).

(** The nodes a track was built from. *)
Definition track_nodes (t : Common.SfmTrack2d) : list Node :=
  map (fun m => (Common.m_image m, Common.m_keypoint m)) (Common.measurements_2d t).

Definition track_images (t : Common.SfmTrack2d) : list Z :=
  map Common.m_image (Common.measurements_2d t).

(** The node names a keypoint that exists. *)
Definition node_in_range (keypoints_list : list Keypoints.t) (n : Node) : Prop :=
  0 <= fst n /\ 0 <= snd n
  /\ exists kp, nth_error keypoints_list (Z.to_nat (fst n)) = Some kp
                /\ (Z.to_nat (snd n) < length (Keypoints.coordinates kp))%nat.

(** Two nodes at different positions of a component lie in one image. *)
Definition shares_image (c : list Node) : Prop :=
  exists i j a b,
    i <> j /\ nth_error c i = Some a /\ nth_error c j = Some b /\ fst a = fst b.

End TrackBuilder.

(** ** The Landmark Initializer *)

Module Point3dInit.

(** Modelled from the spec: the outcome of the multi-view solve of
    point3d_initializer.py for one track, a file that is not among the
    sources: the candidate 3D track (or nothing when the geometry is
    degenerate or the support is insufficient), the average reprojection
    error over the supporting measurements, and the depth of the fitted point
    along the viewing axis of every observing camera. *)
Record Fit : Type := mkFit {
  fit_track : option Gtsam.SfmTrack;
  avg_error : Q;
  depths : list Q
}.

(** Modelled from the spec: the cheirality test; some camera reports the
    fitted point at non-positive depth. *)
Definition cheirality_failure (f : Fit) : bool :=
  existsb (fun d => Qle_bool d 0) (depths f).

Section Triangulate.

Variable Camera : Type.

(** The solve itself, direct or the winning hypothesis of the sampling mode:
    floating-point linear algebra and random draws. *)
Variable solve :
  list (Z * Camera) -> DataAssoc.TriangulationParam -> Q -> option Z ->
  Common.SfmTrack2d -> Fit.

(** Modelled from the spec: [Point3dInitializer.triangulate] of
    gtsfm/data_association/point3d_initializer.py, which is not among the
    sources.  On a cheirality failure the flag is set and the result is none,
    with the computed average error still reported. *)
Definition triangulate (cameras : list (Z * Camera))
    (mode : DataAssoc.TriangulationParam) (reproj_error_thresh : Q)
    (num_ransac_hypotheses : option Z) (track_2d : Common.SfmTrack2d)
  : DataAssoc.Triangulated :=
  let f := solve cameras mode reproj_error_thresh num_ransac_hypotheses track_2d in
  if cheirality_failure f
  then (None, avg_error f, true)
  else (fit_track f, avg_error f, false).

End Triangulate.

Arguments triangulate {Camera}.

End Point3dInit.

(** ** The triangulation loop, track by track *)

Module LoopView.

Import Gtsam DataAssoc.

Section View.

Variable self : DataAssociation.
Variable tri : Common.SfmTrack2d -> Triangulated.

Definition result_of (t : Common.SfmTrack2d) : option SfmTrack := fst (fst (tri t)).
Definition error_of (t : Common.SfmTrack2d) : Q := snd (fst (tri t)).
Definition flag_of (t : Common.SfmTrack2d) : bool := snd (tri t).

(** The 3D track that the 2D track [t] contributes to the output, if any. *)
Definition kept_track (t : Common.SfmTrack2d) : list SfmTrack :=
  match result_of t with
  | Some s => if min_track_len self <=? number_measurements s then [s] else []
  | None => []
  end.

Definition accepted_error (t : Common.SfmTrack2d) : list Q :=
  if validate_track self (result_of t) then [error_of t] else [].

Definition rejected_error (t : Common.SfmTrack2d) : list Q :=
  if validate_track self (result_of t) then [] else [error_of t].

End View.

(** The key names of the metrics record, in the order of the dictionary
    literal. *)
Definition metric_keys : list string :=
  [ "mean_2d_track_length"; "accepted_tracks_ratio";
    "track_cheirality_failure_ratio"; "num_accepted_tracks";
    "mean_3d_track_length"; "median_3d_track_length";
    "num_len_2_tracks"; "num_len_3_tracks"; "num_len_4_tracks";
    "num_len_5_tracks"; "num_len_6_tracks"; "num_len_7_tracks";
    "num_len_8_tracks"; "num_len_9_tracks"; "num_len_10_tracks";
    "per_rejected_track_avg_errors"; "per_accepted_track_avg_errors";
    "points_3d" ]%string.

(** The histogram keys with the track length each one counts. *)
Definition histogram_keys : list (Z * string) :=
  [ (2, "num_len_2_tracks"); (3, "num_len_3_tracks"); (4, "num_len_4_tracks");
    (5, "num_len_5_tracks"); (6, "num_len_6_tracks"); (7, "num_len_7_tracks");
    (8, "num_len_8_tracks"); (9, "num_len_9_tracks");
    (10, "num_len_10_tracks") ]%string.

(** The number of tracks of the scene with exactly [k] measurements. *)
Definition tracks_of_length {Camera : Type} (data : SfmData Camera) (k : Z) : Z :=
  Z.of_nat (length (filter (fun t => number_measurements t =? k) (tracks data))).

End LoopView.

(** ** A small scene used to exercise the definitions *)

Module Samples.

Import Gtsam DataAssoc.

(** Three images with two keypoints each. *)
Definition kps : list Keypoints.t :=
  [ Keypoints.mkKeypoints [(10, 10); (20, 20)]%Q None None;
    Keypoints.mkKeypoints [(11, 10); (21, 20)]%Q None None;
    Keypoints.mkKeypoints [(12, 10); (22, 20)]%Q None None ].

(** Keypoint 0 is matched across images 0, 1 and 2, keypoint 1 across images
    0 and 1 only. *)
Definition corr : list (Z * Z * list (Z * Z)) :=
  [ (0, 1, [(0, 0); (1, 1)]); (1, 2, [(0, 0)]) ].

(** Image 0 is matched to two different keypoints of image 1. *)
Definition corr_conflict : list (Z * Z * list (Z * Z)) :=
  [ (0, 1, [(0, 0); (0, 1)]); (1, 2, [(0, 0)]) ].

Definition cams_012 : list (Z * nat) := [(0, 100%nat); (1, 101%nat); (2, 102%nat)].
Definition cams_02 : list (Z * nat) := [(0, 100%nat); (2, 102%nat)].

Definition as_track (t : Common.SfmTrack2d) : SfmTrack :=
  mkSfmTrack (0, 0, 5)%Q
    (map (fun m => (Common.m_image m, Common.m_uv m)) (Common.measurements_2d t)).

(** A solve that keeps every measurement and sees the point in front of
    every camera. *)
Definition solve_front (_ : list (Z * nat)) (_ : TriangulationParam) (_ : Q)
    (_ : option Z) (t : Common.SfmTrack2d) : Point3dInit.Fit :=
  Point3dInit.mkFit (Some (as_track t)) (1 # 4)
    (map (fun _ => 5%Q) (Common.measurements_2d t)).

(** A solve that puts the point of every two-view track behind its second
    camera. *)
Definition solve_behind (_ : list (Z * nat)) (_ : TriangulationParam) (_ : Q)
    (_ : option Z) (t : Common.SfmTrack2d) : Point3dInit.Fit :=
  if Common.number_measurements t =? 2
  then Point3dInit.mkFit (Some (as_track t)) (3 # 4) [5; -1]%Q
  else Point3dInit.mkFit (Some (as_track t)) (1 # 4)
         (map (fun _ => 5%Q) (Common.measurements_2d t)).

(** The two 2D tracks of [corr], as the Track Builder emits them. *)
Definition track_two : Common.SfmTrack2d :=
  Common.mkSfmTrack2d
    [ Common.mkMeasurement 0 1 (20, 20)%Q; Common.mkMeasurement 1 1 (21, 20)%Q ].

Definition track_three : Common.SfmTrack2d :=
  Common.mkSfmTrack2d
    [ Common.mkMeasurement 0 0 (10, 10)%Q; Common.mkMeasurement 1 0 (11, 10)%Q;
      Common.mkMeasurement 2 0 (12, 10)%Q ].

Definition self_min2 : DataAssociation := mkDataAssociation 3 2 DIRECT None.
Definition self_min3 : DataAssociation := mkDataAssociation 3 3 DIRECT None.

(** A symmetric 3 x 3 matrix of view-pair scores. *)
Definition pairs3 : PatchmatchEval.matrix :=
  let f := PatchmatchEval.Fin in
  [ [f 0; f 5; f 1]; [f 5; f 0; f 3]; [f 1; f 3; f 0] ]%Q.

(** A square root that is exact on the perfect squares used below. *)
Definition isqrt (q : Q) : Q := inject_Z (Z.sqrt (Qfloor q)).



(** Three keypoints with responses and their descriptors. *)
Definition kp3 : Keypoints.t :=
  Keypoints.mkKeypoints [(1, 1); (2, 2); (3, 3)]%Q None
    (Some [1 # 2; 9 # 10; 3 # 10]).

Definition ds3 : list (list Q) := [ [1]; [2]; [3] ]%Q.

Definition run_with (solve : list (Z * nat) -> TriangulationParam -> Q -> option Z ->
                             Common.SfmTrack2d -> Point3dInit.Fit)
  := run TrackBuilder.generate_tracks_from_pairwise_matches
         (Point3dInit.triangulate solve).

End Samples.

(** ** Readings of the scene and of the metrics record *)

Module SceneView.

Import Gtsam DataAssoc.

(** A track whose length no histogram entry counts. *)
Definition outside_histogram (t : SfmTrack) : bool :=
  (number_measurements t <? 2) || (10 <? number_measurements t).

(** [cameras[i]] on the camera dictionary. *)
Fixpoint camera_of {Camera : Type} (cams : list (Z * Camera)) (i : Z) : option Camera :=
  match cams with
  | [] => None
  | (k, cam) :: rest => if k =? i then Some cam else camera_of rest i
  end.

(** The dictionary was filled in the order of its keys [0, 1, ..., N-1]. *)
Definition ascending_keys {Camera : Type} (cams : list (Z * Camera)) : Prop :=
  map fst cams = map Z.of_nat (seq 0 (length cams)).

(** The float stored under a key, when there is one and it is not NaN. *)
Definition float_at (k : string) (m : Metrics) : option Q :=
  match lookup k m with
  | Some (MFloat (Some q)) => Some q
  | _ => None
  end.

Definition int_at (k : string) (m : Metrics) : option Z :=
  match lookup k m with
  | Some (MInt n) => Some n
  | _ => None
  end.

End SceneView.

(** ** gtsfm/utils/ellipsoid.py: centering *)

Module EllipsoidCenter.

Import Ellipsoid.


Definition column (a : ndarray2) (c : nat) : list Q :=
  map (fun row => nth c row 0%Q) (rows a).








End EllipsoidCenter.

(** ** detector_descriptor_base.py: [filter_by_mask] *)

Module DetectorMask.

(** [xs[i]] for a Python int [i]: a negative index counts from the end, an
    index outside [-n .. n-1] raises. *)
Definition getitem_wrap {A : Type} (xs : list A) (i : Z) : Py.result A :=
  let n := Z.of_nat (length xs) in
  if (0 <=? i) && (i <? n) then Py.getitem xs (Z.to_nat i)
  else if (- n <=? i) && (i <? 0) then Py.getitem xs (Z.to_nat (n + i))
  else Py.raise Py.IndexError.

(** [mask[r, c]] on an (H, W) array given by its rows. *)
Definition mask_at (mask : list (list Z)) (r c : Z) : Py.result Z :=
  row <- getitem_wrap mask r ;;
  getitem_wrap row c.

(** The mask is an (H, W) array. *)
Definition rectangular (mask : list (list Z)) (H W : nat) : Prop :=
  length mask = H /\ Forall (fun row => length row = W) mask.

(** [np.round(coordinates).astype(int)]. *)
Definition rounded_coordinates (coordinates : list Gtsam.Point2) : list (Z * Z) :=
  map (fun uv => (Np.round_half_even (fst uv), Np.round_half_even (snd uv)))
      coordinates.

(** [np.flatnonzero] on a boolean array. *)
Definition flatnonzero (a : list bool) : list nat :=
  map fst (filter snd (Np.enumerate a)).

(** [filter_by_mask]. *)
Definition filter_by_mask {D : Type} (mask : list (list Z))
    (keypoints : Keypoints.t) (descriptors : list D)
  : Py.result (Keypoints.t * list D) :=
  let rounded_coordinates := rounded_coordinates (Keypoints.coordinates keypoints) in
  values <- Py.mapM (fun xy => mask_at mask (snd xy) (fst xy)) rounded_coordinates ;;
  let valid_idxs := flatnonzero (map (fun v => v =? 1) values) in
  kp <- Keypoints.extract_indices keypoints valid_idxs ;;
  ds <- Keypoints.take descriptors valid_idxs ;;
  Py.ret (kp, ds).

(** The rounded pixel of every keypoint indexes the mask without an
    exception. *)
Definition within_mask (H W : nat) (coordinates : list Gtsam.Point2) : Prop :=
  Forall (fun xy => - Z.of_nat W <= fst xy < Z.of_nat W
                    /\ - Z.of_nat H <= snd xy < Z.of_nat H)
         (rounded_coordinates coordinates).

(** Every per-keypoint array of the keypoints and the descriptor array have
    one row per keypoint. *)
Definition consistent {D : Type} (keypoints : Keypoints.t) (descriptors : list D) : Prop :=
  length descriptors = length (Keypoints.coordinates keypoints)
  /\ (forall s, Keypoints.scales keypoints = Some s ->
                length s = length (Keypoints.coordinates keypoints))
  /\ (forall r, Keypoints.responses keypoints = Some r ->
                length r = length (Keypoints.coordinates keypoints)).

End DetectorMask.

(** ** Reading a matrix of view-pair scores *)

Module PairsView.

Import PatchmatchEval.

(** [pairs[r][c]], when there is such an entry. *)
Definition entry (pairs : matrix) (r c : nat) : option score :=
  match nth_error pairs r with
  | Some row => nth_error row c
  | None => None
  end.

(** The matrix has [n] rows of [m] entries each. *)
Definition has_shape (n m : nat) (pairs : matrix) : Prop :=
  length pairs = n /\ Forall (fun row => length row = m) pairs.

End PairsView.

(** ** eval_gtsfm.py: geometric consistency and depth fusion *)

Module Fusion.

(** The exceptions of this part of the file: those of [Py], the [KeyError] of
    a dictionary, the [ValueError] of [np.concatenate] and of [max] on an
    empty array, the [LinAlgError] of [np.linalg.inv] and the
    [AttributeError] of a method that a Python [bool] does not have. *)
Inductive exn : Type :=
| Base (e : Py.exn)
| KeyError
| ValueError
| LinAlgError
| AttributeError.

Definition result (A : Type) : Type := (exn + A)%type.

Definition bind {A B : Type} (m : result A) (k : A -> result B) : result B :=
  match m with
  | inl e => inl e
  | inr a => k a
  end.

Definition lift {A : Type} (m : Py.result A) : result A :=
  match m with
  | inl e => inl (Base e)
  | inr a => inr a
  end.

(** A result of [np.linalg.inv]: nothing for a singular matrix. *)
Definition inverted {A : Type} (m : option A) : result A :=
  match m with
  | Some a => inr a
  | None => inl LinAlgError
  end.

Fixpoint mapM {A B : Type} (f : A -> result B) (l : list A) : result (list B) :=
  match l with
  | [] => inr []
  | x :: l' =>
    match f x with
    | inl e => inl e
    | inr y =>
      match mapM f l' with
      | inl e => inl e
      | inr ys => inr (y :: ys)
      end
    end
  end.

(** [d[k]] on a dictionary with integer keys. *)
Fixpoint dict_get {A : Type} (d : list (nat * A)) (k : nat) : result A :=
  match d with
  | [] => inl KeyError
  | (k', v) :: d' => if (k' =? k)%nat then inr v else dict_get d' k
  end.

(** A two-dimensional array, by rows. *)
Definition grid (A : Type) : Type := list (list A).

(** Every entry with its pixel position [(x, y)], as [np.meshgrid] over
    [arange(width)] and [arange(height)] pairs them. *)
Definition with_coords {A : Type} (g : grid A) : grid (Z * Z * A) :=
  map (fun yrow =>
         map (fun xv => (Z.of_nat (fst xv), Z.of_nat (fst yrow), snd xv))
             (Np.enumerate (snd yrow)))
      (Np.enumerate g).

(** [a / b] on floats, for [a >= 0]: a zero divisor gives [inf] or NaN,
    written [None]. *)
Definition fdiv (a b : Q) : option Q :=
  if Qeq_bool b 0 then None else Some (a / b)%Q.

(** [r < t] for a finite [t]; false on [inf] and on NaN. *)
Definition lt_finite (r : option Q) (t : Q) : bool :=
  match r with
  | Some r => Np.Qltb r t
  | None => false
  end.

(** The estimated depth and the photometric confidence of one pixel of a
    view; the depth map, the confidence map and the resized image of a view
    have one shape. *)
Record Pixel : Type := mkPixel {
  px_depth : Q;
  px_confidence : Q
}.

Definition depth_map (v : grid Pixel) : grid Q := map (map px_depth) v.

(** What [reproject_with_depth] computes for the reference pixel [(x, y)] of
    depth [d]: the reprojected depth and the reprojected pixel position. *)
Definition Reprojection : Type := Z -> Z -> Q -> Q * Q * Q.

Section Fuse.

(** The floating-point square root. *)
Variable fsqrt : Q -> Q.

(** A camera: intrinsics and extrinsics. *)
Variable Cam : Type.
Variable Img : Type.

(** [reproject_with_depth] for a reference and a source camera and a source
    depth map: matrix algebra and bilinear sampling, pixel by pixel; nothing
    when one of the four matrices it inverts is singular. *)
Variable reproject_with_depth : Cam -> Cam -> option (grid Q -> Reprojection).

(** The back-projection of a pixel of given depth to a world point through
    the inverse intrinsics and extrinsics of the reference camera; nothing
    when one of the two is singular. *)
Variable unproject : Cam -> option (Z -> Z -> Q -> Gtsam.Point3).

(** [check_geometric_consistency] at one pixel: the mask and the reprojected
    depth, set to 0 where the mask is false. *)
Definition check_pixel (reproject : Reprojection)
    (geo_pixel_thres geo_depth_thres : Q) (p : Z * Z * Q) : bool * Q :=
  let '(x_ref, y_ref, depth_ref) := p in
  let '(depth_reprojected, x2d_reprojected, y2d_reprojected) :=
    reproject x_ref y_ref depth_ref in
  let dx := (x2d_reprojected - inject_Z x_ref)%Q in
  let dy := (y2d_reprojected - inject_Z y_ref)%Q in
  let dist := fsqrt (dx * dx + dy * dy)%Q in
  let depth_diff := Qabs (depth_reprojected - depth_ref) in
  let relative_depth_diff := fdiv depth_diff depth_ref in
  let mask := Np.Qltb dist geo_pixel_thres
              && lt_finite relative_depth_diff geo_depth_thres in
  (mask, if mask then depth_reprojected else 0%Q).

(** [check_geometric_consistency]: the mask and the masked reprojected
    depth of every pixel of the reference depth map. *)
Definition check_geometric_consistency (depth_ref : grid Q) (cam_ref : Cam)
    (depth_src : grid Q) (cam_src : Cam)
    (geo_pixel_thres geo_depth_thres : Q) : result (grid (bool * Q)) :=
  bind (inverted (reproject_with_depth cam_ref cam_src)) (fun reproject =>
  inr (map (map (check_pixel (reproject depth_src) geo_pixel_thres geo_depth_thres))
           (with_coords depth_ref))).

(** The body of [filter_depth] at one pixel of the reference view, given the
    outcome of the consistency check against every source view: the final
    mask and the averaged depth. *)
Definition fuse_pixel (photo_thres : Q) (confidence depth_ref : Q)
    (checks : list (bool * Q)) : bool * Q :=
  let geo_mask_sum := Z.of_nat (length (filter fst checks)) in
  let depth_est_averaged :=
    ((Np.sum (map snd checks) + depth_ref) / inject_Z (geo_mask_sum + 1))%Q in
  let photo_mask := Np.Qltb photo_thres confidence in
  let geo_mask := 3 <=? geo_mask_sum in
  (photo_mask && geo_mask, depth_est_averaged).

(** One pass of [for ref_view, src_views in pair_data], without the optional
    output files: the world points of the pixels that pass the final mask, in
    row-major order.  With no source view [geo_mask] is a Python [bool], and
    the progress line calls [geo_mask.mean()] on it. *)
Definition fuse_view (cameras : list Cam) (images : list Img)
    (views : list (nat * grid Pixel))
    (geo_pixel_thres geo_depth_thres photo_thres : Q)
    (entry : nat * list nat) : result (list Gtsam.Point3) :=
  let '(ref_view, src_views) := entry in
  bind (lift (Py.getitem cameras ref_view)) (fun ref_cam =>
  bind (lift (Py.getitem images ref_view)) (fun _ =>
  bind (dict_get views ref_view) (fun ref_maps =>
  bind (mapM (fun src_view =>
                bind (lift (Py.getitem cameras src_view)) (fun src_cam =>
                bind (dict_get views src_view) (fun src_maps =>
                bind (inverted (reproject_with_depth ref_cam src_cam))
                     (fun reproject =>
                inr (reproject (depth_map src_maps))))))
             src_views) (fun srcs =>
  match src_views with
  | [] => inl AttributeError
  | _ =>
    bind (inverted (unproject ref_cam)) (fun to_world =>
    inr (flat_map
           (flat_map (fun xyp : Z * Z * Pixel =>
              let '(x, y, px) := xyp in
              let checks :=
                map (fun reproject : Reprojection =>
                       check_pixel reproject geo_pixel_thres geo_depth_thres
                                   (x, y, px_depth px))
                    srcs in
              let '(valid, depth) :=
                fuse_pixel photo_thres (px_confidence px) (px_depth px) checks in
              if valid then [to_world x y depth] else []))
           (with_coords ref_maps)))
  end)))).

(** [np.concatenate(vertexs, axis=0)]. *)
Definition concatenate {A : Type} (arrays : list (list A)) : result (list A) :=
  match arrays with
  | [] => inl ValueError
  | _ => inr (concat arrays)
  end.

(** [filter_depth] with [save_output=False]. *)
Definition filter_depth (pairs : PatchmatchEval.matrix) (cameras : list Cam)
    (images : list Img) (nviews : Z) (views : list (nat * grid Pixel))
    (geo_pixel_thres geo_depth_thres photo_thres : Q)
  : result (list Gtsam.Point3) :=
  bind (lift (PatchmatchEval.read_pair_file pairs nviews)) (fun pair_data =>
  bind (mapM (fuse_view cameras images views
                        geo_pixel_thres geo_depth_thres photo_thres)
             pair_data) (fun vertexs =>
  concatenate vertexs)).

(** Every view index below [n] has an image, its maps and a camera, and no
    camera matrix is singular. *)
Definition complete (n : nat) (cameras : list Cam)
    (images : list Img) (views : list (nat * grid Pixel)) : Prop :=
  (n <= length cameras)%nat /\ (n <= length images)%nat
  /\ (forall v, (v < n)%nat -> exists maps, dict_get views v = inr maps)
  /\ (forall c1 c2, In c1 cameras -> In c2 cameras ->
                    exists f, reproject_with_depth c1 c2 = Some f)
  /\ (forall c, In c cameras -> exists u, unproject c = Some u).

End Fuse.

End Fusion.

(** ** eval_gtsfm.py: [save_depth_img] *)

Module DepthImage.

Definition qmax (a b : Q) : Q := if Qle_bool a b then b else a.
Definition qmin (a b : Q) : Q := if Qle_bool a b then a else b.

(** [a.max()] and [a.min()] on an array with the entries [x :: xs]. *)
Definition array_max (x : Q) (xs : list Q) : Q := fold_left qmax xs x.
Definition array_min (x : Q) (xs : list Q) : Q := fold_left qmin xs x.

(** The integer part of a float, toward zero. *)
Definition truncate (s : Q) : Z := Z.quot (Qnum s) (Z.pos (Qden s)).

(** [astype(np.uint8)] on one float; [nan_as_uint8] is what the platform
    makes of a NaN. *)
Definition as_uint8 (nan_as_uint8 : Z) (s : option Q) : Z :=
  match s with
  | Some s => (truncate s) mod 256
  | None => nan_as_uint8
  end.

(** [save_depth_img]: the image handed to [cv2.imwrite] and the transform
    handed to [np.save]. *)
Definition save_depth_img (nan_as_uint8 : Z) (depth : Fusion.grid Q)
  : Fusion.result (Fusion.grid Z * (Q * Q)) :=
  match concat depth with
  | [] => inl Fusion.ValueError
  | x :: xs =>
    let d := (array_max x xs - array_min x xs)%Q in
    let b := (- array_min x xs)%Q in
    let scaled := map (map (fun v => Fusion.fdiv (255 * (v + b)) d)) depth in
    let transform := ((d / 255)%Q, (- b)%Q) in
    inr (map (map (as_uint8 nan_as_uint8)) scaled, transform)
  end.

(** The depth that a stored pixel value stands for under the stored
    transform. *)
Definition decode (transform : Q * Q) (pixel : Z) : Q :=
  (inject_Z pixel * fst transform + snd transform)%Q.

End DepthImage.

(** ** More sample inputs *)

Module Samples2.

(** A 2 x 3 mask. *)
Definition mask23 : list (list Z) := [ [1; 0; 1]; [0; 1; 1] ].
Definition mask_ones : list (list Z) := [ [1; 1; 1]; [1; 1; 1] ].

(** Four keypoints; the last one lies just left of the image. *)
Definition kp_mask : Keypoints.t :=
  Keypoints.mkKeypoints [ (0, 0); (14 # 10, 6 # 10); (1, 0); (- (6 # 10), 0) ]%Q
    None None.

(** A keypoint right of a 3-pixel-wide image. *)
Definition kp_outside : Keypoints.t :=
  Keypoints.mkKeypoints [ (0, 0); (3, 0) ]%Q None None.

Definition ds4 : list (list Q) := [ [1]; [2]; [3]; [4] ]%Q.
Definition ds2 : list (list Q) := [ [1]; [2] ]%Q.

(** A 3 x 2 matrix of scores: the third row has no diagonal entry. *)
Definition pairs_short : PatchmatchEval.matrix :=
  let f := PatchmatchEval.Fin in
  [ [f 0; f 1]; [f 1; f 0]; [f 2; f 3] ]%Q.


(** A reprojection that lands on the reference pixel with the reference
    depth, and a back-projection that keeps pixel and depth. *)
Definition reproject_same (_ _ : unit)
  : option (Fusion.grid Q -> Fusion.Reprojection) :=
  Some (fun _ x y d => (d, inject_Z x, inject_Z y)).

Definition unproject_plain (_ : unit) : option (Z -> Z -> Q -> Gtsam.Point3) :=
  Some (fun x y d => (inject_Z x, inject_Z y, d)).

Definition view_maps : Fusion.grid Fusion.Pixel :=
  [ [Fusion.mkPixel 2 (9 # 10); Fusion.mkPixel 0 (9 # 10)] ].

Definition views3 : list (nat * Fusion.grid Fusion.Pixel) :=
  [ (0%nat, view_maps); (1%nat, view_maps); (2%nat, view_maps) ].

Definition depth22 : Fusion.grid Q := [ [1; 2]; [3; 5] ]%Q.

End Samples2.

(* ================================================================== *)
(** * Part II: properties *)
(* ================================================================== *)

Import Gtsam DataAssoc LoopView.

(** ** Data association: the triangulation loop *)

Section LoopFacts.

Variable Camera : Type.
Variable self : DataAssociation.
Variable tri : Common.SfmTrack2d -> Triangulated.

Let body := @loop_body Camera self tri.

Lemma loop_body_tracks (st : LoopState Camera) (t : Common.SfmTrack2d) :
  tracks (triangulated_data (body st t))
  = tracks (triangulated_data st) ++ kept_track self tri t.
Proof.
  unfold body, loop_body, kept_track, result_of.
  destruct (tri t) as [[r e] c]; simpl.
  destruct r as [s|]; simpl.
  - destruct (min_track_len self <=? number_measurements s); simpl.
    + reflexivity.
    + now rewrite app_nil_r.
  - now rewrite app_nil_r.
Qed.

Lemma loop_body_cameras (st : LoopState Camera) (t : Common.SfmTrack2d) :
  cameras (triangulated_data (body st t)) = cameras (triangulated_data st).
Proof.
  unfold body, loop_body.
  destruct (tri t) as [[r e] c]; simpl.
  destruct r as [s|]; simpl; [|reflexivity].
  now destruct (min_track_len self <=? number_measurements s).
Qed.

Lemma loop_body_accepted (st : LoopState Camera) (t : Common.SfmTrack2d) :
  per_accepted_track_avg_errors (body st t)
  = per_accepted_track_avg_errors st ++ accepted_error self tri t.
Proof.
  unfold body, loop_body, accepted_error, result_of, error_of.
  destruct (tri t) as [[r e] c]; simpl.
  destruct r as [s|]; simpl.
  - destruct (min_track_len self <=? number_measurements s); simpl.
    + reflexivity.
    + now rewrite app_nil_r.
  - now rewrite app_nil_r.
Qed.

Lemma loop_body_rejected (st : LoopState Camera) (t : Common.SfmTrack2d) :
  per_rejected_track_avg_errors (body st t)
  = per_rejected_track_avg_errors st ++ rejected_error self tri t.
Proof.
  unfold body, loop_body, rejected_error, result_of, error_of.
  destruct (tri t) as [[r e] c]; simpl.
  destruct r as [s|]; simpl.
  - destruct (min_track_len self <=? number_measurements s); simpl.
    + now rewrite app_nil_r.
    + reflexivity.
  - reflexivity.
Qed.

Lemma loop_body_cheirality (st : LoopState Camera) (t : Common.SfmTrack2d) :
  num_tracks_w_cheirality_exceptions (body st t)
  = num_tracks_w_cheirality_exceptions st + (if flag_of tri t then 1 else 0).
Proof.
  unfold body, loop_body, flag_of.
  destruct (tri t) as [[r e] c]; simpl.
  destruct r as [s|]; simpl.
  - destruct (min_track_len self <=? number_measurements s); destruct c; simpl; lia.
  - destruct c; simpl; lia.
Qed.

(** The state after the loop, from any starting state. *)
Lemma fold_loop_body (l : list Common.SfmTrack2d) :
  forall st : LoopState Camera,
    let st' := fold_left body l st in
    tracks (triangulated_data st')
      = tracks (triangulated_data st) ++ flat_map (kept_track self tri) l
    /\ cameras (triangulated_data st') = cameras (triangulated_data st)
    /\ per_accepted_track_avg_errors st'
      = per_accepted_track_avg_errors st ++ flat_map (accepted_error self tri) l
    /\ per_rejected_track_avg_errors st'
      = per_rejected_track_avg_errors st ++ flat_map (rejected_error self tri) l
    /\ num_tracks_w_cheirality_exceptions st'
      = num_tracks_w_cheirality_exceptions st
        + Z.of_nat (length (filter (flag_of tri) l)).
Proof.
  induction l as [|t l IH]; intros st; simpl.
  - rewrite !app_nil_r. repeat split; lia.
  - destruct (IH (body st t)) as (Ht & Hc & Ha & Hr & Hn).
    rewrite Ht, Hc, Ha, Hr, Hn.
    rewrite loop_body_tracks, loop_body_cameras, loop_body_accepted,
      loop_body_rejected, loop_body_cheirality.
    rewrite <- !app_assoc.
    repeat split.
    destruct (flag_of tri t); simpl length; lia.
Qed.

Lemma triangulate_tracks_closed (l : list Common.SfmTrack2d) :
  let st := @triangulate_tracks Camera self tri l in
  tracks (triangulated_data st) = flat_map (kept_track self tri) l
  /\ cameras (triangulated_data st) = []
  /\ per_accepted_track_avg_errors st = flat_map (accepted_error self tri) l
  /\ per_rejected_track_avg_errors st = flat_map (rejected_error self tri) l
  /\ num_tracks_w_cheirality_exceptions st
     = Z.of_nat (length (filter (flag_of tri) l)).
Proof.
  exact (fold_loop_body l loop_init).
Qed.

(** Every track lands in exactly one of the two error lists. *)
Lemma accepted_plus_rejected (l : list Common.SfmTrack2d) :
  (length (flat_map (accepted_error self tri) l)
   + length (flat_map (rejected_error self tri) l) = length l)%nat.
Proof.
  induction l as [|t l IH]; simpl; [reflexivity|].
  rewrite !length_app.
  unfold accepted_error at 1, rejected_error at 1.
  destruct (validate_track self (result_of tri t)); simpl; lia.
Qed.

(** One accepted error per accepted track. *)
Lemma kept_track_accepted_error (l : list Common.SfmTrack2d) :
  length (flat_map (kept_track self tri) l)
  = length (flat_map (accepted_error self tri) l).
Proof.
  induction l as [|t l IH]; simpl; [reflexivity|].
  rewrite !length_app, IH. f_equal.
  unfold kept_track, accepted_error, validate_track.
  destruct (result_of tri t) as [s|]; [|reflexivity].
  now destruct (min_track_len self <=? number_measurements s).
Qed.

(** The accepted list holds the average error that [triangulate] returned
    for each validated track, in input order; the rejected list holds it for
    each of the others. *)
Lemma accepted_errors_of_validated (l : list Common.SfmTrack2d) :
  flat_map (accepted_error self tri) l
  = map (fun t => snd (fst (tri t)))
        (filter (fun t => validate_track self (fst (fst (tri t)))) l).
Proof.
  induction l as [|t l IH]; simpl; [reflexivity|].
  rewrite IH. unfold accepted_error, result_of, error_of.
  now destruct (validate_track self (fst (fst (tri t)))).
Qed.

Lemma rejected_errors_of_others (l : list Common.SfmTrack2d) :
  flat_map (rejected_error self tri) l
  = map (fun t => snd (fst (tri t)))
        (filter (fun t => negb (validate_track self (fst (fst (tri t))))) l).
Proof.
  induction l as [|t l IH]; simpl; [reflexivity|].
  rewrite IH. unfold rejected_error, result_of, error_of.
  now destruct (validate_track self (fst (fst (tri t)))).
Qed.

End LoopFacts.

(** ** Data association: the camera loop *)

Section CameraFacts.

Variable Camera : Type.

Lemma arange_getitem_same (n i : Z) :
  (exists e, Np.arange_getitem n i = inr e /\ (i =? e) = true) <-> 0 <= i < n.
Proof.
  unfold Np.arange_getitem, Py.ret, Py.raise.
  destruct ((0 <=? i) && (i <? n)) eqn:E1.
  - apply andb_true_iff in E1 as [H1 H2].
    split; [lia|]. intros _. exists i. split; [reflexivity|lia].
  - split.
    + intros (e & He & Hie).
      destruct ((- n <=? i) && (i <? 0)) eqn:E2; [|discriminate].
      apply andb_true_iff in E2 as [H1 H2].
      injection He as <-. lia.
    + intros H. apply andb_false_iff in E1. destruct E1; lia.
Qed.

(** The camera loop either raises or appends every camera, in dictionary
    order, and leaves the tracks alone. *)
Lemma add_cameras_inr (n : Z) (items : list (Z * Camera)) :
  forall d d' : SfmData Camera,
    add_cameras n items d = inr d' ->
    d' = mkSfmData (cameras d ++ map snd items) (tracks d)
    /\ forall i, In i (map fst items) -> 0 <= i < n.
Proof.
  induction items as [|[i cam] rest IH]; simpl; intros d d' H.
  - injection H as <-. rewrite app_nil_r. now destruct d.
  - unfold Py.bind in H.
    destruct (Np.arange_getitem n i) as [e|expected] eqn:E; [discriminate|].
    destruct (i =? expected) eqn:Ei; simpl in H; [|discriminate].
    apply IH in H as [-> Hin]. simpl.
    rewrite <- app_assoc. split; [reflexivity|].
    intros j [<-|Hj]; [|now apply Hin].
    apply arange_getitem_same. now exists expected.
Qed.

Lemma add_cameras_in_range (n : Z) (items : list (Z * Camera)) :
  forall d : SfmData Camera,
    (forall i, In i (map fst items) -> 0 <= i < n) ->
    add_cameras n items d
    = inr (mkSfmData (cameras d ++ map snd items) (tracks d)).
Proof.
  induction items as [|[i cam] rest IH]; simpl; intros d H.
  - rewrite app_nil_r. now destruct d.
  - destruct (proj2 (arange_getitem_same n i) (H i (or_introl eq_refl)))
      as (e & -> & Hie).
    simpl. rewrite Hie. simpl.
    rewrite IH by (intros j Hj; apply H; now right).
    simpl. now rewrite <- app_assoc.
Qed.

(** [n] distinct keys within [0 .. n-1] are all of [0 .. n-1]. *)
Lemma keys_fill_range (keys : list Z) :
  NoDup keys ->
  (forall i, In i keys -> 0 <= i < Z.of_nat (length keys)) ->
  forall i, In i keys <-> 0 <= i < Z.of_nat (length keys).
Proof.
  intros Hnd Hin i. split; [apply Hin|]. intros Hi.
  assert (Hincl : incl (map Z.of_nat (seq 0 (length keys))) keys).
  { apply NoDup_length_incl.
    - exact Hnd.
    - now rewrite length_map, length_seq.
    - intros j Hj. apply Hin in Hj.
      apply in_map_iff. exists (Z.to_nat j). split; [lia|].
      apply in_seq. lia. }
  apply Hincl. apply in_map_iff. exists (Z.to_nat i). split; [lia|].
  apply in_seq. lia.
Qed.

End CameraFacts.

(** ** Data association: [run] *)

Section RunFacts.

Variable Camera : Type.
Variable CorrIdxs : Type.
Variable Keypoints : Type.
Variable generate_tracks :
  list (Z * Z * CorrIdxs) -> list Keypoints -> Py.result (list Common.SfmTrack2d).
Variable triangulate :
  list (Z * Camera) -> TriangulationParam -> Q -> option Z ->
  Common.SfmTrack2d -> Triangulated.

Let run := @DataAssoc.run Camera CorrIdxs Keypoints generate_tracks triangulate.

Lemma truediv_inr (a b : Z) (q : Q) :
  Py.truediv a b = inr q -> b <> 0 /\ q = (inject_Z a / inject_Z b)%Q.
Proof.
  unfold Py.truediv. destruct (b =? 0) eqn:E; [discriminate|].
  intros H. injection H as <-. split; [lia|reflexivity].
Qed.

Lemma truediv_nonzero (a b : Z) :
  b <> 0 -> Py.truediv a b = inr (inject_Z a / inject_Z b)%Q.
Proof.
  intros H. unfold Py.truediv.
  destruct (b =? 0) eqn:E; [lia|reflexivity].
Qed.

(** [collect_points_3d] reads every track once, in order. *)
Lemma collect_points_3d_all (d : SfmData Camera) :
  collect_points_3d d (number_tracks d) = map point3_list (tracks d).
Proof.
  unfold collect_points_3d, number_tracks, track.
  rewrite Nat2Z.id.
  destruct d as [cs ts]; simpl. clear cs.
  induction ts as [|t ts IH] using rev_ind; [reflexivity|].
  rewrite length_app, map_app. simpl.
  rewrite Nat.add_1_r, seq_S, flat_map_app. simpl.
  rewrite nth_error_app2, Nat.sub_diag by lia. simpl.
  f_equal.
  rewrite <- IH, !flat_map_concat_map. f_equal.
  apply map_ext_in.
  intros j Hj. apply in_seq in Hj.
  rewrite nth_error_app1 by lia. reflexivity.
Qed.

(** What a returning [run] has computed. *)
Lemma run_inr (self : DataAssociation) (cams : list (Z * Camera))
    (corr : list (Z * Z * CorrIdxs)) (kps : list Keypoints)
    (data : SfmData Camera) (m : Metrics) :
  run self cams corr kps = inr (data, m) ->
  exists tracks_2d,
    generate_tracks corr kps = inr tracks_2d
    /\ tracks_2d <> []
    /\ let st := triangulate_tracks self (tri_of triangulate self cams) tracks_2d in
       let n := Z.of_nat (length tracks_2d) in
       let num_accepted_tracks := number_tracks (triangulated_data st) in
       add_cameras (Z.of_nat (length cams)) cams (triangulated_data st) = inr data
       /\ m =
          [ ("mean_2d_track_length",
               MFloat (Np.round3_nan
                 (Np.mean (map inject_Z (map Common.number_measurements tracks_2d)))));
            ("accepted_tracks_ratio",
               MFloat (Some (Np.round3 (inject_Z num_accepted_tracks / inject_Z n))));
            ("track_cheirality_failure_ratio",
               MFloat (Some (Np.round3
                 (inject_Z (num_tracks_w_cheirality_exceptions st) / inject_Z n))));
            ("num_accepted_tracks", MInt num_accepted_tracks);
            ("mean_3d_track_length",
               MFloat (Np.round3_nan (fst (fst (get_track_length_statistics data)))));
            ("median_3d_track_length",
               MFloat (snd (fst (get_track_length_statistics data))));
            ("num_len_2_tracks", MInt (Np.count_eq (snd (get_track_length_statistics data)) 2));
            ("num_len_3_tracks", MInt (Np.count_eq (snd (get_track_length_statistics data)) 3));
            ("num_len_4_tracks", MInt (Np.count_eq (snd (get_track_length_statistics data)) 4));
            ("num_len_5_tracks", MInt (Np.count_eq (snd (get_track_length_statistics data)) 5));
            ("num_len_6_tracks", MInt (Np.count_eq (snd (get_track_length_statistics data)) 6));
            ("num_len_7_tracks", MInt (Np.count_eq (snd (get_track_length_statistics data)) 7));
            ("num_len_8_tracks", MInt (Np.count_eq (snd (get_track_length_statistics data)) 8));
            ("num_len_9_tracks", MInt (Np.count_eq (snd (get_track_length_statistics data)) 9));
            ("num_len_10_tracks", MInt (Np.count_eq (snd (get_track_length_statistics data)) 10));
            ("per_rejected_track_avg_errors", MFloatList (per_rejected_track_avg_errors st));
            ("per_accepted_track_avg_errors", MFloatList (per_accepted_track_avg_errors st));
            ("points_3d", MPoints (collect_points_3d data num_accepted_tracks)) ]%string.
Proof.
  unfold run, DataAssoc.run, Py.bind. fold (tri_of triangulate self cams).
  destruct (generate_tracks corr kps) as [e|tracks_2d]; [discriminate|].
  destruct (Py.truediv _ _) as [e|ratio] eqn:E1; [discriminate|].
  destruct (Py.truediv (num_tracks_w_cheirality_exceptions _) _)
    as [e|cratio] eqn:E2; [discriminate|].
  destruct (add_cameras _ _ _) as [e|d] eqn:E3; [discriminate|].
  apply truediv_inr in E1 as [Hn ->], E2 as [_ ->].
  unfold get_track_length_statistics, Py.ret.
  intros H. injection H as <- <-.
  exists tracks_2d. split; [reflexivity|]. split.
  - intros ->. now apply Hn.
  - split; [exact E3|reflexivity].
Qed.

(** [run] returns exactly when track generation succeeds with at least one
    track and every camera key lies in [0 .. N-1]. *)
Lemma run_returns (self : DataAssociation) (cams : list (Z * Camera))
    (corr : list (Z * Z * CorrIdxs)) (kps : list Keypoints)
    (tracks_2d : list Common.SfmTrack2d) :
  generate_tracks corr kps = inr tracks_2d ->
  tracks_2d <> [] ->
  (forall i, In i (map fst cams) -> 0 <= i < Z.of_nat (length cams)) ->
  exists m,
    run self cams corr kps
    = inr (mkSfmData (map snd cams)
             (flat_map (kept_track self (tri_of triangulate self cams)) tracks_2d), m).
Proof.
  intros Hg Hne Hin.
  unfold run, DataAssoc.run, Py.bind. fold (tri_of triangulate self cams).
  rewrite Hg.
  assert (Hn : Z.of_nat (length tracks_2d) <> 0)
    by (destruct tracks_2d; [congruence|simpl; lia]).
  rewrite !truediv_nonzero by exact Hn.
  rewrite add_cameras_in_range by exact Hin.
  destruct (triangulate_tracks_closed Camera self (tri_of triangulate self cams) tracks_2d)
    as (Ht & Hc & _).
  rewrite Ht, Hc. simpl.
  eexists. reflexivity.
Qed.

End RunFacts.


Lemma count_eq_lengths {Camera : Type} (data : SfmData Camera) (k : Z) :
  Np.count_eq (snd (get_track_length_statistics data)) k = tracks_of_length data k.
Proof.
  unfold Np.count_eq, get_track_length_statistics, tracks_of_length. simpl.
  f_equal.
  induction (tracks data) as [|t ts IH]; simpl; [reflexivity|].
  destruct (number_measurements t =? k); simpl; now rewrite IH.
Qed.

Lemma ratios_sum_to_one (a r n : Z) :
  a + r = n -> n <> 0 ->
  (inject_Z a / inject_Z n + inject_Z r / inject_Z n == 1)%Q.
Proof.
  intros H Hn.
  assert (Hq : ~ (inject_Z n == 0)%Q).
  { unfold inject_Z, Qeq. simpl. lia. }
  subst n. rewrite inject_Z_plus in *. field. exact Hq.
Qed.

(** ** Data association: the claims *)

Section DataAssociationClaims.

Variable Camera : Type.
Variable CorrIdxs : Type.
Variable Keypoints : Type.
Variable generate_tracks :
  list (Z * Z * CorrIdxs) -> list Keypoints -> Py.result (list Common.SfmTrack2d).
Variable triangulate :
  list (Z * Camera) -> TriangulationParam -> Q -> option Z ->
  Common.SfmTrack2d -> Triangulated.

Let run := @DataAssoc.run Camera CorrIdxs Keypoints generate_tracks triangulate.

(** C1.  One pass of the triangulation loop appends the triangulated track to
    the output exactly when the triangulation result is not none and has at
    least [min_track_len] measurements, and leaves the output alone
    otherwise; a returning [run] hands back exactly the tracks so kept.  With
    [min_track_len = 3] a track triangulated from two measurements is
    rejected, whatever its average reprojection error, and that error goes to
    the rejected list. *)
Theorem track_added_iff_validated
    (self : DataAssociation) (cams : list (Z * Camera))
    (corr : list (Z * Z * CorrIdxs)) (kps : list Keypoints) :
  let tri := tri_of triangulate self cams in
  (forall (st : LoopState Camera) (t : Common.SfmTrack2d) (s : SfmTrack),
      tracks (triangulated_data (loop_body self tri st t))
      = tracks (triangulated_data st) ++ [s]
      <-> result_of tri t = Some s /\ min_track_len self <= number_measurements s)
  /\ (forall (st : LoopState Camera) (t : Common.SfmTrack2d),
      tracks (triangulated_data (loop_body self tri st t))
      = tracks (triangulated_data st)
      <-> ~ exists s, result_of tri t = Some s
                      /\ min_track_len self <= number_measurements s)
  /\ (forall (st : LoopState Camera) (t : Common.SfmTrack2d) (s : SfmTrack),
      min_track_len self = 3 ->
      result_of tri t = Some s ->
      number_measurements s = 2 ->
      let st' := loop_body self tri st t in
      tracks (triangulated_data st') = tracks (triangulated_data st)
      /\ per_accepted_track_avg_errors st' = per_accepted_track_avg_errors st
      /\ per_rejected_track_avg_errors st'
         = per_rejected_track_avg_errors st ++ [error_of tri t])
  /\ (forall (data : SfmData Camera) (m : Metrics),
      run self cams corr kps = inr (data, m) ->
      exists tracks_2d,
        generate_tracks corr kps = inr tracks_2d
        /\ tracks data = flat_map (kept_track self tri) tracks_2d).
Proof.
  intros tri.
  assert (Hkept : forall t s,
             kept_track self tri t = [s]
             <-> result_of tri t = Some s
                 /\ min_track_len self <= number_measurements s).
  { intros t s. unfold kept_track.
    destruct (result_of tri t) as [s'|].
    - destruct (min_track_len self <=? number_measurements s') eqn:E.
      + apply Z.leb_le in E. split.
        * intros H. injection H as <-. now split.
        * intros [H _]. injection H as <-. reflexivity.
      + apply Z.leb_gt in E. split; [discriminate|].
        intros [H Hle]. injection H as <-. lia.
    - split; [discriminate|]. intros [H _]. discriminate. }
  assert (Hnone : forall t,
             kept_track self tri t = []
             <-> ~ exists s, result_of tri t = Some s
                             /\ min_track_len self <= number_measurements s).
  { intros t. unfold kept_track.
    destruct (result_of tri t) as [s'|].
    - destruct (min_track_len self <=? number_measurements s') eqn:E.
      + apply Z.leb_le in E. split; [discriminate|].
        intros H. exfalso. apply H. now exists s'.
      + apply Z.leb_gt in E. split; [|reflexivity].
        intros _ (s & H & Hle). injection H as <-. lia.
    - split; [|reflexivity]. intros _ (s & H & _). discriminate. }
  split; [|split; [|split]].
  - intros st t s. rewrite loop_body_tracks. rewrite <- Hkept. split.
    + intros H. now apply app_inv_head in H.
    + now intros ->.
  - intros st t. rewrite loop_body_tracks. rewrite <- Hnone. split.
    + intros H. apply (app_inv_head (tracks (triangulated_data st))).
      now rewrite app_nil_r.
    + intros ->. apply app_nil_r.
  - intros st t s Hmin Hres Hlen st'. subst st'.
    rewrite loop_body_tracks, loop_body_accepted, loop_body_rejected.
    unfold kept_track, accepted_error, rejected_error, validate_track.
    rewrite Hres.
    replace (min_track_len self <=? number_measurements s) with false
      by (symmetry; apply Z.leb_gt; lia).
    rewrite !app_nil_r. repeat split.
  - intros data m Hrun.
    apply run_inr in Hrun as (tracks_2d & Hg & _ & Hadd & _).
    exists tracks_2d. split; [exact Hg|].
    apply add_cameras_inr in Hadd as [-> _]. simpl.
    apply (triangulate_tracks_closed Camera self tri tracks_2d).
Qed.

(** C3.  When the keys of the camera dictionary are not exactly
    [0 .. N-1], the camera loop raises, and so does [run], which therefore
    returns no scene at all.  When they are exactly [0 .. N-1] the loop
    raises nothing and appends all [N] cameras, and [run] returns a scene
    with all of them as soon as there is a track to triangulate. *)
Theorem camera_keys_must_fill_range
    (self : DataAssociation) (cams : list (Z * Camera))
    (corr : list (Z * Z * CorrIdxs)) (kps : list Keypoints) :
  NoDup (map fst cams) ->
  let N := Z.of_nat (length cams) in
  (~ (forall i, In i (map fst cams) <-> 0 <= i < N) ->
     (forall d, Py.raises (add_cameras N cams d))
     /\ Py.raises (run self cams corr kps))
  /\ ((forall i, In i (map fst cams) <-> 0 <= i < N) ->
     (forall d, add_cameras N cams d
                = inr (mkSfmData (cameras d ++ map snd cams) (tracks d)))
     /\ (forall tracks_2d,
            generate_tracks corr kps = inr tracks_2d ->
            tracks_2d <> [] ->
            exists data m,
              run self cams corr kps = inr (data, m)
              /\ cameras data = map snd cams
              /\ length (cameras data) = length cams)).
Proof.
  intros Hnd N. split.
  - intros Hgap.
    assert (Hloop : forall d, Py.raises (add_cameras N cams d)).
    { intros d. destruct (add_cameras N cams d) as [e|d'] eqn:E.
      - now exists e.
      - exfalso. apply Hgap.
        apply add_cameras_inr in E as [_ Hin].
        subst N. rewrite <- (length_map fst cams) in *.
        now apply keys_fill_range. }
    split; [exact Hloop|].
    destruct (run self cams corr kps) as [e|[data m]] eqn:E.
    + now exists e.
    + apply run_inr in E as (tracks_2d & _ & _ & Hadd & _).
      destruct (Hloop (triangulated_data
                         (triangulate_tracks self (tri_of triangulate self cams)
                                             tracks_2d))) as [e He].
      fold N in Hadd. congruence.
  - intros Hfill. split.
    + intros d. apply add_cameras_in_range. intros i Hi. now apply Hfill.
    + intros tracks_2d Hg Hne.
      destruct (run_returns Camera CorrIdxs Keypoints generate_tracks triangulate
                  self cams corr kps tracks_2d Hg Hne) as [m Hm].
      { intros i Hi. now apply Hfill. }
      eexists. exists m. split; [exact Hm|]. simpl.
      split; [reflexivity|apply length_map].
Qed.

(** C4.  With no 2D track to triangulate, [run] stops at the first ratio
    with a [ZeroDivisionError]: no metrics record and no sentinel come
    back. *)
Theorem run_without_tracks_raises
    (self : DataAssociation) (cams : list (Z * Camera))
    (corr : list (Z * Z * CorrIdxs)) (kps : list Keypoints) :
  generate_tracks corr kps = inr [] ->
  run self cams corr kps = inl Py.ZeroDivisionError.
Proof.
  intros Hg. unfold run, DataAssoc.run, Py.bind.
  rewrite Hg. reflexivity.
Qed.

(** C5.  With at least one 2D track, every track contributes its error to
    exactly one of the accepted and rejected lists, the accepted and rejected
    counts add up to the input count, and the accepted ratio, as computed
    before rounding, plus rejected over input is one.  The ratio that a
    returning [run] stores is this one, rounded. *)
Theorem accepted_and_rejected_partition
    (self : DataAssociation) (cams : list (Z * Camera))
    (corr : list (Z * Z * CorrIdxs)) (kps : list Keypoints)
    (tracks_2d : list Common.SfmTrack2d) :
  generate_tracks corr kps = inr tracks_2d ->
  tracks_2d <> [] ->
  let tri := tri_of triangulate self cams in
  let st := @triangulate_tracks Camera self tri tracks_2d in
  let accepted := number_tracks (triangulated_data st) in
  let rejected := Z.of_nat (length (per_rejected_track_avg_errors st)) in
  let input := Z.of_nat (length tracks_2d) in
  (forall t, In t tracks_2d ->
     (accepted_error self tri t = [error_of tri t] /\ rejected_error self tri t = [])
     \/ (accepted_error self tri t = [] /\ rejected_error self tri t = [error_of tri t]))
  /\ accepted = Z.of_nat (length (per_accepted_track_avg_errors st))
  /\ accepted + rejected = input
  /\ exists accepted_tracks_ratio,
      Py.truediv accepted input = inr accepted_tracks_ratio
      /\ (accepted_tracks_ratio + inject_Z rejected / inject_Z input == 1)%Q
      /\ forall data m,
          run self cams corr kps = inr (data, m) ->
          lookup "accepted_tracks_ratio" m
          = Some (MFloat (Some (Np.round3 accepted_tracks_ratio))).
Proof.
  intros Hg Hne tri st accepted rejected input.
  destruct (triangulate_tracks_closed Camera self tri tracks_2d)
    as (Ht & _ & Ha & Hr & _).
  fold st in Ht, Ha, Hr.
  assert (Hacc : accepted = Z.of_nat (length (per_accepted_track_avg_errors st))).
  { unfold accepted, number_tracks. rewrite Ht, Ha.
    now rewrite kept_track_accepted_error. }
  assert (Hsum : accepted + rejected = input).
  { rewrite Hacc. unfold rejected, input. rewrite Ha, Hr.
    rewrite <- (accepted_plus_rejected self tri tracks_2d). lia. }
  assert (Hin : input <> 0).
  { unfold input. destruct tracks_2d; [congruence|simpl; lia]. }
  split; [|split; [exact Hacc|split; [exact Hsum|]]].
  - intros t _. unfold accepted_error, rejected_error.
    destruct (validate_track self (result_of tri t)); [left|right]; now split.
  - exists (inject_Z accepted / inject_Z input)%Q.
    split; [now apply truediv_nonzero|].
    split; [now apply ratios_sum_to_one|].
    intros data m Hrun.
    apply run_inr in Hrun as (tracks' & Hg' & _ & _ & ->).
    assert (tracks' = tracks_2d) by congruence. subst tracks'.
    reflexivity.
Qed.

(** C7.  The metrics record of a returning [run] has the eighteen keys of
    the dictionary literal; its histogram entries count the accepted tracks
    with exactly 2, ..., 10 measurements; its two error lists together hold
    one error per input track, the accepted list one per accepted track; its
    two ratios are the rounded quotients of the accepted and of the
    cheirality-failure counts by the input count; [points_3d] lists the
    point of every accepted track, in order; and the accepted list is the
    average error that [triangulate] returned for each validated track, the
    rejected list the one it returned for each other track, both in input
    order. *)
Theorem metrics_record_contents
    (self : DataAssociation) (cams : list (Z * Camera))
    (corr : list (Z * Z * CorrIdxs)) (kps : list Keypoints)
    (data : SfmData Camera) (m : Metrics) :
  run self cams corr kps = inr (data, m) ->
  exists tracks_2d accepted_errors rejected_errors,
    generate_tracks corr kps = inr tracks_2d
    /\ map fst m = metric_keys
    /\ Forall (fun kv => lookup (snd kv) m
                         = Some (MInt (tracks_of_length data (fst kv))))
              histogram_keys
    /\ lookup "per_accepted_track_avg_errors" m = Some (MFloatList accepted_errors)
    /\ lookup "per_rejected_track_avg_errors" m = Some (MFloatList rejected_errors)
    /\ (length accepted_errors + length rejected_errors = length tracks_2d)%nat
    /\ length accepted_errors = length (tracks data)
    /\ lookup "num_accepted_tracks" m = Some (MInt (number_tracks data))
    /\ lookup "accepted_tracks_ratio" m
       = Some (MFloat (Some (Np.round3
            (inject_Z (number_tracks data) / inject_Z (Z.of_nat (length tracks_2d))))))
    /\ lookup "track_cheirality_failure_ratio" m
       = Some (MFloat (Some (Np.round3
            (inject_Z (Z.of_nat (length (filter
                 (flag_of (tri_of triangulate self cams)) tracks_2d)))
             / inject_Z (Z.of_nat (length tracks_2d))))))
    /\ lookup "points_3d" m = Some (MPoints (map point3_list (tracks data)))
    /\ tracks data = flat_map (kept_track self (tri_of triangulate self cams)) tracks_2d
    /\ accepted_errors
       = map (fun t => snd (fst (tri_of triangulate self cams t)))
             (filter (fun t => validate_track self
                                 (fst (fst (tri_of triangulate self cams t))))
                     tracks_2d)
    /\ rejected_errors
       = map (fun t => snd (fst (tri_of triangulate self cams t)))
             (filter (fun t => negb (validate_track self
                                       (fst (fst (tri_of triangulate self cams t)))))
                     tracks_2d).
Proof.
  intros Hrun.
  apply run_inr in Hrun as (tracks_2d & Hg & _ & Hadd & ->).
  set (tri := tri_of triangulate self cams) in *.
  set (st := @triangulate_tracks Camera self tri tracks_2d) in *.
  destruct (triangulate_tracks_closed Camera self tri tracks_2d)
    as (Ht & _ & Ha & Hr & Hn).
  fold st in Ht, Ha, Hr, Hn.
  apply add_cameras_inr in Hadd as [Hdata _].
  assert (Htracks : tracks data = tracks (triangulated_data st))
    by (rewrite Hdata; reflexivity).
  assert (Hnum : number_tracks (triangulated_data st) = number_tracks data)
    by (unfold number_tracks; now rewrite Htracks).
  exists tracks_2d, (per_accepted_track_avg_errors st),
    (per_rejected_track_avg_errors st).
  split; [exact Hg|].
  split; [reflexivity|].
  split.
  { rewrite !count_eq_lengths. unfold histogram_keys.
    repeat (apply Forall_cons; [reflexivity|]). apply Forall_nil. }
  split; [reflexivity|].
  split; [reflexivity|].
  split; [rewrite Ha, Hr; apply accepted_plus_rejected|].
  split; [rewrite Ha, Htracks, Ht; symmetry; apply kept_track_accepted_error|].
  split; [simpl; now rewrite Hnum|].
  split; [simpl; now rewrite Hnum|].
  split; [simpl; now rewrite Hn|].
  split; [simpl; rewrite Hnum, collect_points_3d_all; reflexivity|].
  split; [now rewrite Htracks|].
  split.
  - rewrite Ha. apply accepted_errors_of_validated.
  - rewrite Hr. apply rejected_errors_of_others.
Qed.

End DataAssociationClaims.

Section CheiralityClaim.

Variable Camera : Type.
Variable solve :
  list (Z * Camera) -> TriangulationParam -> Q -> option Z ->
  Common.SfmTrack2d -> Point3dInit.Fit.

Lemma cheirality_failure_true (f : Point3dInit.Fit) :
  (exists d, In d (Point3dInit.depths f) /\ (d <= 0)%Q) ->
  Point3dInit.cheirality_failure f = true.
Proof.
  intros (d & Hin & Hd). unfold Point3dInit.cheirality_failure.
  apply existsb_exists. exists d. split; [exact Hin|].
  now apply Qle_bool_iff.
Qed.

(** C6.  A track whose fitted point has non-positive depth in some observing
    camera comes back from [triangulate] as none, with the flag set and the
    computed average error; the loop counts it among the cheirality
    failures, adds nothing to the output tracks or to the accepted errors for
    it, and records its average error in the rejected list, at the track's
    place. *)
Theorem cheirality_failure_counted_and_rejected
    (self : DataAssociation) (cams : list (Z * Camera))
    (l1 l2 : list Common.SfmTrack2d) (t : Common.SfmTrack2d) :
  let fit := solve cams (mode self) (reproj_error_thresh self)
                   (num_ransac_hypotheses self) t in
  (exists d, In d (Point3dInit.depths fit) /\ (d <= 0)%Q) ->
  let tri := tri_of (Point3dInit.triangulate solve) self cams in
  let before := @triangulate_tracks Camera self tri l1 in
  let rest := @triangulate_tracks Camera self tri l2 in
  let final := @triangulate_tracks Camera self tri (l1 ++ t :: l2) in
  tri t = (None, Point3dInit.avg_error fit, true)
  /\ num_tracks_w_cheirality_exceptions final
     = num_tracks_w_cheirality_exceptions before + 1
       + num_tracks_w_cheirality_exceptions rest
  /\ tracks (triangulated_data final)
     = tracks (triangulated_data before) ++ tracks (triangulated_data rest)
  /\ per_accepted_track_avg_errors final
     = per_accepted_track_avg_errors before ++ per_accepted_track_avg_errors rest
  /\ per_rejected_track_avg_errors final
     = per_rejected_track_avg_errors before
       ++ Point3dInit.avg_error fit :: per_rejected_track_avg_errors rest.
Proof.
  intros fit Hbehind tri before rest final.
  apply cheirality_failure_true in Hbehind.
  assert (Htri : tri t = (None, Point3dInit.avg_error fit, true)).
  { unfold tri, tri_of, Point3dInit.triangulate. fold fit. now rewrite Hbehind. }
  destruct (triangulate_tracks_closed Camera self tri l1) as (Ht1 & _ & Ha1 & Hr1 & Hn1).
  destruct (triangulate_tracks_closed Camera self tri l2) as (Ht2 & _ & Ha2 & Hr2 & Hn2).
  destruct (triangulate_tracks_closed Camera self tri (l1 ++ t :: l2))
    as (Ht & _ & Ha & Hr & Hn).
  fold before in Ht1, Ha1, Hr1, Hn1. fold rest in Ht2, Ha2, Hr2, Hn2.
  fold final in Ht, Ha, Hr, Hn.
  rewrite Ht, Ha, Hr, Hn, Ht1, Ha1, Hr1, Hn1, Ht2, Ha2, Hr2, Hn2.
  rewrite !flat_map_app, filter_app, length_app. simpl.
  unfold kept_track at 2, accepted_error at 2, rejected_error at 2.
  unfold flag_of at 2, result_of, error_of.
  rewrite Htri. simpl.
  repeat split. lia.
Qed.

End CheiralityClaim.

(** ** Data association on the sample scene *)

Lemma track_added_iff_validated_witness :
  let self := Samples.self_min3 in
  let tri := tri_of (Point3dInit.triangulate Samples.solve_front) self Samples.cams_012 in
  let st' := @loop_body nat self tri loop_init Samples.track_two in
  tracks (triangulated_data st') = []
  /\ per_accepted_track_avg_errors st' = []
  /\ per_rejected_track_avg_errors st' = [] ++ [error_of tri Samples.track_two].
Proof.
  destruct (track_added_iff_validated nat _ _
              TrackBuilder.generate_tracks_from_pairwise_matches
              (Point3dInit.triangulate Samples.solve_front)
              Samples.self_min3 Samples.cams_012 Samples.corr Samples.kps)
    as (_ & _ & H & _).
  exact (H loop_init Samples.track_two (Samples.as_track Samples.track_two)
           eq_refl eq_refl eq_refl).
Defined.

Lemma camera_keys_must_fill_range_witness :
  Py.raises (Samples.run_with Samples.solve_front Samples.self_min2
               Samples.cams_02 Samples.corr Samples.kps)
  /\ exists data m,
       Samples.run_with Samples.solve_front Samples.self_min2
         Samples.cams_012 Samples.corr Samples.kps = inr (data, m)
       /\ cameras data = [100; 101; 102]%nat
       /\ length (cameras data) = 3%nat.
Proof.
  split.
  - refine (proj2 (proj1 (camera_keys_must_fill_range nat _ _
              TrackBuilder.generate_tracks_from_pairwise_matches
              (Point3dInit.triangulate Samples.solve_front)
              Samples.self_min2 Samples.cams_02 Samples.corr Samples.kps _) _)).
    + repeat constructor; simpl; intuition lia.
    + intros H. specialize (proj1 (H 2) (or_intror (or_introl eq_refl))).
      simpl. lia.
  - refine (proj2 (proj2 (camera_keys_must_fill_range nat _ _
              TrackBuilder.generate_tracks_from_pairwise_matches
              (Point3dInit.triangulate Samples.solve_front)
              Samples.self_min2 Samples.cams_012 Samples.corr Samples.kps _) _)
              [Samples.track_two; Samples.track_three] eq_refl _).
    + repeat constructor; simpl; intuition lia.
    + intros i. simpl. lia.
    + discriminate.
Defined.

Lemma run_without_tracks_raises_witness :
  Samples.run_with Samples.solve_front Samples.self_min2 Samples.cams_012 [] Samples.kps
  = inl Py.ZeroDivisionError.
Proof.
  exact (run_without_tracks_raises nat _ _
           TrackBuilder.generate_tracks_from_pairwise_matches
           (Point3dInit.triangulate Samples.solve_front)
           Samples.self_min2 Samples.cams_012 [] Samples.kps eq_refl).
Defined.

Lemma accepted_and_rejected_partition_witness :
  let self := Samples.self_min3 in
  let tri := tri_of (Point3dInit.triangulate Samples.solve_front) self Samples.cams_012 in
  let st := @triangulate_tracks nat self tri [Samples.track_two; Samples.track_three] in
  number_tracks (triangulated_data st)
  + Z.of_nat (length (per_rejected_track_avg_errors st)) = 2
  /\ exists ratio,
      Py.truediv (number_tracks (triangulated_data st)) 2 = inr ratio
      /\ (ratio + inject_Z (Z.of_nat (length (per_rejected_track_avg_errors st)))
                  / inject_Z 2 == 1)%Q.
Proof.
  destruct (accepted_and_rejected_partition nat _ _
              TrackBuilder.generate_tracks_from_pairwise_matches
              (Point3dInit.triangulate Samples.solve_front)
              Samples.self_min3 Samples.cams_012 Samples.corr Samples.kps
              [Samples.track_two; Samples.track_three] eq_refl)
    as (_ & _ & Hsum & ratio & Hdiv & Hone & _).
  - discriminate.
  - split; [exact Hsum|]. exists ratio. split; [exact Hdiv|exact Hone].
Defined.

Lemma cheirality_failure_counted_and_rejected_witness :
  let self := Samples.self_min2 in
  let tri := tri_of (Point3dInit.triangulate Samples.solve_behind) self Samples.cams_012 in
  let final := @triangulate_tracks nat self tri [Samples.track_two; Samples.track_three] in
  num_tracks_w_cheirality_exceptions final = 1
  /\ tracks (triangulated_data final) = [Samples.as_track Samples.track_three]
  /\ per_rejected_track_avg_errors final = [3 # 4].
Proof.
  destruct (cheirality_failure_counted_and_rejected nat Samples.solve_behind
              Samples.self_min2 Samples.cams_012 [] [Samples.track_three]
              Samples.track_two)
    as (_ & Hn & Ht & _ & Hr).
  - exists (-1)%Q. split; [simpl; tauto|discriminate].
  - split; [exact Hn|]. split; [exact Ht|exact Hr].
Defined.

Lemma metrics_record_contents_witness :
  exists data m tracks_2d accepted_errors rejected_errors,
    Samples.run_with Samples.solve_behind Samples.self_min3
      Samples.cams_012 Samples.corr Samples.kps = inr (data, m)
    /\ TrackBuilder.generate_tracks_from_pairwise_matches Samples.corr Samples.kps
       = inr tracks_2d
    /\ map fst m = metric_keys
    /\ lookup "num_len_3_tracks" m = Some (MInt (tracks_of_length data 3))
    /\ lookup "per_accepted_track_avg_errors" m = Some (MFloatList accepted_errors)
    /\ lookup "per_rejected_track_avg_errors" m = Some (MFloatList rejected_errors)
    /\ (length accepted_errors + length rejected_errors = length tracks_2d)%nat
    /\ lookup "points_3d" m = Some (MPoints (map point3_list (tracks data)))
    /\ accepted_errors = [1 # 4]%Q
    /\ rejected_errors = [3 # 4]%Q.
Proof.
  destruct (Samples.run_with Samples.solve_behind Samples.self_min3
              Samples.cams_012 Samples.corr Samples.kps)
    as [e|[data m]] eqn:E; [discriminate|].
  destruct (metrics_record_contents nat _ _
              TrackBuilder.generate_tracks_from_pairwise_matches
              (Point3dInit.triangulate Samples.solve_behind)
              Samples.self_min3 Samples.cams_012 Samples.corr Samples.kps
              data m E)
    as (tracks_2d & acc & rej & Hg & Hk & Hh & Ha & Hr & Hlen & _ & _ & _ & _ & Hp
        & _ & Hacc & Hrej).
  assert (Hg' := Hg). vm_compute in Hg'. injection Hg' as Ht.
  rewrite <- Ht in Hacc, Hrej. vm_compute in Hacc, Hrej.
  exists data, m, tracks_2d, acc, rej.
  split; [reflexivity|]. split; [exact Hg|]. split; [exact Hk|].
  split.
  { apply (proj1 (Forall_forall _ _) Hh (3, "num_len_3_tracks"%string)).
    simpl. tauto. }
  split; [exact Ha|]. split; [exact Hr|]. split; [exact Hlen|].
  split; [exact Hp|]. split; [exact Hacc|exact Hrej].
Defined.

(** ** View-pair selection: [read_pair_file] *)

Section ReadPairFile.

Import PatchmatchEval.

Lemma set_nth_inr {A : Type} (P : A -> Prop) (row : list A) :
  forall (c : nat) (v : A),
    (c < length row)%nat -> Forall P row -> P v ->
    exists row', set_nth row c v = inr row'
                 /\ length row' = length row /\ Forall P row'.
Proof.
  induction row as [|x row IH]; intros c v Hc HP Hv; simpl in *; [lia|].
  inversion HP as [|? ? Hx Hrow]; subst.
  destruct c as [|c].
  - exists (v :: row). repeat split. now constructor.
  - destruct (IH c v) as (row' & -> & Hlen & HP'); [lia|assumption|assumption|].
    exists (x :: row'). simpl. repeat split; [now rewrite Hlen|now constructor].
Qed.

Lemma set_diag_entry_inr (n : nat) (pairs : matrix) (i : nat) :
  holds_diagonal n pairs -> (i < n)%nat ->
  exists pairs', set_diag_entry pairs i = inr pairs' /\ holds_diagonal n pairs'.
Proof.
  intros [Hlen Hrows] Hi. unfold set_diag_entry, Py.getitem.
  destruct (nth_error pairs i) as [row|] eqn:E.
  2:{ apply nth_error_None in E. lia. }
  simpl.
  assert (Hrow : (n <= length row)%nat).
  { apply nth_error_In in E. now apply (proj1 (Forall_forall _ _) Hrows). }
  destruct (set_nth_inr (fun _ => True) row i NegInf) as (row' & -> & Hlen' & _);
    [lia|now apply Forall_forall|exact I|].
  simpl.
  destruct (set_nth_inr (fun r => (n <= length r)%nat) pairs i row')
    as (pairs' & -> & Hl & HP); [lia|assumption|lia|].
  exists pairs'. split; [reflexivity|]. split; [lia|assumption].
Qed.

Lemma last_nonempty {A : Type} (l : list A) :
  forall (x d d' : A), last (x :: l) d = last (x :: l) d'.
Proof.
  induction l as [|y l IH]; intros x d d'; [reflexivity|].
  change (last (y :: l) d = last (y :: l) d'). apply IH.
Qed.

(** The first loop runs through and leaves [i] bound to the last index it
    visited. *)
Lemma diag_loop_inr (n : nat) (range : list nat) :
  forall (pairs : matrix) (i : option nat),
    holds_diagonal n pairs ->
    Forall (fun j => (j < n)%nat) range ->
    exists pairs',
      diag_loop range pairs i = inr (pairs', last (map Some range) i)
      /\ holds_diagonal n pairs'.
Proof.
  induction range as [|j range IH]; intros pairs i Hd Hr; simpl.
  - now exists pairs.
  - inversion Hr as [|? ? Hj Hrange]; subst.
    destruct (set_diag_entry_inr n pairs j Hd Hj) as (pairs1 & -> & Hd1).
    simpl.
    destruct (IH pairs1 (Some j) Hd1 Hrange) as (pairs' & -> & Hd').
    exists pairs'. split; [|assumption].
    destruct range as [|k range]; [reflexivity|].
    do 2 f_equal. simpl map. rewrite (last_nonempty _ _ i (Some j)).
    reflexivity.
Qed.

Lemma mapM_ret {A B : Type} (f : A -> B) (l : list A) :
  Py.mapM (fun x => Py.ret (f x)) l = inr (map f l).
Proof.
  induction l as [|x l IH]; simpl; [reflexivity|]. now rewrite IH.
Qed.

Lemma set_nth_length {A : Type} (row : list A) :
  forall (c : nat) (v : A) (row' : list A),
    set_nth row c v = inr row' -> length row' = length row.
Proof.
  induction row as [|x row IH]; intros c v row' H; simpl in H.
  - destruct c; discriminate.
  - destruct c as [|c].
    + injection H as <-. reflexivity.
    + destruct (set_nth row c v) as [e|r] eqn:E; [discriminate|].
      injection H as <-. simpl. f_equal. now apply (IH c v).
Qed.

(** Whenever the first loop runs through, it keeps the number of rows and
    leaves [i] bound to the last index it visited. *)
Lemma diag_loop_result (range : list nat) :
  forall (pairs pairs' : matrix) (i i' : option nat),
    diag_loop range pairs i = inr (pairs', i') ->
    i' = last (map Some range) i /\ length pairs' = length pairs.
Proof.
  induction range as [|j range IH]; intros pairs pairs' i i' H; simpl in H.
  - injection H as <- <-. now split.
  - destruct (set_diag_entry pairs j) as [e|pairs1] eqn:E; [discriminate|].
    simpl in H. apply IH in H as [-> Hlen].
    split.
    + destruct range as [|k range]; [reflexivity|].
      simpl map. now rewrite (last_nonempty _ _ i (Some j)).
    + rewrite Hlen. unfold set_diag_entry in E.
      destruct (Py.getitem pairs j) as [e|row]; [discriminate|]. simpl in E.
      destruct (set_nth row j NegInf) as [e|row']; [discriminate|]. simpl in E.
      now apply set_nth_length in E.
Qed.

(** C8.  On a matrix with at least one viewpoint, whenever [read_pair_file]
    returns, the first loop has left [i] at the last viewpoint index, and
    every returned entry pairs its reference view with row [i] of
    [pair_idx], the source views computed for the last viewpoint, not with
    the row of its own index.  It does return on every matrix whose rows
    reach the diagonal. *)
Theorem read_pair_file_repeats_last_row (pairs : matrix) (nviews : Z) :
  let n := length pairs in
  (1 <= n)%nat ->
  (forall result,
      read_pair_file pairs nviews = inr result ->
      exists pairs' last_views,
        diag_loop (seq 0 n) pairs None = inr (pairs', Some (n - 1)%nat)
        /\ last_views = rev (Py.slice (argsort_axis0_row pairs' (n - 1)) 1 nviews)
        /\ Py.getitem (pair_idx pairs' nviews) (n - 1) = inr last_views
        /\ result = map (fun view_idx => (view_idx, last_views)) (seq 0 n)
        /\ forall entry, In entry result -> snd entry = last_views)
  /\ (Forall (fun row => (n <= length row)%nat) pairs ->
      exists result, read_pair_file pairs nviews = inr result).
Proof.
  intros n Hn.
  assert (Hlast : last (map Some (seq 0 n)) None = Some (n - 1)%nat).
  { replace n with (S (n - 1)) at 1 by lia.
    rewrite seq_S, map_app. simpl. now rewrite last_last. }
  assert (Hmain : forall pairs' i,
             diag_loop (seq 0 n) pairs None = inr (pairs', i) ->
             let last_views :=
               rev (Py.slice (argsort_axis0_row pairs' (n - 1)) 1 nviews) in
             i = Some (n - 1)%nat
             /\ Py.getitem (pair_idx pairs' nviews) (n - 1) = inr last_views
             /\ read_pair_file pairs nviews
                = inr (map (fun view_idx => (view_idx, last_views)) (seq 0 n))).
  { intros pairs' i Hloop last_views.
    destruct (diag_loop_result _ _ _ _ _ Hloop) as [Hi Hlen].
    rewrite Hlast in Hi. subst i.
    assert (Hget : Py.getitem (pair_idx pairs' nviews) (n - 1) = inr last_views).
    { unfold Py.getitem, pair_idx. rewrite Hlen. fold n.
      rewrite nth_error_map, nth_error_nth' with (d := O) by (rewrite length_seq; lia).
      rewrite seq_nth by lia. reflexivity. }
    split; [reflexivity|]. split; [exact Hget|].
    unfold read_pair_file. fold n. rewrite Hloop. simpl.
    rewrite Hget. simpl. apply mapM_ret. }
  split.
  - intros result Hread.
    destruct (diag_loop (seq 0 n) pairs None) as [e|[pairs' i]] eqn:Hloop.
    { unfold read_pair_file in Hread. fold n in Hread.
      rewrite Hloop in Hread. discriminate. }
    destruct (Hmain pairs' i eq_refl) as (-> & Hget & Hread').
    rewrite Hread' in Hread. injection Hread as <-.
    eexists. eexists. split; [reflexivity|]. split; [reflexivity|].
    split; [exact Hget|]. split; [reflexivity|].
    intros entry Hin. apply in_map_iff in Hin as (v & <- & _). reflexivity.
  - intros Hrows.
    destruct (diag_loop_inr n (seq 0 n) pairs None) as (pairs' & Hloop & _).
    { split; [reflexivity|assumption]. }
    { apply Forall_forall. intros j Hj. apply in_seq in Hj. lia. }
    destruct (Hmain pairs' _ Hloop) as (_ & _ & Hread).
    eexists. exact Hread.
Qed.

End ReadPairFile.

Lemma read_pair_file_repeats_last_row_witness :
  exists pairs',
    PatchmatchEval.read_pair_file Samples.pairs3 3
    = inr [(0, [1; 0]); (1, [1; 0]); (2, [1; 0])]%nat
    /\ PatchmatchEval.diag_loop (seq 0 3) Samples.pairs3 None = inr (pairs', Some 2%nat)
    /\ PatchmatchEval.pair_idx pairs' 3 = [[2; 1]; [0; 2]; [1; 0]]%nat.
Proof.
  destruct (read_pair_file_repeats_last_row Samples.pairs3 3) as [Hsame Hret].
  - simpl. lia.
  - destruct Hret as [result Hread]; [repeat constructor|].
    destruct (Hsame result Hread) as (pairs' & last_views & Hloop & Hlast & _ & Hres & _).
    exists pairs'.
    assert (Hp : pairs' = [ [PatchmatchEval.NegInf; PatchmatchEval.Fin 5; PatchmatchEval.Fin 1];
                           [PatchmatchEval.Fin 5; PatchmatchEval.NegInf; PatchmatchEval.Fin 3];
                           [PatchmatchEval.Fin 1; PatchmatchEval.Fin 3; PatchmatchEval.NegInf] ]%Q).
    { vm_compute in Hloop. now injection Hloop as <-. }
    subst pairs'. vm_compute in Hlast. subst last_views result.
    split; [exact Hread|]. split; [exact Hloop|]. reflexivity.
Defined.

(** ** Sorting *)

Section SortFacts.

Variable A : Type.
Variable leb : A -> A -> bool.

Lemma insert_by_In (x y : A) (l : list A) :
  In y (Np.insert_by leb x l) <-> y = x \/ In y l.
Proof.
  induction l as [|z l IH]; simpl.
  - intuition congruence.
  - destruct (leb z x); simpl; rewrite ?IH; intuition congruence.
Qed.

Lemma sort_by_In (y : A) (l : list A) :
  In y (Np.sort_by leb l) <-> In y l.
Proof.
  induction l as [|x l IH]; simpl; [tauto|].
  rewrite insert_by_In, IH. intuition congruence.
Qed.



Lemma insert_by_perm (x : A) (l : list A) :
  Permutation (Np.insert_by leb x l) (x :: l).
Proof.
  induction l as [|z l IH]; simpl; [reflexivity|].
  destruct (leb z x); [|reflexivity].
  rewrite IH. apply perm_swap.
Qed.

Lemma sort_by_perm (l : list A) : Permutation (Np.sort_by leb l) l.
Proof.
  induction l as [|x l IH]; simpl; [reflexivity|].
  rewrite insert_by_perm. now apply perm_skip.
Qed.

Hypothesis leb_total : forall a b, leb a b = false -> leb b a = true.
Hypothesis leb_trans :
  forall a b c, leb a b = true -> leb b c = true -> leb a c = true.

Let R (a b : A) : Prop := leb a b = true.

Lemma insert_by_sorted (x : A) (l : list A) :
  StronglySorted R l -> StronglySorted R (Np.insert_by leb x l).
Proof.
  induction 1 as [|z l Hs IH Hz]; simpl.
  - constructor; constructor.
  - destruct (leb z x) eqn:E.
    + constructor; [exact IH|].
      apply Forall_forall. intros y Hy.
      apply insert_by_In in Hy as [->|Hy]; [exact E|].
      now apply (proj1 (Forall_forall _ _) Hz).
    + apply leb_total in E.
      constructor; [now constructor|].
      constructor; [exact E|].
      apply Forall_forall. intros y Hy.
      apply leb_trans with z; [exact E|].
      now apply (proj1 (Forall_forall _ _) Hz).
Qed.

Lemma sort_by_sorted (l : list A) : StronglySorted R (Np.sort_by leb l).
Proof.
  induction l as [|x l IH]; simpl; [constructor|].
  now apply insert_by_sorted.
Qed.

End SortFacts.

(** In a sorted list, everything in a prefix is below everything in the
    rest. *)
Lemma StronglySorted_app_inv {A : Type} (R : A -> A -> Prop) (l1 l2 : list A) :
  StronglySorted R (l1 ++ l2) ->
  StronglySorted R l1 /\ forall x y, In x l1 -> In y l2 -> R x y.
Proof.
  induction l1 as [|a l1 IH]; simpl; intros H.
  - split; [constructor|]. intros x y [].
  - apply StronglySorted_inv in H as [Hs Ha].
    destruct (IH Hs) as [Hs1 Hcross].
    apply Forall_app in Ha as [Ha1 Ha2].
    split; [now constructor|].
    intros x y [<-|Hx] Hy.
    + now apply (proj1 (Forall_forall _ _) Ha2).
    + now apply Hcross.
Qed.

Lemma StronglySorted_weaken {A : Type} (R R' : A -> A -> Prop) (l : list A) :
  (forall a b, R a b -> R' a b) ->
  StronglySorted R l -> StronglySorted R' l.
Proof.
  intros Himp. induction 1 as [|a l Hs IH Ha]; constructor; [exact IH|].
  eapply Forall_impl; [|exact Ha]. apply Himp.
Qed.

(** ** [np.argsort] *)

Lemma enumerate_from_In {A : Type} (l : list A) :
  forall (s i : nat) (v : A),
    In (i, v) (combine (seq s (length l)) l) ->
    (s <= i)%nat /\ nth_error l (i - s) = Some v.
Proof.
  induction l as [|x l IH]; simpl; intros s i v H; [contradiction|].
  destruct H as [H|H].
  - injection H as <- <-. rewrite Nat.sub_diag. split; [lia|reflexivity].
  - apply IH in H as [Hle Hnth]. split; [lia|].
    replace (i - s)%nat with (S (i - S s)) by lia. exact Hnth.
Qed.

Lemma enumerate_In {A : Type} (l : list A) (p : nat * A) :
  In p (Np.enumerate l) -> nth_error l (fst p) = Some (snd p).
Proof.
  destruct p as [i v]. intros H.
  apply enumerate_from_In in H as [_ H]. now rewrite Nat.sub_0_r in H.
Qed.

Lemma enumerate_from_fst {A : Type} (l : list A) :
  forall s, map fst (combine (seq s (length l)) l) = seq s (length l).
Proof.
  induction l as [|x l IH]; simpl; intros s; [reflexivity|].
  now rewrite IH.
Qed.

(** The result of [argsort] is a rearrangement of [0 .. n-1]. *)
Lemma argsort_by_perm {A : Type} (leb : A -> A -> bool) (l : list A) :
  Permutation (Np.argsort_by leb l) (seq 0 (length l)).
Proof.
  unfold Np.argsort_by.
  rewrite sort_by_perm, <- Permutation_rev.
  unfold Np.enumerate. now rewrite enumerate_from_fst.
Qed.

Lemma Qle_bool_total (a b : Q) : Qle_bool a b = false -> Qle_bool b a = true.
Proof.
  intros H. apply Qle_bool_iff.
  destruct (Qlt_le_dec b a) as [Hlt|Hle].
  - now apply Qlt_le_weak.
  - apply Qle_bool_iff in Hle. congruence.
Qed.

Lemma Qle_bool_trans (a b c : Q) :
  Qle_bool a b = true -> Qle_bool b c = true -> Qle_bool a c = true.
Proof.
  rewrite !Qle_bool_iff. apply Qle_trans.
Qed.

(** The entries read through the result of [argsort] ascend. *)
Lemma argsort_by_sorted (l : list Q) :
  StronglySorted (fun i j => (nth i l 0 <= nth j l 0)%Q)
                 (Np.argsort_by Qle_bool l).
Proof.
  unfold Np.argsort_by.
  set (cmp := fun a b : nat * Q => Qle_bool (snd a) (snd b)).
  assert (Hs : StronglySorted (fun a b => cmp a b = true)
                 (Np.sort_by cmp (rev (Np.enumerate l)))).
  { apply sort_by_sorted; unfold cmp.
    - intros a b. apply Qle_bool_total.
    - intros a b c. apply Qle_bool_trans. }
  assert (Hv : Forall (fun p => nth (fst p) l 0%Q = snd p)
                 (Np.sort_by cmp (rev (Np.enumerate l)))).
  { apply Forall_forall. intros p Hp.
    apply sort_by_In in Hp. apply in_rev in Hp.
    apply enumerate_In in Hp. now apply nth_error_nth. }
  induction Hs as [|p ps Hs IH Hp]; simpl; [constructor|].
  inversion Hv as [|? ? Hvp Hvps]; subst.
  constructor; [now apply IH|].
  apply Forall_forall. intros j Hj.
  apply in_map_iff in Hj as (q & <- & Hq).
  rewrite Hvp, (proj1 (Forall_forall _ _) Hvps q Hq).
  apply Qle_bool_iff. now apply (proj1 (Forall_forall _ _) Hp).
Qed.



(** ** Outlier removal: [remove_outlier_points] *)

Section EllipsoidFacts.

Import Ellipsoid.

Variable fsqrt : Q -> Q.






End EllipsoidFacts.


(** ** Keypoint filtering: [filter_by_response] *)

Section FilterByResponse.

Import DetectorDescriptor.

Lemma take_inr {A : Type} (a : list A) (idxs : list nat) :
  Forall (fun i => (i < length a)%nat) idxs ->
  exists r, Keypoints.take a idxs = inr r
            /\ Forall2 (fun i x => nth_error a i = Some x) idxs r.
Proof.
  induction 1 as [|i idxs Hi _ IH]; simpl.
  - exists []. split; [reflexivity|constructor].
  - destruct IH as (r & Hr & HF).
    unfold Keypoints.take in *. simpl. unfold Py.getitem at 1.
    destruct (nth_error a i) as [x|] eqn:E.
    2:{ apply nth_error_None in E. lia. }
    simpl. rewrite Hr. exists (x :: r). split; [reflexivity|].
    now constructor.
Qed.

Lemma take_opt_inr {A : Type} (a : option (list A)) (idxs : list nat) :
  (forall l, a = Some l -> Forall (fun i => (i < length l)%nat) idxs) ->
  exists r, Keypoints.take_opt a idxs = inr r.
Proof.
  intros H. destruct a as [l|]; simpl.
  - destruct (take_inr l idxs (H l eq_refl)) as (r & -> & _).
    simpl. now eexists.
  - now eexists.
Qed.

(** The responses read through [argsort_neg] descend. *)
Lemma argsort_neg_sorted (responses : list Q) :
  StronglySorted (fun i j => (nth j responses 0 <= nth i responses 0)%Q)
                 (argsort_neg responses).
Proof.
  unfold argsort_neg.
  eapply StronglySorted_weaken; [|apply argsort_by_sorted].
  intros i j H. cbv beta in H.
  change 0%Q with (Qopp 0) in H. rewrite !map_nth in H.
  apply Qopp_le_compat in H. now rewrite !Qopp_involutive in H.
Qed.

(** X21.  Without responses [filter_by_response] hands back its two
    arguments.  With responses and a bound [max_keypoints >= 0] it keeps
    at most [max_keypoints] keypoints; the index list is the head of
    [argsort(-responses)], so the responses of the kept keypoints descend
    and none of the dropped keypoints has a larger response than a kept one;
    coordinates and descriptors are both read through that one index
    list. *)
Theorem filter_by_response_keeps_top {D : Type}
    (self : DetectorDescriptorBase) (keypoints : Keypoints.t) (descriptors : list D) :
  (Keypoints.responses keypoints = None ->
   filter_by_response self keypoints descriptors = inr (keypoints, descriptors))
  /\ (forall responses,
        Keypoints.responses keypoints = Some responses ->
        length (Keypoints.coordinates keypoints) = length responses ->
        length descriptors = length responses ->
        (forall s, Keypoints.scales keypoints = Some s -> length s = length responses) ->
        0 <= max_keypoints self ->
        exists sort_idxs kp ds,
          filter_by_response self keypoints descriptors = inr (kp, ds)
          /\ sort_idxs = Py.slice_to (argsort_neg responses) (max_keypoints self)
          /\ Z.of_nat (length (Keypoints.coordinates kp)) <= max_keypoints self
          /\ length (Keypoints.coordinates kp)
             = Nat.min (Z.to_nat (max_keypoints self)) (length responses)
          /\ NoDup sort_idxs
          /\ Forall2 (fun i c => nth_error (Keypoints.coordinates keypoints) i = Some c)
                     sort_idxs (Keypoints.coordinates kp)
          /\ Forall2 (fun i d => nth_error descriptors i = Some d) sort_idxs ds
          /\ StronglySorted (fun i j => (nth j responses 0 <= nth i responses 0)%Q)
                            sort_idxs
          /\ (forall i j, In i sort_idxs -> (j < length responses)%nat ->
                          ~ In j sort_idxs ->
                          (nth j responses 0 <= nth i responses 0)%Q)).
Proof.
  split.
  - intros H. unfold filter_by_response. now rewrite H.
  - intros responses Hresp Hc Hd Hs Hmax.
    set (order := argsort_neg responses).
    set (k := Py.slice_bound (length order) (max_keypoints self)).
    set (sort_idxs := Py.slice_to order (max_keypoints self)).
    assert (Hperm : Permutation order (seq 0 (length responses))).
    { unfold order, argsort_neg.
      rewrite argsort_by_perm. now rewrite length_map. }
    assert (Hlen : length order = length responses).
    { rewrite (Permutation_length Hperm). apply length_seq. }
    assert (Hk : k = Nat.min (Z.to_nat (max_keypoints self)) (length responses)).
    { unfold k, Py.slice_bound. rewrite Hlen.
      destruct (max_keypoints self <? 0) eqn:E; [lia|reflexivity]. }
    assert (Hsplit : order = sort_idxs ++ skipn k order).
    { unfold sort_idxs, Py.slice_to. fold k. symmetry. apply firstn_skipn. }
    assert (Hrange : Forall (fun i => (i < length responses)%nat) sort_idxs).
    { apply Forall_forall. intros i Hi.
      assert (In i order) by (rewrite Hsplit; apply in_or_app; now left).
      apply (Permutation_in _ Hperm) in H. apply in_seq in H. lia. }
    assert (Hnd : NoDup order).
    { apply (Permutation_NoDup (Permutation_sym Hperm)). apply seq_NoDup. }
    assert (Hsorted := argsort_neg_sorted responses). fold order in Hsorted.
    rewrite Hsplit in Hsorted, Hnd.
    apply StronglySorted_app_inv in Hsorted as [Hsorted Hcross].
    destruct (take_inr (Keypoints.coordinates keypoints) sort_idxs)
      as (c & Htc & Hfc); [now rewrite Hc|].
    destruct (take_opt_inr (Keypoints.scales keypoints) sort_idxs) as (s & Hts).
    { intros l Hl. now rewrite (Hs l Hl). }
    destruct (take_opt_inr (Keypoints.responses keypoints) sort_idxs) as (r & Htr).
    { intros l Hl. rewrite Hresp in Hl. now injection Hl as <-. }
    destruct (take_inr descriptors sort_idxs) as (ds & Htd & Hfd); [now rewrite Hd|].
    exists sort_idxs, (Keypoints.mkKeypoints c s r), ds.
    split.
    { unfold filter_by_response. rewrite Hresp.
      fold order. fold sort_idxs. unfold Keypoints.extract_indices.
      rewrite Htc. simpl. rewrite Hts. simpl. rewrite Htr. simpl.
      rewrite Htd. reflexivity. }
    split; [reflexivity|].
    assert (Hlc : length c = k).
    { rewrite <- (Forall2_length Hfc). unfold sort_idxs, Py.slice_to. fold k.
      rewrite length_firstn, Hlen, Hk. lia. }
    simpl. rewrite Hlc.
    split; [lia|]. split; [exact Hk|].
    split; [now apply NoDup_app_remove_r in Hnd|].
    split; [exact Hfc|]. split; [exact Hfd|]. split; [exact Hsorted|].
    intros i j Hi Hj Hnj. apply Hcross; [exact Hi|].
    assert (Hjo : In j order).
    { apply (Permutation_in _ (Permutation_sym Hperm)). apply in_seq. lia. }
    rewrite Hsplit in Hjo. apply in_app_or in Hjo as [Hjo|Hjo]; [contradiction|exact Hjo].
Qed.

End FilterByResponse.

Lemma filter_by_response_keeps_top_witness :
  exists kp ds,
    DetectorDescriptor.filter_by_response
      (DetectorDescriptor.mkDetectorDescriptor 2) Samples.kp3 Samples.ds3 = inr (kp, ds)
    /\ Py.slice_to (DetectorDescriptor.argsort_neg [1 # 2; 9 # 10; 3 # 10]) 2 = [1; 0]%nat
    /\ Z.of_nat (length (Keypoints.coordinates kp)) <= 2
    /\ Forall2 (fun i d => nth_error Samples.ds3 i = Some d) [1; 0]%nat ds.
Proof.
  destruct (proj2 (filter_by_response_keeps_top
                     (DetectorDescriptor.mkDetectorDescriptor 2) Samples.kp3 Samples.ds3)
                  [1 # 2; 9 # 10; 3 # 10]%Q eq_refl eq_refl eq_refl)
    as (idxs & kp & ds & Hrun & Hidx & Hle & _ & _ & _ & Hds & _).
  - intros s Hs. discriminate Hs.
  - simpl. lia.
  - exists kp, ds. vm_compute in Hidx. subst idxs.
    split; [exact Hrun|]. split; [reflexivity|]. split; [exact Hle|exact Hds].
Defined.

(** ** The Track Builder *)

Section TrackBuilderFacts.

Import TrackBuilder.

Lemma node_eqb_eq (a b : Node) : node_eqb a b = true <-> a = b.
Proof.
  destruct a as [i k], b as [i' k']. unfold node_eqb. simpl.
  rewrite andb_true_iff, !Z.eqb_eq. split.
  - intros [-> ->]. reflexivity.
  - intros H. injection H as -> ->. now split.
Qed.

Lemma mem_In (a : Node) (c : list Node) : mem a c = true <-> In a c.
Proof.
  unfold mem. rewrite existsb_exists. split.
  - intros (b & Hb & Heq). apply node_eqb_eq in Heq. now subst.
  - intros H. exists a. split; [exact H|]. now apply node_eqb_eq.
Qed.

Lemma add_node_In (a b : Node) (c : list Node) :
  In b (add_node a c) <-> b = a \/ In b c.
Proof.
  unfold add_node. destruct (mem a c) eqn:E.
  - apply mem_In in E. split; [now right|]. intros [->|H]; assumption.
  - rewrite in_app_iff. simpl. intuition congruence.
Qed.

(** After a union the two endpoints of the edge share a component, and nodes
    that shared a component still do. *)
Lemma union_joins (comps : list (list Node)) (e : Node * Node) :
  exists c, In c (union comps e) /\ In (fst e) c /\ In (snd e) c.
Proof.
  unfold union. eexists. split.
  - apply in_or_app. right. now left.
  - split; apply add_node_In; [right; apply add_node_In|]; now left.
Qed.

Lemma union_keeps_together (comps : list (list Node)) (e : Node * Node) (a b : Node) :
  (exists c, In c comps /\ In a c /\ In b c) ->
  exists c, In c (union comps e) /\ In a c /\ In b c.
Proof.
  intros (c & Hc & Ha & Hb). unfold union.
  destruct (touches e c) eqn:E.
  - eexists. split; [apply in_or_app; right; now left|].
    assert (Hsub : forall x, In x c ->
               In x (concat (filter (touches e) comps))).
    { intros x Hx. apply in_concat. exists c. split; [|exact Hx].
      apply filter_In. now split. }
    split; apply add_node_In; right; apply add_node_In; right; now apply Hsub.
  - exists c. split; [|now split].
    apply in_or_app. left. apply filter_In. split; [exact Hc|]. now rewrite E.
Qed.

(** Every correspondence ends up inside one component. *)
Lemma components_join_edges (corr : list (Z * Z * list (Z * Z))) (e : Node * Node) :
  In e (edges corr) ->
  exists c, In c (components corr) /\ In (fst e) c /\ In (snd e) c.
Proof.
  unfold components. generalize (edges corr) as es.
  induction es as [|e' es IH] using rev_ind; [intros []|].
  rewrite fold_left_app. simpl. intros H.
  apply in_app_or in H as [H|[<-|[]]].
  - apply union_keeps_together. now apply IH.
  - apply union_joins.
Qed.

Lemma distinct_NoDup (l : list Z) : distinct l = true <-> NoDup l.
Proof.
  induction l as [|x l IH]; simpl.
  - split; [constructor|reflexivity].
  - rewrite andb_true_iff, negb_true_iff, IH. split.
    + intros [Hx Hl]. constructor; [|exact Hl].
      intros Hin. assert (existsb (Z.eqb x) l = true); [|congruence].
      apply existsb_exists. exists x. split; [exact Hin|apply Z.eqb_refl].
    + intros H. inversion H as [|? ? Hx Hl]; subst. split; [|exact Hl].
      destruct (existsb (Z.eqb x) l) eqn:E; [|reflexivity].
      apply existsb_exists in E as (y & Hy & Heq).
      apply Z.eqb_eq in Heq. subst y. contradiction.
Qed.

Lemma shares_image_not_valid (c : list Node) :
  shares_image c -> valid c = false.
Proof.
  intros (i & j & a & b & Hij & Ha & Hb & Hab).
  destruct (valid c) eqn:E; [|reflexivity].
  exfalso. apply distinct_NoDup in E.
  apply Hij. apply (proj1 (NoDup_nth_error (map fst c)) E).
  - rewrite length_map.
    destruct (Nat.lt_ge_cases i (length c)) as [Hlt|Hge]; [exact Hlt|].
    apply nth_error_None in Hge. congruence.
  - rewrite !nth_error_map. unfold Node in *.
    rewrite Ha, Hb. simpl. now rewrite Hab.
Qed.

Lemma mapM_inr {A B : Type} (f : A -> Py.result B) (l : list A) :
  forall r, Py.mapM f l = inr r -> Forall2 (fun x y => f x = inr y) l r.
Proof.
  induction l as [|x l IH]; simpl; intros r H.
  - injection H as <-. constructor.
  - destruct (f x) as [e|y] eqn:E; [discriminate|].
    destruct (Py.mapM f l) as [e|ys]; [discriminate|].
    injection H as <-. constructor; [exact E|now apply IH].
Qed.

Lemma measurement_of_node (kps : list Keypoints.t) (n : Node) (m : Common.SfmMeasurement) :
  measurement_of kps n = inr m -> (Common.m_image m, Common.m_keypoint m) = n.
Proof.
  unfold measurement_of, Py.bind.
  destruct (getitemZ kps (fst n)) as [e|kp]; [discriminate|].
  destruct (getitemZ (Keypoints.coordinates kp) (snd n)) as [e|uv]; [discriminate|].
  intros H. injection H as <-. simpl. now destruct n.
Qed.

Lemma track_of_nodes (kps : list Keypoints.t) (c : list Node) (t : Common.SfmTrack2d) :
  track_of kps c = inr t -> track_nodes t = c.
Proof.
  unfold track_of, Py.bind.
  destruct (Py.mapM (measurement_of kps) c) as [e|ms] eqn:E; [discriminate|].
  intros H. injection H as <-. unfold track_nodes. simpl.
  apply mapM_inr in E.
  induction E as [|n m c ms Hm _ IH]; simpl; [reflexivity|].
  rewrite IH. now rewrite (measurement_of_node kps n m Hm).
Qed.

Lemma track_images_nodes (t : Common.SfmTrack2d) :
  track_images t = map fst (track_nodes t).
Proof.
  unfold track_images, track_nodes. now rewrite map_map.
Qed.

Lemma mapM_total {A B : Type} (f : A -> Py.result B) (l : list A) :
  Forall (fun x => exists y, f x = inr y) l -> exists r, Py.mapM f l = inr r.
Proof.
  induction 1 as [|x l [y Hy] _ [r Hr]]; simpl.
  - now eexists.
  - rewrite Hy, Hr. now eexists.
Qed.

Lemma measurement_of_total (kps : list Keypoints.t) (n : Node) :
  node_in_range kps n -> exists m, measurement_of kps n = inr m.
Proof.
  intros (Hi & Hk & kp & Hkp & Hlt).
  unfold measurement_of, getitemZ, Py.getitem.
  destruct (fst n <? 0) eqn:E1; [lia|].
  rewrite Hkp. simpl.
  destruct (snd n <? 0) eqn:E2; [lia|].
  destruct (nth_error (Keypoints.coordinates kp) (Z.to_nat (snd n))) as [uv|] eqn:E3.
  - simpl. now eexists.
  - apply nth_error_None in E3. lia.
Qed.

(** A union invents no node: what it holds was in a component before or is
    an endpoint of the edge. *)
Lemma union_nodes (comps : list (list Node)) (e : Node * Node) (c : list Node) (n : Node) :
  In c (union comps e) -> In n c ->
  n = fst e \/ n = snd e \/ exists c', In c' comps /\ In n c'.
Proof.
  unfold union. intros Hc Hn.
  apply in_app_or in Hc as [Hc|[<-|[]]].
  - apply filter_In in Hc as [Hc _]. right. right. now exists c.
  - apply add_node_In in Hn as [->|Hn]; [now right; left|].
    apply add_node_In in Hn as [->|Hn]; [now left|].
    apply in_concat in Hn as (c' & Hc' & Hn).
    apply filter_In in Hc' as [Hc' _]. right. right. now exists c'.
Qed.

Lemma components_nodes (corr : list (Z * Z * list (Z * Z))) (c : list Node) (n : Node) :
  In c (components corr) -> In n c ->
  exists e, In e (edges corr) /\ (n = fst e \/ n = snd e).
Proof.
  unfold components. generalize (edges corr) as es. intros es. revert c n.
  induction es as [|e es IH] using rev_ind; intros c n Hc Hn; [destruct Hc|].
  rewrite fold_left_app in Hc. simpl in Hc.
  destruct (union_nodes _ _ _ _ Hc Hn) as [H|[H|(c' & Hc' & Hn')]].
  - exists e. split; [apply in_or_app; right; now left|now left].
  - exists e. split; [apply in_or_app; right; now left|now right].
  - destruct (IH c' n Hc' Hn') as (e' & He' & H).
    exists e'. split; [apply in_or_app; now left|exact H].
Qed.

(** C2.  The tracks that the Track Builder returns are, in order, the
    components that pass the validity check; each of them has pairwise
    distinct image indices, and a component in which two nodes share an
    image index is not among them.  The builder does return whenever every
    correspondence names keypoints that exist. *)
Theorem track_builder_drops_shared_image
    (corr_idxs_dict : list (Z * Z * list (Z * Z)))
    (keypoints_list : list Keypoints.t) :
  (forall tracks_2d,
      generate_tracks_from_pairwise_matches corr_idxs_dict keypoints_list
      = inr tracks_2d ->
      map track_nodes tracks_2d = filter valid (components corr_idxs_dict)
      /\ Forall (fun t => NoDup (track_images t)) tracks_2d
      /\ (forall c, In c (components corr_idxs_dict) -> shares_image c ->
                    ~ In c (map track_nodes tracks_2d)))
  /\ ((forall e, In e (edges corr_idxs_dict) ->
                 node_in_range keypoints_list (fst e)
                 /\ node_in_range keypoints_list (snd e)) ->
      exists tracks_2d,
        generate_tracks_from_pairwise_matches corr_idxs_dict keypoints_list
        = inr tracks_2d).
Proof.
  split.
  - intros tracks_2d H. unfold generate_tracks_from_pairwise_matches in H.
    apply mapM_inr in H.
    assert (Hnodes : map track_nodes tracks_2d
                     = filter valid (components corr_idxs_dict)).
    { induction H as [|c t cs ts Ht _ IH]; simpl; [reflexivity|].
      rewrite IH. now rewrite (track_of_nodes keypoints_list c t Ht). }
    split; [exact Hnodes|]. split.
    + apply Forall_forall. intros t Ht.
      rewrite track_images_nodes. apply distinct_NoDup.
      assert (Hin : In (track_nodes t) (filter valid (components corr_idxs_dict))).
      { rewrite <- Hnodes. now apply in_map. }
      apply filter_In in Hin as [_ Hv]. exact Hv.
    + intros c _ Hshare Hin. rewrite Hnodes in Hin.
      apply filter_In in Hin as [_ Hv].
      apply shares_image_not_valid in Hshare. congruence.
  - intros Hrange. unfold generate_tracks_from_pairwise_matches.
    apply mapM_total. apply Forall_forall. intros c Hc.
    apply filter_In in Hc as [Hc _].
    unfold track_of.
    destruct (mapM_total (measurement_of keypoints_list) c) as [ms Hms].
    { apply Forall_forall. intros n Hn. apply measurement_of_total.
      destruct (components_nodes _ _ _ Hc Hn) as (e & He & [->| ->]);
        now apply Hrange. }
    rewrite Hms. simpl. now eexists.
Qed.

End TrackBuilderFacts.

Lemma track_builder_drops_shared_image_witness :
  TrackBuilder.components Samples.corr_conflict = [[(0, 0); (1, 0); (1, 1); (2, 0)]]
  /\ TrackBuilder.generate_tracks_from_pairwise_matches Samples.corr_conflict Samples.kps
     = inr []
  /\ Forall (fun t => NoDup (TrackBuilder.track_images t))
            [Samples.track_two; Samples.track_three].
Proof.
  split; [reflexivity|]. split; [reflexivity|].
  exact (proj1 (proj2 (proj1 (track_builder_drops_shared_image Samples.corr Samples.kps)
                         [Samples.track_two; Samples.track_three] eq_refl))).
Defined.

(* ================================================================== *)
(** * Part III: further properties of the code *)
(* ================================================================== *)

(** ** [np.round] keeps a ratio a ratio *)

Lemma round_half_even_bounds (x : Q) (lo hi : Z) :
  (inject_Z lo <= x)%Q -> (x <= inject_Z hi)%Q ->
  lo <= Np.round_half_even x <= hi.
Proof.
  intros Hlo Hhi. unfold Np.round_half_even.
  pose proof (Qfloor_le x) as Hf.
  pose proof (Qlt_floor x) as Hc.
  assert (Hflo : lo <= Qfloor x).
  { apply Qfloor_resp_le in Hlo. now rewrite Qfloor_Z in Hlo. }
  assert (Hfhi : Qfloor x <= hi).
  { apply Qfloor_resp_le in Hhi. now rewrite Qfloor_Z in Hhi. }
  destruct (Np.Qltb (x - inject_Z (Qfloor x)) (1 # 2)) eqn:E1; [lia|].
  assert (Hne : Qfloor x <> hi).
  { intros Heq. unfold Np.Qltb in E1. apply negb_false_iff in E1.
    apply Qle_bool_iff in E1.
    assert (Hx : (x - inject_Z (Qfloor x) <= 0)%Q).
    { rewrite Heq. lra. }
    lra. }
  destruct (Np.Qltb (1 # 2) (x - inject_Z (Qfloor x))); [lia|].
  destruct (Z.even (Qfloor x)); lia.
Qed.

Lemma round3_unit_interval (x : Q) :
  (0 <= x)%Q -> (x <= 1)%Q -> (0 <= Np.round3 x)%Q /\ (Np.round3 x <= 1)%Q.
Proof.
  intros H0 H1. unfold Np.round3.
  destruct (round_half_even_bounds (x * 1000) 0 1000) as [Hlo Hhi].
  - change (inject_Z 0) with 0%Q. lra.
  - change (inject_Z 1000) with 1000%Q. lra.
  - set (r := Np.round_half_even (x * 1000)) in *.
    assert (Hr0 : (0 <= inject_Z r)%Q) by (change 0%Q with (inject_Z 0); now rewrite <- Zle_Qle).
    assert (Hr1 : (inject_Z r <= 1000)%Q)
      by (change 1000%Q with (inject_Z 1000); now rewrite <- Zle_Qle).
    split.
    + apply Qle_shift_div_l; lra.
    + apply Qle_shift_div_r; lra.
Qed.

Lemma ratio_unit_interval (a n : Z) :
  0 <= a <= n -> 0 < n ->
  (0 <= inject_Z a / inject_Z n)%Q /\ (inject_Z a / inject_Z n <= 1)%Q.
Proof.
  intros Ha Hn.
  assert (Hq : (0 < inject_Z n)%Q)
    by (change 0%Q with (inject_Z 0); now rewrite <- Zlt_Qlt).
  assert (Ha0 : (0 <= inject_Z a)%Q)
    by (change 0%Q with (inject_Z 0); rewrite <- Zle_Qle; lia).
  assert (Han : (inject_Z a <= inject_Z n)%Q) by (rewrite <- Zle_Qle; lia).
  split.
  - apply Qle_shift_div_l; [exact Hq|lra].
  - apply Qle_shift_div_r; [exact Hq|lra].
Qed.

(** ** Data association: what a returned scene and its metrics satisfy *)

Import SceneView.

Lemma kept_track_long_enough (self : DataAssociation)
    (tri : Common.SfmTrack2d -> Triangulated) (l : list Common.SfmTrack2d) :
  Forall (fun s => min_track_len self <= number_measurements s)
         (flat_map (kept_track self tri) l).
Proof.
  apply Forall_forall. intros s Hs.
  apply in_flat_map in Hs as (t & _ & Hs).
  unfold kept_track in Hs.
  destruct (result_of tri t) as [s'|]; [|destruct Hs].
  destruct (min_track_len self <=? number_measurements s') eqn:E; [|destruct Hs].
  destruct Hs as [<-|[]]. now apply Z.leb_le.
Qed.

Lemma kept_track_count (self : DataAssociation)
    (tri : Common.SfmTrack2d -> Triangulated) (l : list Common.SfmTrack2d) :
  (length (flat_map (kept_track self tri) l) <= length l)%nat.
Proof.
  rewrite kept_track_accepted_error.
  pose proof (accepted_plus_rejected self tri l). lia.
Qed.

(** Every track is counted by one histogram entry or by none, never by
    two. *)
Lemma histogram_buckets {Camera : Type} (data : SfmData Camera) :
  fold_right Z.add 0 (map (fun kv => tracks_of_length data (fst kv)) histogram_keys)
  + Z.of_nat (length (filter outside_histogram (tracks data)))
  = number_tracks data.
Proof.
  unfold tracks_of_length, number_tracks, histogram_keys. simpl map.
  induction (tracks data) as [|t ts IH]; [reflexivity|].
  cbn [filter length fold_right].
  unfold outside_histogram at 1.
  cbn [fold_right] in IH.
  destruct (Z.eqb_spec (number_measurements t) 2);
  destruct (Z.eqb_spec (number_measurements t) 3);
  destruct (Z.eqb_spec (number_measurements t) 4);
  destruct (Z.eqb_spec (number_measurements t) 5);
  destruct (Z.eqb_spec (number_measurements t) 6);
  destruct (Z.eqb_spec (number_measurements t) 7);
  destruct (Z.eqb_spec (number_measurements t) 8);
  destruct (Z.eqb_spec (number_measurements t) 9);
  destruct (Z.eqb_spec (number_measurements t) 10);
  try lia;
  destruct (Z.ltb_spec (number_measurements t) 2);
  destruct (Z.ltb_spec 10 (number_measurements t));
  cbn [orb length]; lia.
Qed.

Section RunExtras.

Variable Camera : Type.
Variable CorrIdxs : Type.
Variable Keypoints : Type.
Variable generate_tracks :
  list (Z * Z * CorrIdxs) -> list Keypoints -> Py.result (list Common.SfmTrack2d).
Variable triangulate :
  list (Z * Camera) -> TriangulationParam -> Q -> option Z ->
  Common.SfmTrack2d -> Triangulated.

Let run := @DataAssoc.run Camera CorrIdxs Keypoints generate_tracks triangulate.

(** The scene and the integer entries of a returned record. *)
Lemma run_inr_scene
    (self : DataAssociation) (cams : list (Z * Camera))
    (corr : list (Z * Z * CorrIdxs)) (kps : list Keypoints)
    (data : SfmData Camera) (m : Metrics) :
  run self cams corr kps = inr (data, m) ->
  (exists tracks_2d,
      tracks data = flat_map (kept_track self (tri_of triangulate self cams)) tracks_2d)
  /\ lookup "num_accepted_tracks" m = Some (MInt (number_tracks data))
  /\ Forall (fun kv => lookup (snd kv) m
                       = Some (MInt (tracks_of_length data (fst kv))))
            histogram_keys.
Proof.
  intros Hrun.
  apply run_inr in Hrun as (tracks_2d & _ & _ & Hadd & ->).
  set (tri := tri_of triangulate self cams) in *.
  destruct (triangulate_tracks_closed Camera self tri tracks_2d) as (Ht & _).
  apply add_cameras_inr in Hadd as [Hdata _].
  assert (Htracks : tracks data
                    = tracks (triangulated_data
                                (@triangulate_tracks Camera self tri tracks_2d)))
    by (rewrite Hdata; reflexivity).
  split; [exists tracks_2d; now rewrite Htracks|].
  split.
  { simpl. unfold number_tracks. now rewrite Htracks. }
  rewrite !count_eq_lengths. unfold histogram_keys.
  repeat (apply Forall_cons; [reflexivity|]). apply Forall_nil.
Qed.

(** X1.  Every track of a returned scene has at least [min_track_len]
    measurements, so every histogram entry for a length below
    [min_track_len] is zero. *)
Theorem returned_tracks_meet_min_length
    (self : DataAssociation) (cams : list (Z * Camera))
    (corr : list (Z * Z * CorrIdxs)) (kps : list Keypoints)
    (data : SfmData Camera) (m : Metrics) :
  run self cams corr kps = inr (data, m) ->
  Forall (fun s => min_track_len self <= number_measurements s) (tracks data)
  /\ Forall (fun kv => fst kv < min_track_len self -> int_at (snd kv) m = Some 0)
            histogram_keys.
Proof.
  intros Hrun.
  destruct (run_inr_scene self cams corr kps data m Hrun)
    as ((tracks_2d & Ht) & _ & Hh).
  assert (Hlong : Forall (fun s => min_track_len self <= number_measurements s)
                         (tracks data)).
  { rewrite Ht. apply kept_track_long_enough. }
  split; [exact Hlong|].
  eapply Forall_impl; [|exact Hh].
  intros [k key] Hk Hlt. simpl in *. unfold int_at. rewrite Hk.
  f_equal. unfold tracks_of_length.
  replace (filter (fun t => number_measurements t =? k) (tracks data)) with (@nil SfmTrack);
    [reflexivity|].
  symmetry. clear - Hlong Hlt.
  induction Hlong as [|s ts Hs _ IH]; [reflexivity|].
  simpl. destruct (Z.eqb_spec (number_measurements s) k); [lia|exact IH].
Qed.

(** X2.  The two ratios of a returned metrics record lie between 0 and 1,
    rounding included. *)
Theorem returned_ratios_in_unit_interval
    (self : DataAssociation) (cams : list (Z * Camera))
    (corr : list (Z * Z * CorrIdxs)) (kps : list Keypoints)
    (data : SfmData Camera) (m : Metrics) :
  run self cams corr kps = inr (data, m) ->
  exists accepted_tracks_ratio track_cheirality_failure_ratio,
    float_at "accepted_tracks_ratio" m = Some accepted_tracks_ratio
    /\ float_at "track_cheirality_failure_ratio" m = Some track_cheirality_failure_ratio
    /\ (0 <= accepted_tracks_ratio)%Q /\ (accepted_tracks_ratio <= 1)%Q
    /\ (0 <= track_cheirality_failure_ratio)%Q
    /\ (track_cheirality_failure_ratio <= 1)%Q.
Proof.
  intros Hrun.
  apply run_inr in Hrun as (tracks_2d & _ & Hne & _ & ->).
  set (tri := tri_of triangulate self cams).
  destruct (triangulate_tracks_closed Camera self tri tracks_2d)
    as (Ht & _ & _ & _ & Hn).
  assert (Hlen : 0 < Z.of_nat (length tracks_2d))
    by (destruct tracks_2d; [congruence|simpl; lia]).
  destruct (ratio_unit_interval
              (number_tracks (triangulated_data
                                (@triangulate_tracks Camera self tri tracks_2d)))
              (Z.of_nat (length tracks_2d))) as [Ha0 Ha1]; [|exact Hlen|].
  { unfold number_tracks. rewrite Ht.
    pose proof (kept_track_count self tri tracks_2d). lia. }
  destruct (ratio_unit_interval
              (num_tracks_w_cheirality_exceptions
                 (@triangulate_tracks Camera self tri tracks_2d))
              (Z.of_nat (length tracks_2d))) as [Hc0 Hc1]; [|exact Hlen|].
  { rewrite Hn. pose proof (filter_length_le (flag_of tri) tracks_2d). lia. }
  destruct (round3_unit_interval _ Ha0 Ha1) as [Hra0 Hra1].
  destruct (round3_unit_interval _ Hc0 Hc1) as [Hrc0 Hrc1].
  eexists. eexists.
  split; [reflexivity|]. split; [reflexivity|].
  repeat split; assumption.
Qed.

(** X3.  The nine histogram entries of a returned record add up to the
    number of accepted tracks with 2 to 10 measurements; together with the
    accepted tracks outside that range they make [num_accepted_tracks]. *)
Theorem histogram_adds_up
    (self : DataAssociation) (cams : list (Z * Camera))
    (corr : list (Z * Z * CorrIdxs)) (kps : list Keypoints)
    (data : SfmData Camera) (m : Metrics) :
  run self cams corr kps = inr (data, m) ->
  exists counts,
    map (fun kv => int_at (snd kv) m) histogram_keys = map Some counts
    /\ int_at "num_accepted_tracks" m = Some (number_tracks data)
    /\ fold_right Z.add 0 counts
       + Z.of_nat (length (filter outside_histogram (tracks data)))
       = number_tracks data.
Proof.
  intros Hrun.
  destruct (run_inr_scene self cams corr kps data m Hrun) as (_ & Hnum & Hh).
  exists (map (fun kv => tracks_of_length data (fst kv)) histogram_keys).
  split.
  { rewrite map_map. apply map_ext_in. intros kv Hkv.
    unfold int_at. now rewrite (proj1 (Forall_forall _ _) Hh kv Hkv). }
  split; [unfold int_at; now rewrite Hnum|].
  apply histogram_buckets.
Qed.

(** X4.  When the camera dictionary was filled in the order of its keys,
    the camera array of a returned scene holds at position [i] the camera
    stored under key [i]. *)
Theorem camera_position_is_key
    (self : DataAssociation) (cams : list (Z * Camera))
    (corr : list (Z * Z * CorrIdxs)) (kps : list Keypoints)
    (data : SfmData Camera) (m : Metrics) :
  run self cams corr kps = inr (data, m) ->
  ascending_keys cams ->
  forall i : nat, nth_error (cameras data) i = camera_of cams (Z.of_nat i).
Proof.
  intros Hrun Hasc.
  apply run_inr in Hrun as (tracks_2d & _ & _ & Hadd & _).
  apply add_cameras_inr in Hadd as [-> _]. simpl.
  destruct (triangulate_tracks_closed Camera self (tri_of triangulate self cams) tracks_2d)
    as (_ & -> & _). simpl.
  unfold ascending_keys in Hasc. clear - Hasc.
  assert (Hgen : forall (l : list (Z * Camera)) (s i : nat),
             map fst l = map Z.of_nat (seq s (length l)) ->
             nth_error (map snd l) i = camera_of l (Z.of_nat (s + i))).
  { induction l as [|[k cam] l IH]; intros s i Hl; simpl in *.
    - now destruct i.
    - injection Hl as -> Hl.
      destruct i as [|i]; simpl.
      + rewrite Nat.add_0_r, Z.eqb_refl. reflexivity.
      + destruct (Z.eqb_spec (Z.of_nat s) (Z.of_nat (s + S i))); [lia|].
        rewrite (IH (S s) i Hl). f_equal. lia. }
  intros i. apply (Hgen cams O i Hasc).
Qed.

End RunExtras.

(** ** Outlier removal and centering *)




Section EllipsoidExtras.

Import Ellipsoid EllipsoidCenter.

Variable fsqrt : Q -> Q.















End EllipsoidExtras.

(** ** Keypoint filtering: [filter_by_mask] *)

Section FilterByMask.

Import DetectorMask.

Lemma getitem_wrap_inr {A : Type} (xs : list A) (i : Z) :
  - Z.of_nat (length xs) <= i < Z.of_nat (length xs) ->
  exists x, getitem_wrap xs i = inr x.
Proof.
  intros Hi. unfold getitem_wrap, Py.getitem.
  destruct ((0 <=? i) && (i <? Z.of_nat (length xs))) eqn:E1.
  - apply andb_true_iff in E1 as [H1 H2].
    destruct (nth_error xs (Z.to_nat i)) as [x|] eqn:E; [now eexists|].
    apply nth_error_None in E. lia.
  - destruct ((- Z.of_nat (length xs) <=? i) && (i <? 0)) eqn:E2.
    + destruct (nth_error xs (Z.to_nat (Z.of_nat (length xs) + i))) as [x|] eqn:E;
        [now eexists|].
      apply nth_error_None in E. lia.
    + apply andb_false_iff in E1. apply andb_false_iff in E2.
      destruct E1, E2; lia.
Qed.

Lemma getitem_wrap_raises {A : Type} (xs : list A) (i : Z) :
  ~ (- Z.of_nat (length xs) <= i < Z.of_nat (length xs)) ->
  getitem_wrap xs i = inl Py.IndexError.
Proof.
  intros Hi. unfold getitem_wrap.
  destruct ((0 <=? i) && (i <? Z.of_nat (length xs))) eqn:E1.
  - apply andb_true_iff in E1 as [H1 H2]. lia.
  - destruct ((- Z.of_nat (length xs) <=? i) && (i <? 0)) eqn:E2; [|reflexivity].
    apply andb_true_iff in E2 as [H1 H2]. lia.
Qed.

Lemma getitem_wrap_In {A : Type} (xs : list A) (i : Z) (x : A) :
  getitem_wrap xs i = inr x -> In x xs.
Proof.
  unfold getitem_wrap, Py.getitem. intros H.
  destruct ((0 <=? i) && (i <? Z.of_nat (length xs))).
  - destruct (nth_error xs (Z.to_nat i)) eqn:E; [|discriminate].
    injection H as <-. eapply nth_error_In. exact E.
  - destruct ((- Z.of_nat (length xs) <=? i) && (i <? 0)); [|discriminate].
    destruct (nth_error xs (Z.to_nat (Z.of_nat (length xs) + i))) eqn:E; [|discriminate].
    injection H as <-. eapply nth_error_In. exact E.
Qed.

Lemma getitem_wrap_error {A : Type} (xs : list A) (i : Z) (e : Py.exn) :
  getitem_wrap xs i = inl e -> e = Py.IndexError.
Proof.
  unfold getitem_wrap, Py.getitem, Py.raise. intros H.
  destruct ((0 <=? i) && (i <? Z.of_nat (length xs))).
  - destruct (nth_error xs (Z.to_nat i)); [discriminate|congruence].
  - destruct ((- Z.of_nat (length xs) <=? i) && (i <? 0)); [|congruence].
    destruct (nth_error xs (Z.to_nat (Z.of_nat (length xs) + i)));
      [discriminate|congruence].
Qed.

Lemma mask_at_inr (mask : list (list Z)) (H W : nat) (r c : Z) :
  rectangular mask H W ->
  - Z.of_nat H <= r < Z.of_nat H -> - Z.of_nat W <= c < Z.of_nat W ->
  exists v, mask_at mask r c = inr v.
Proof.
  intros [HH HW] Hr Hc. unfold mask_at.
  destruct (getitem_wrap_inr mask r) as [row Hrow]; [now rewrite HH|].
  rewrite Hrow. simpl.
  apply getitem_wrap_inr. apply getitem_wrap_In in Hrow.
  now rewrite (proj1 (Forall_forall _ _) HW row Hrow).
Qed.

Lemma mask_at_raises (mask : list (list Z)) (H W : nat) (r c : Z) :
  rectangular mask H W ->
  ~ (- Z.of_nat H <= r < Z.of_nat H /\ - Z.of_nat W <= c < Z.of_nat W) ->
  mask_at mask r c = inl Py.IndexError.
Proof.
  intros [HH HW] Hout. unfold mask_at.
  destruct (getitem_wrap mask r) as [e|row] eqn:Hrow.
  - apply getitem_wrap_error in Hrow. now subst.
  - simpl. apply getitem_wrap_raises.
    pose proof (getitem_wrap_In _ _ _ Hrow) as Hin.
    rewrite (proj1 (Forall_forall _ _) HW row Hin).
    intros Hc. apply Hout. split; [|exact Hc].
    destruct (Z_lt_le_dec r (Z.of_nat H)) as [Hlt|Hge];
      [destruct (Z_le_gt_dec (- Z.of_nat H) r) as [Hle|Hgt]; [lia|]|].
    + rewrite getitem_wrap_raises in Hrow; [discriminate|rewrite HH; lia].
    + rewrite getitem_wrap_raises in Hrow; [discriminate|rewrite HH; lia].
Qed.

Lemma mapM_raises {A B : Type} (f : A -> Py.result B) (e : Py.exn) (l : list A) :
  (forall x e', f x = inl e' -> e' = e) ->
  (exists x, In x l /\ f x = inl e) ->
  Py.mapM f l = inl e.
Proof.
  intros Honly. induction l as [|x l IH]; intros (y & Hy & Hfy); [destruct Hy|].
  simpl. destruct (f x) as [e'|b] eqn:E.
  - now rewrite (Honly x e' E).
  - destruct Hy as [->|Hy]; [congruence|].
    rewrite IH; [reflexivity|now exists y].
Qed.

(** [flatnonzero] lists, in ascending order, the positions that hold
    [true]. *)
Lemma flatnonzero_from (a : list bool) :
  forall s,
    let idxs := map fst (filter snd (combine (seq s (length a)) a)) in
    (forall i, In i idxs <-> (s <= i)%nat /\ nth_error a (i - s) = Some true)
    /\ StronglySorted lt idxs.
Proof.
  induction a as [|b a IH]; intros s; simpl.
  - split; [|constructor]. intros i. split; [intros []|].
    intros [_ H]. destruct (i - s)%nat; discriminate.
  - destruct (IH (S s)) as [Hin Hsorted].
    assert (Hshift : forall i, (S s <= i)%nat ->
               nth_error (b :: a) (i - s) = nth_error a (i - S s)).
    { intros i Hi. replace (i - s)%nat with (S (i - S s)) by lia. reflexivity. }
    destruct b; simpl.
    + split.
      * intros i. split.
        -- intros [<-|Hi]; [rewrite Nat.sub_diag; split; [lia|reflexivity]|].
           apply Hin in Hi as [Hle Hnth]. split; [lia|]. now rewrite Hshift.
        -- intros [Hle Hnth].
           destruct (Nat.eq_dec s i) as [->|Hne]; [now left|right].
           apply Hin. split; [lia|]. rewrite <- Hshift by lia. exact Hnth.
      * constructor; [exact Hsorted|].
        apply Forall_forall. intros i Hi. apply Hin in Hi. lia.
    + split; [|exact Hsorted].
      intros i. rewrite Hin. split.
      * intros [Hle Hnth]. split; [lia|]. now rewrite Hshift.
      * intros [Hle Hnth].
        destruct (Nat.eq_dec s i) as [->|Hne].
        -- rewrite Nat.sub_diag in Hnth. discriminate.
        -- split; [lia|]. rewrite <- Hshift by lia. exact Hnth.
Qed.

Lemma flatnonzero_spec (a : list bool) :
  (forall i, In i (flatnonzero a) <-> nth_error a i = Some true)
  /\ StronglySorted lt (flatnonzero a).
Proof.
  destruct (flatnonzero_from a O) as [Hin Hs]. split; [|exact Hs].
  intros i. unfold flatnonzero, Np.enumerate. rewrite Hin, Nat.sub_0_r.
  split; [now intros [_ H]|intros H; split; [lia|exact H]].
Qed.

Lemma flatnonzero_all (a : list bool) :
  Forall (fun b => b = true) a -> flatnonzero a = seq 0 (length a).
Proof.
  unfold flatnonzero, Np.enumerate. generalize O.
  induction a as [|b a IH]; intros s Hall; [reflexivity|].
  inversion Hall as [|? ? Hb Ha]; subst. simpl. now rewrite IH.
Qed.

Lemma take_all {A : Type} (a : list A) :
  Keypoints.take a (seq 0 (length a)) = inr a.
Proof.
  destruct (take_inr a (seq 0 (length a))) as (r & Hr & HF).
  { apply Forall_forall. intros i Hi. apply in_seq in Hi. lia. }
  rewrite Hr. f_equal.
  assert (Hgen : forall (l r : list A) (s : nat),
             Forall2 (fun i x => nth_error a i = Some x) (seq s (length l)) r ->
             (forall i, (i < length l)%nat -> nth_error a (s + i) = nth_error l i) ->
             r = l).
  { induction l as [|x l IH]; intros r' s HF' Hl; simpl in HF'.
    - now inversion HF'.
    - inversion HF' as [|? y ? r'' Hy Hrest]; subst.
      f_equal.
      + specialize (Hl O). simpl in Hl. rewrite Nat.add_0_r in Hl.
        rewrite Hl in Hy by lia. now injection Hy.
      + apply (IH r'' (S s) Hrest). intros i Hi.
        specialize (Hl (S i)). simpl in Hl.
        rewrite <- Hl by lia. f_equal. lia. }
  apply (Hgen a r O HF). intros i _. reflexivity.
Qed.

End FilterByMask.

Lemma Forall2_nth_error {A B : Type} (R : A -> B -> Prop) (l1 : list A) (l2 : list B) :
  Forall2 R l1 l2 ->
  forall i a b, nth_error l1 i = Some a -> nth_error l2 i = Some b -> R a b.
Proof.
  induction 1 as [|x y l1 l2 Hxy _ IH]; intros [|i] a b Ha Hb; simpl in *;
    try discriminate.
  - injection Ha as <-. injection Hb as <-. exact Hxy.
  - now apply (IH i).
Qed.

Section FilterByMaskClaims.

Import DetectorMask.

Variable D : Type.

(** What [filter_by_mask] computes when every lookup in the mask goes
    through. *)
Lemma filter_by_mask_inr (mask : list (list Z)) (H W : nat)
    (keypoints : Keypoints.t) (descriptors : list D) :
  rectangular mask H W ->
  within_mask H W (Keypoints.coordinates keypoints) ->
  consistent keypoints descriptors ->
  exists values kp ds,
    let valid_idxs := flatnonzero (map (fun v => v =? 1) values) in
    Forall2 (fun xy v => mask_at mask (snd xy) (fst xy) = inr v)
            (rounded_coordinates (Keypoints.coordinates keypoints)) values
    /\ filter_by_mask mask keypoints descriptors = inr (kp, ds)
    /\ Keypoints.take (Keypoints.coordinates keypoints) valid_idxs
       = inr (Keypoints.coordinates kp)
    /\ Keypoints.take descriptors valid_idxs = inr ds.
Proof.
  intros Hrect Hin (Hd & Hs & Hr).
  destruct (mapM_total (fun xy => mask_at mask (snd xy) (fst xy))
              (rounded_coordinates (Keypoints.coordinates keypoints)))
    as [values Hvalues].
  { eapply Forall_impl; [|exact Hin]. intros [x y] [Hx Hy]. simpl in *.
    now apply (mask_at_inr mask H W). }
  pose proof (mapM_inr _ _ _ Hvalues) as HF.
  set (valid_idxs := flatnonzero (map (fun v => v =? 1) values)).
  assert (Hlen : length values = length (Keypoints.coordinates keypoints)).
  { rewrite <- (Forall2_length HF). unfold rounded_coordinates. apply length_map. }
  assert (Hrange : Forall (fun i => (i < length (Keypoints.coordinates keypoints))%nat)
                          valid_idxs).
  { apply Forall_forall. intros i Hi.
    apply (proj1 (flatnonzero_spec _)) in Hi.
    rewrite <- Hlen, <- (length_map (fun v => v =? 1)).
    apply nth_error_Some. congruence. }
  destruct (take_inr (Keypoints.coordinates keypoints) valid_idxs Hrange)
    as (c & Htc & _).
  destruct (take_opt_inr (Keypoints.scales keypoints) valid_idxs) as (s & Hts).
  { intros l Hl. now rewrite (Hs l Hl). }
  destruct (take_opt_inr (Keypoints.responses keypoints) valid_idxs) as (r & Htr).
  { intros l Hl. now rewrite (Hr l Hl). }
  destruct (take_inr descriptors valid_idxs) as (ds & Htd & _); [now rewrite Hd|].
  exists values, (Keypoints.mkKeypoints c s r), ds.
  split; [exact HF|]. split; [|split; [exact Htc|exact Htd]].
  unfold filter_by_mask. rewrite Hvalues. simpl Py.bind. fold valid_idxs.
  unfold Keypoints.extract_indices.
  rewrite Htc. simpl. rewrite Hts. simpl. rewrite Htr. simpl.
  rewrite Htd. reflexivity.
Qed.

(** X9.  When every keypoint rounds to a pixel that indexes the (H, W) mask,
    [filter_by_mask] returns; it keeps exactly the keypoints whose mask
    entry, at row [round(y)] and column [round(x)] with negative indices
    counted from the end, is 1; it keeps them in their original order, and
    reads the descriptors through the same index list. *)
Theorem filter_by_mask_keeps_masked (mask : list (list Z)) (H W : nat)
    (keypoints : Keypoints.t) (descriptors : list D) :
  rectangular mask H W ->
  within_mask H W (Keypoints.coordinates keypoints) ->
  consistent keypoints descriptors ->
  exists valid_idxs kp ds,
    filter_by_mask mask keypoints descriptors = inr (kp, ds)
    /\ StronglySorted lt valid_idxs
    /\ (forall i, In i valid_idxs <->
          exists uv, nth_error (Keypoints.coordinates keypoints) i = Some uv
                     /\ mask_at mask (Np.round_half_even (snd uv))
                                     (Np.round_half_even (fst uv)) = inr 1)
    /\ Forall2 (fun i c => nth_error (Keypoints.coordinates keypoints) i = Some c)
               valid_idxs (Keypoints.coordinates kp)
    /\ Forall2 (fun i d => nth_error descriptors i = Some d) valid_idxs ds.
Proof.
  intros Hrect Hin Hcons.
  destruct (filter_by_mask_inr mask H W keypoints descriptors Hrect Hin Hcons)
    as (values & kp & ds & HF & Hrun & Htc & Htd).
  set (valid_idxs := flatnonzero (map (fun v => v =? 1) values)) in *.
  destruct (flatnonzero_spec (map (fun v => v =? 1) values)) as [Hmem Hsorted].
  exists valid_idxs, kp, ds.
  split; [exact Hrun|]. split; [exact Hsorted|].
  split.
  - intros i. fold valid_idxs in Hmem. rewrite Hmem, nth_error_map.
    assert (Hlen : length values = length (Keypoints.coordinates keypoints)).
    { rewrite <- (Forall2_length HF). unfold rounded_coordinates. apply length_map. }
    assert (Hat : forall uv v,
               nth_error (Keypoints.coordinates keypoints) i = Some uv ->
               nth_error values i = Some v ->
               mask_at mask (Np.round_half_even (snd uv))
                            (Np.round_half_even (fst uv)) = inr v).
    { intros uv v Eu Ev.
      apply (Forall2_nth_error _ _ _ HF i
               (Np.round_half_even (fst uv), Np.round_half_even (snd uv)) v);
        [|exact Ev].
      unfold rounded_coordinates.
      exact (map_nth_error
               (fun uv0 : Gtsam.Point2 =>
                  (Np.round_half_even (fst uv0), Np.round_half_even (snd uv0)))
               i (Keypoints.coordinates keypoints) Eu). }
    split.
    + intros Hi.
      destruct (nth_error values i) as [v|] eqn:Ev; [|discriminate].
      simpl in Hi. injection Hi as Hi. apply Z.eqb_eq in Hi. subst v.
      destruct (nth_error (Keypoints.coordinates keypoints) i) as [uv|] eqn:Eu.
      * exists uv. split; [reflexivity|]. now apply Hat.
      * exfalso. apply nth_error_None in Eu. rewrite <- Hlen in Eu.
        apply nth_error_None in Eu. congruence.
    + intros (uv & Eu & Hone).
      destruct (nth_error values i) as [v|] eqn:Ev.
      * simpl. rewrite (Hat uv v Eu eq_refl) in Hone. injection Hone as ->.
        reflexivity.
      * exfalso. apply nth_error_None in Ev. rewrite Hlen in Ev.
        apply nth_error_None in Ev. congruence.
  - split.
    + destruct (take_inr (Keypoints.coordinates keypoints) valid_idxs) as (c & Hc & HFc).
      { apply Forall_forall. intros i Hi.
        apply mapM_inr in Htc.
        clear - Htc Hi. induction Htc as [|j x js xs Hj _ IH]; [destruct Hi|].
        destruct Hi as [<-|Hi]; [|now apply IH].
        unfold Py.getitem in Hj.
        destruct (nth_error (Keypoints.coordinates keypoints) j) eqn:E; [|discriminate].
        apply nth_error_Some. congruence. }
      rewrite Htc in Hc. injection Hc as <-. exact HFc.
    + destruct (take_inr descriptors valid_idxs) as (d & Hd & HFd).
      { apply Forall_forall. intros i Hi.
        apply mapM_inr in Htd.
        clear - Htd Hi. induction Htd as [|j x js xs Hj _ IH]; [destruct Hi|].
        destruct Hi as [<-|Hi]; [|now apply IH].
        unfold Py.getitem in Hj.
        destruct (nth_error descriptors j) eqn:E; [|discriminate].
        apply nth_error_Some. congruence. }
      rewrite Htd in Hd. injection Hd as <-. exact HFd.
Qed.

(** X10.  A single keypoint whose rounded pixel lies outside the (H, W)
    mask, beyond what a negative index can reach, makes [filter_by_mask]
    raise [IndexError]; no keypoint is returned. *)
Theorem filter_by_mask_out_of_bounds (mask : list (list Z)) (H W : nat)
    (keypoints : Keypoints.t) (descriptors : list D) (uv : Gtsam.Point2) :
  rectangular mask H W ->
  In uv (Keypoints.coordinates keypoints) ->
  ~ (- Z.of_nat W <= Np.round_half_even (fst uv) < Z.of_nat W
     /\ - Z.of_nat H <= Np.round_half_even (snd uv) < Z.of_nat H) ->
  filter_by_mask mask keypoints descriptors = inl Py.IndexError.
Proof.
  intros Hrect Hin Hout. unfold filter_by_mask.
  rewrite (mapM_raises _ Py.IndexError); [reflexivity| |].
  - intros [x y] e He. unfold mask_at in He. simpl in He.
    destruct (getitem_wrap mask y) as [e'|row] eqn:Hrow; simpl in He.
    + injection He as <-. now apply getitem_wrap_error in Hrow.
    + now apply getitem_wrap_error in He.
  - exists (Np.round_half_even (fst uv), Np.round_half_even (snd uv)). split.
    + unfold rounded_coordinates. apply in_map_iff. now exists uv.
    + simpl. apply (mask_at_raises mask H W); [exact Hrect|]. tauto.
Qed.

(** X11.  Under a mask that is 1 everywhere, [filter_by_mask] returns the
    coordinates and the descriptors as they came. *)
Theorem filter_by_mask_all_ones (mask : list (list Z)) (H W : nat)
    (keypoints : Keypoints.t) (descriptors : list D) :
  rectangular mask H W ->
  Forall (Forall (fun v => v = 1)) mask ->
  within_mask H W (Keypoints.coordinates keypoints) ->
  consistent keypoints descriptors ->
  exists kp,
    filter_by_mask mask keypoints descriptors = inr (kp, descriptors)
    /\ Keypoints.coordinates kp = Keypoints.coordinates keypoints.
Proof.
  intros Hrect Hones Hin Hcons.
  destruct (filter_by_mask_inr mask H W keypoints descriptors Hrect Hin Hcons)
    as (values & kp & ds & HF & Hrun & Htc & Htd).
  assert (Hall : Forall (fun b => b = true) (map (fun v => v =? 1) values)).
  { apply Forall_forall. intros b Hb. apply in_map_iff in Hb as (v & <- & Hv).
    apply Z.eqb_eq.
    clear - HF Hv Hones. induction HF as [|xy w xys ws Hxy _ IH]; [destruct Hv|].
    destruct Hv as [->|Hv]; [|now apply IH].
    unfold mask_at in Hxy.
    destruct (getitem_wrap mask (snd xy)) as [e|row] eqn:Hrow; [discriminate|].
    simpl in Hxy. apply getitem_wrap_In in Hrow, Hxy.
    pose proof (proj1 (Forall_forall _ _) Hones row Hrow) as Hr.
    now apply (proj1 (Forall_forall _ _) Hr). }
  assert (Hlen : length values = length (Keypoints.coordinates keypoints)).
  { rewrite <- (Forall2_length HF). unfold rounded_coordinates. apply length_map. }
  cbv zeta in Htc, Htd.
  rewrite (flatnonzero_all _ Hall), length_map in Htc, Htd.
  rewrite Hlen, take_all in Htc.
  destruct Hcons as (Hd & _).
  rewrite Hlen, <- Hd, take_all in Htd.
  injection Htc as Htc. injection Htd as <-.
  exists kp. split; [exact Hrun|]. now symmetry.
Qed.

End FilterByMaskClaims.

(** ** Keypoint filtering: a bound that does not bind *)

Lemma Forall2_perm_l {A B : Type} (R : A -> B -> Prop) (l1 l1' : list A) :
  Permutation l1 l1' ->
  forall l2, Forall2 R l1 l2 ->
  exists l2', Permutation l2 l2' /\ Forall2 R l1' l2'.
Proof.
  induction 1 as [|x l1 l1' _ IH|x y l1|l1 l1' l1'' _ IH1 _ IH2]; intros l2 HF.
  - inversion HF; subst. exists []. split; constructor.
  - inversion HF as [|? b ? l2t Hb Ht]; subst.
    destruct (IH l2t Ht) as (l2' & HP & HF').
    exists (b :: l2'). split; [now constructor|now constructor].
  - inversion HF as [|? b ? l2t Hb Ht]; subst.
    inversion Ht as [|? c ? l2u Hc Hu]; subst.
    exists (c :: b :: l2u). split; [apply perm_swap|].
    constructor; [exact Hc|]. constructor; [exact Hb|exact Hu].
  - destruct (IH1 l2 HF) as (l2' & HP1 & HF1).
    destruct (IH2 l2' HF1) as (l2'' & HP2 & HF2).
    exists l2''. split; [now transitivity l2'|exact HF2].
Qed.

Lemma Forall2_seq_nth_error {A : Type} (a r : list A) :
  Forall2 (fun i x => nth_error a i = Some x) (seq 0 (length a)) r -> r = a.
Proof.
  intros HF.
  destruct (take_inr a (seq 0 (length a))) as (r' & Hr' & HF').
  { apply Forall_forall. intros i Hi. apply in_seq in Hi. lia. }
  rewrite take_all in Hr'. injection Hr' as <-.
  revert HF HF'. generalize (seq 0 (length a)) as idxs. intros idxs. revert r.
  assert (Hfun : forall (l : list nat) (r1 r2 : list A),
             Forall2 (fun i x => nth_error a i = Some x) l r1 ->
             Forall2 (fun i x => nth_error a i = Some x) l r2 -> r1 = r2).
  { induction l as [|i l IH]; intros r1 r2 H1 H2;
      inversion H1; inversion H2; subst; [reflexivity|].
    f_equal; [congruence|now apply IH]. }
  intros r HF HF'. exact (Hfun idxs r a HF HF').
Qed.

(** With responses and consistent arrays [filter_by_response] returns, and
    reads coordinates and descriptors through the sliced index list. *)
Lemma filter_by_response_inr {D : Type}
    (self : DetectorDescriptor.DetectorDescriptorBase)
    (keypoints : Keypoints.t) (descriptors : list D) (responses : list Q) :
  Keypoints.responses keypoints = Some responses ->
  DetectorMask.consistent keypoints descriptors ->
  let sort_idxs := Py.slice_to (DetectorDescriptor.argsort_neg responses)
                               (DetectorDescriptor.max_keypoints self) in
  exists kp ds,
    DetectorDescriptor.filter_by_response self keypoints descriptors = inr (kp, ds)
    /\ Forall2 (fun i c => nth_error (Keypoints.coordinates keypoints) i = Some c)
               sort_idxs (Keypoints.coordinates kp)
    /\ Forall2 (fun i d => nth_error descriptors i = Some d) sort_idxs ds.
Proof.
  intros Hresp (Hd & Hs & Hr) sort_idxs.
  pose proof (Hr responses Hresp) as Hlen.
  assert (Hrange : Forall (fun i => (i < length responses)%nat) sort_idxs).
  { apply Forall_forall. intros i Hi.
    unfold sort_idxs, Py.slice_to in Hi.
    assert (Hi' : In i (DetectorDescriptor.argsort_neg responses)).
    { rewrite <- (firstn_skipn (Py.slice_bound
                     (length (DetectorDescriptor.argsort_neg responses))
                     (DetectorDescriptor.max_keypoints self))
                  (DetectorDescriptor.argsort_neg responses)).
      apply in_or_app. now left. }
    clear Hi. rename Hi' into Hi.
    unfold DetectorDescriptor.argsort_neg in Hi.
    apply (Permutation_in _ (argsort_by_perm Qle_bool (map Qopp responses))) in Hi.
    apply in_seq in Hi. rewrite length_map in Hi. lia. }
  destruct (take_inr (Keypoints.coordinates keypoints) sort_idxs)
    as (c & Htc & Hfc); [now rewrite <- Hlen|].
  destruct (take_opt_inr (Keypoints.scales keypoints) sort_idxs) as (s & Hts).
  { intros l Hl. now rewrite (Hs l Hl), <- Hlen. }
  destruct (take_opt_inr (Keypoints.responses keypoints) sort_idxs) as (r & Htr).
  { intros l Hl. rewrite Hresp in Hl. now injection Hl as <-. }
  destruct (take_inr descriptors sort_idxs) as (ds & Htd & Hfd);
    [now rewrite Hd, <- Hlen|].
  exists (Keypoints.mkKeypoints c s r), ds.
  split; [|split; [exact Hfc|exact Hfd]].
  unfold DetectorDescriptor.filter_by_response. rewrite Hresp.
  fold sort_idxs. unfold Keypoints.extract_indices.
  rewrite Htc. simpl. rewrite Hts. simpl. rewrite Htr. simpl.
  rewrite Htd. reflexivity.
Qed.

(** X12.  When [max_keypoints] is at least the number of keypoints,
    [filter_by_response] drops nothing: the index list is a rearrangement of
    all indices, so the returned coordinates and descriptors are the given
    ones, reordered together. *)
Theorem filter_by_response_keeps_all {D : Type}
    (self : DetectorDescriptor.DetectorDescriptorBase)
    (keypoints : Keypoints.t) (descriptors : list D) (responses : list Q) :
  Keypoints.responses keypoints = Some responses ->
  DetectorMask.consistent keypoints descriptors ->
  Z.of_nat (length responses) <= DetectorDescriptor.max_keypoints self ->
  exists sort_idxs kp ds,
    DetectorDescriptor.filter_by_response self keypoints descriptors = inr (kp, ds)
    /\ Permutation sort_idxs (seq 0 (length responses))
    /\ Forall2 (fun i c => nth_error (Keypoints.coordinates keypoints) i = Some c)
               sort_idxs (Keypoints.coordinates kp)
    /\ Forall2 (fun i d => nth_error descriptors i = Some d) sort_idxs ds
    /\ Permutation (Keypoints.coordinates kp) (Keypoints.coordinates keypoints)
    /\ Permutation ds descriptors.
Proof.
  intros Hresp Hcons Hmax.
  destruct (filter_by_response_inr self keypoints descriptors responses Hresp Hcons)
    as (kp & ds & Hrun & Hfc & Hfd).
  destruct Hcons as (Hd & Hs & Hr).
  pose proof (Hr responses Hresp) as Hlen.
  set (sort_idxs := Py.slice_to (DetectorDescriptor.argsort_neg responses)
                                (DetectorDescriptor.max_keypoints self)) in *.
  assert (Hidx : sort_idxs = Py.slice_to (DetectorDescriptor.argsort_neg responses)
                               (DetectorDescriptor.max_keypoints self)) by reflexivity.
  assert (Hperm : Permutation sort_idxs (seq 0 (length responses))).
  { rewrite Hidx. unfold Py.slice_to, Py.slice_bound, DetectorDescriptor.argsort_neg.
    pose proof (argsort_by_perm Qle_bool (map Qopp responses)) as HP.
    rewrite length_map in HP.
    rewrite (Permutation_length HP), length_seq.
    destruct (DetectorDescriptor.max_keypoints self <? 0) eqn:E; [lia|].
    rewrite firstn_all2; [exact HP|].
    rewrite (Permutation_length HP), length_seq. lia. }
  exists sort_idxs, kp, ds.
  split; [exact Hrun|]. split; [exact Hperm|]. split; [exact Hfc|]. split; [exact Hfd|].
  split.
  - destruct (Forall2_perm_l _ _ _ Hperm _ Hfc) as (c' & HP & HF).
    rewrite Hlen in HF. apply Forall2_seq_nth_error in HF. now subst c'.
  - destruct (Forall2_perm_l _ _ _ Hperm _ Hfd) as (d' & HP & HF).
    rewrite Hlen, <- Hd in HF. apply Forall2_seq_nth_error in HF. now subst d'.
Qed.

(** C10, the negative bound.  With responses, one row per keypoint in every
    array and [max_keypoints < 0], the slice [sort_idxs[:max_keypoints]]
    drops the last [-max_keypoints] indices instead of bounding their number:
    of N keypoints [filter_by_response] returns max(0, N + max_keypoints),
    which is more than [max_keypoints], where its docstring promises at most
    [max_keypoints]. *)
Theorem filter_by_response_negative_bound {D : Type}
    (self : DetectorDescriptor.DetectorDescriptorBase)
    (keypoints : Keypoints.t) (descriptors : list D) (responses : list Q) :
  Keypoints.responses keypoints = Some responses ->
  DetectorMask.consistent keypoints descriptors ->
  DetectorDescriptor.max_keypoints self < 0 ->
  exists kp ds,
    DetectorDescriptor.filter_by_response self keypoints descriptors = inr (kp, ds)
    /\ Z.of_nat (length (Keypoints.coordinates kp))
       = Z.max 0 (Z.of_nat (length responses) + DetectorDescriptor.max_keypoints self)
    /\ length ds = length (Keypoints.coordinates kp)
    /\ ~ (Z.of_nat (length (Keypoints.coordinates kp))
          <= DetectorDescriptor.max_keypoints self).
Proof.
  intros Hresp Hcons Hneg.
  destruct (filter_by_response_inr self keypoints descriptors responses Hresp Hcons)
    as (kp & ds & Hrun & Hfc & Hfd).
  apply Forall2_length in Hfc, Hfd.
  assert (Horder : length (DetectorDescriptor.argsort_neg responses) = length responses).
  { unfold DetectorDescriptor.argsort_neg.
    rewrite (Permutation_length (argsort_by_perm Qle_bool (map Qopp responses))).
    now rewrite length_seq, length_map. }
  assert (Hkept : Z.of_nat (length (Keypoints.coordinates kp))
                  = Z.max 0 (Z.of_nat (length responses)
                             + DetectorDescriptor.max_keypoints self)).
  { rewrite <- Hfc. unfold Py.slice_to, Py.slice_bound.
    rewrite length_firstn, Horder.
    destruct (Z.ltb_spec (DetectorDescriptor.max_keypoints self) 0); lia. }
  exists kp, ds.
  split; [exact Hrun|]. split; [exact Hkept|]. split; [congruence|lia].
Qed.

(** ** View-pair selection: the diagonal loop and the source views *)

Section ReadPairFileExtras.

Import PatchmatchEval PairsView.

Lemma set_nth_spec {A : Type} (row : list A) :
  forall (c : nat) (v : A) (row' : list A),
    set_nth row c v = inr row' ->
    (c < length row)%nat
    /\ forall j, nth_error row' j = if (j =? c)%nat then Some v else nth_error row j.
Proof.
  induction row as [|x row IH]; intros c v row' H; simpl in H.
  - destruct c; discriminate.
  - destruct c as [|c].
    + injection H as <-. split; [simpl; lia|]. intros [|j]; reflexivity.
    + destruct (set_nth row c v) as [e|r] eqn:E; [discriminate|].
      injection H as <-. destruct (IH c v r E) as [Hlt Hj].
      split; [simpl; lia|]. intros [|j]; [reflexivity|]. simpl. apply Hj.
Qed.

Lemma set_nth_error {A : Type} (row : list A) :
  forall (c : nat) (v : A) (e : Py.exn),
    set_nth row c v = inl e -> e = Py.IndexError.
Proof.
  induction row as [|x row IH]; intros c v e H; simpl in H.
  - destruct c; now injection H.
  - destruct c as [|c]; [discriminate|].
    destruct (set_nth row c v) as [e'|r] eqn:E; [|discriminate].
    injection H as <-. now apply (IH c v).
Qed.

Lemma set_diag_entry_spec (pairs pairs' : matrix) (i : nat) :
  set_diag_entry pairs i = inr pairs' ->
  (exists row, nth_error pairs i = Some row /\ (i < length row)%nat)
  /\ map (@length score) pairs' = map (@length score) pairs
  /\ forall r c, entry pairs' r c
                 = if ((r =? i) && (c =? i))%nat then Some NegInf else entry pairs r c.
Proof.
  unfold set_diag_entry, Py.getitem. intros H.
  destruct (nth_error pairs i) as [row|] eqn:Erow; [|discriminate].
  simpl in H.
  destruct (set_nth row i NegInf) as [e|row'] eqn:E1; [discriminate|].
  simpl in H.
  destruct (set_nth_spec _ _ _ _ E1) as [Hlt Hrow'].
  destruct (set_nth_spec _ _ _ _ H) as [_ Hpairs'].
  split; [now exists row|]. split.
  - apply nth_error_ext. intros r. rewrite !nth_error_map, Hpairs'.
    destruct (Nat.eqb_spec r i) as [->|Hne]; [|reflexivity].
    rewrite Erow. simpl. f_equal. now apply set_nth_length in E1.
  - intros r c. unfold entry. rewrite Hpairs'.
    destruct (Nat.eqb_spec r i) as [->|Hne]; simpl; [|reflexivity].
    rewrite Hrow', Erow. reflexivity.
Qed.

Lemma set_diag_entry_error (pairs : matrix) (i : nat) (e : Py.exn) :
  set_diag_entry pairs i = inl e -> e = Py.IndexError.
Proof.
  unfold set_diag_entry, Py.getitem, Py.raise. intros H.
  destruct (nth_error pairs i) as [row|]; [|now injection H].
  simpl in H.
  destruct (set_nth row i NegInf) as [e'|row'] eqn:E1.
  - injection H as <-. now apply set_nth_error in E1.
  - simpl in H. now apply set_nth_error in H.
Qed.

Lemma diag_loop_spec (range : list nat) :
  forall (pairs pairs' : matrix) (i i' : option nat),
    diag_loop range pairs i = inr (pairs', i') ->
    map (@length score) pairs' = map (@length score) pairs
    /\ (forall j, In j range ->
          exists row, nth_error pairs j = Some row /\ (j < length row)%nat)
    /\ forall r c, entry pairs' r c
                   = if (r =? c)%nat && existsb (Nat.eqb r) range
                     then Some NegInf else entry pairs r c.
Proof.
  induction range as [|j range IH]; intros pairs pairs' i i' H; simpl in H.
  - injection H as <- <-. split; [reflexivity|]. split; [intros j []|].
    intros r c. simpl. now rewrite andb_false_r.
  - destruct (set_diag_entry pairs j) as [e|pairs1] eqn:E; [discriminate|].
    simpl in H.
    destruct (set_diag_entry_spec _ _ _ E) as (Hrow & Hlen1 & Hent1).
    destruct (IH _ _ _ _ H) as (Hlen & Hrows & Hent).
    split; [congruence|]. split.
    + intros k [<-|Hk]; [exact Hrow|].
      destruct (Hrows k Hk) as (row1 & Hr1 & Hlt).
      assert (Hl : nth_error (map (@length score) pairs) k = Some (length row1)).
      { rewrite <- Hlen1, nth_error_map, Hr1. reflexivity. }
      rewrite nth_error_map in Hl.
      destruct (nth_error pairs k) as [row|]; [|discriminate].
      simpl in Hl. injection Hl as Hl. exists row. split; [reflexivity|lia].
    + intros r c. rewrite Hent, Hent1. simpl existsb.
      destruct (Nat.eqb_spec r c) as [->|Hrc]; simpl.
      * destruct (existsb (Nat.eqb c) range); [now rewrite orb_true_r|].
        rewrite orb_false_r. destruct (Nat.eqb_spec c j); reflexivity.
      * destruct (Nat.eqb_spec r j) as [->|Hrj]; simpl; [|reflexivity].
        destruct (Nat.eqb_spec c j); [congruence|reflexivity].
Qed.

Lemma diag_loop_error (range : list nat) :
  forall (pairs : matrix) (i : option nat) (e : Py.exn),
    diag_loop range pairs i = inl e -> e = Py.IndexError.
Proof.
  induction range as [|j range IH]; intros pairs i e H; simpl in H; [discriminate|].
  destruct (set_diag_entry pairs j) as [e'|pairs1] eqn:E.
  - injection H as <-. now apply set_diag_entry_error in E.
  - simpl in H. now apply IH in H.
Qed.

Lemma existsb_seq (r n : nat) :
  existsb (Nat.eqb r) (seq 0 n) = (r <? n)%nat.
Proof.
  destruct (Nat.ltb_spec r n) as [Hlt|Hge].
  - apply existsb_exists. exists r. split; [apply in_seq; lia|apply Nat.eqb_refl].
  - destruct (existsb (Nat.eqb r) (seq 0 n)) eqn:E; [|reflexivity].
    apply existsb_exists in E as (x & Hx & Heq).
    apply in_seq in Hx. apply Nat.eqb_eq in Heq. lia.
Qed.

(** X13.  Whenever the first loop of [read_pair_file] runs through, it has
    overwritten the diagonal of [pairs] with [-inf] and touched no other
    entry; it runs through on every matrix whose rows reach the
    diagonal. *)
Theorem diag_loop_overwrites_diagonal (pairs : matrix) :
  let n := length pairs in
  (forall pairs' i,
      diag_loop (seq 0 n) pairs None = inr (pairs', i) ->
      forall r c, entry pairs' r c
                  = if (r =? c)%nat && (r <? n)%nat
                    then Some NegInf else entry pairs r c)
  /\ (holds_diagonal n pairs ->
      exists pairs' i, diag_loop (seq 0 n) pairs None = inr (pairs', i)).
Proof.
  intros n. split.
  - intros pairs' i H r c.
    destruct (diag_loop_spec _ _ _ _ _ H) as (_ & _ & Hent).
    rewrite Hent, existsb_seq. reflexivity.
  - intros Hd.
    destruct (diag_loop_inr n (seq 0 n) pairs None Hd) as (pairs' & H & _).
    { apply Forall_forall. intros j Hj. apply in_seq in Hj. lia. }
    now exists pairs', (last (map Some (seq 0 n)) None).
Qed.

(** X14.  When some row of [pairs] is too short to hold its diagonal entry,
    as in a matrix with fewer columns than rows, [read_pair_file] raises
    [IndexError]. *)
Theorem read_pair_file_short_row (pairs : matrix) (nviews : Z)
    (i : nat) (row : list score) :
  nth_error pairs i = Some row ->
  (length row <= i)%nat ->
  read_pair_file pairs nviews = inl Py.IndexError.
Proof.
  intros Hrow Hshort. unfold read_pair_file.
  destruct (diag_loop (seq 0 (length pairs)) pairs None) as [e|[pairs' i']] eqn:E.
  - apply diag_loop_error in E. now subst.
  - exfalso.
    destruct (diag_loop_spec _ _ _ _ _ E) as (_ & Hrows & _).
    destruct (Hrows i) as (row' & Hrow' & Hlt).
    { apply in_seq. split; [lia|]. simpl. apply nth_error_Some. congruence. }
    rewrite Hrow in Hrow'. injection Hrow' as <-. lia.
Qed.

End ReadPairFileExtras.

(** On a matrix whose rows reach the diagonal [read_pair_file] returns the
    last row of [pair_idx] for every reference view. *)
Lemma read_pair_file_repeats_last_row_aux
    (pairs : PatchmatchEval.matrix) (nviews : Z) (n : nat) :
  length pairs = n -> (1 <= n)%nat ->
  PatchmatchEval.holds_diagonal n pairs ->
  exists pairs',
    PatchmatchEval.diag_loop (seq 0 n) pairs None = inr (pairs', Some (n - 1)%nat)
    /\ PatchmatchEval.read_pair_file pairs nviews
       = inr (map (fun view_idx =>
                     (view_idx,
                      rev (Py.slice (PatchmatchEval.argsort_axis0_row pairs' (n - 1))
                                    1 nviews)))
                  (seq 0 n)).
Proof.
  intros Hn Hn1 Hd.
  destruct (diag_loop_inr n (seq 0 n) pairs None Hd) as (pairs' & Hloop & [Hlen' _]).
  { apply Forall_forall. intros j Hj. apply in_seq in Hj. lia. }
  assert (Hlast : last (map Some (seq 0 n)) None = Some (n - 1)%nat).
  { replace n with (S (n - 1)) at 1 by lia.
    rewrite seq_S, map_app. simpl. now rewrite last_last. }
  rewrite Hlast in Hloop.
  exists pairs'. split; [exact Hloop|].
  unfold PatchmatchEval.read_pair_file. rewrite Hn, Hloop. simpl.
  assert (Hget : Py.getitem (PatchmatchEval.pair_idx pairs' nviews) (n - 1)
                 = inr (rev (Py.slice (PatchmatchEval.argsort_axis0_row pairs' (n - 1))
                                      1 nviews))).
  { unfold Py.getitem, PatchmatchEval.pair_idx. rewrite Hlen'.
    rewrite nth_error_map, nth_error_nth' with (d := O) by (rewrite length_seq; lia).
    rewrite seq_nth by lia. reflexivity. }
  rewrite Hget. simpl. apply mapM_ret.
Qed.

Section SourceViews.

Import PatchmatchEval PairsView.

Lemma column_length (pairs : matrix) (n m c : nat) :
  has_shape n m pairs -> (c < m)%nat -> length (column pairs c) = n.
Proof.
  intros [Hn Hrows] Hc. subst n. unfold column.
  induction Hrows as [|row rows Hrow _ IH]; [reflexivity|].
  simpl. rewrite length_app, IH.
  destruct (nth_error row c) eqn:E; [reflexivity|].
  apply nth_error_None in E. lia.
Qed.

Lemma slice_from_one_length {A : Type} (xs : list A) (hi : Z) :
  (1 <= length xs)%nat ->
  length (Py.slice xs 1 hi) = (Py.slice_bound (length xs) hi - 1)%nat.
Proof.
  intros Hlen. unfold Py.slice.
  assert (H1 : Py.slice_bound (length xs) 1 = 1%nat).
  { unfold Py.slice_bound. change (1 <? 0) with false. cbv iota.
    change (Z.to_nat 1) with 1%nat. lia. }
  rewrite H1, length_firstn, length_skipn.
  assert (Hh : (Py.slice_bound (length xs) hi <= length xs)%nat).
  { unfold Py.slice_bound. destruct (Z.ltb_spec hi 0); lia. }
  lia.
Qed.

Lemma slice_In {A : Type} (xs : list A) (lo hi : Z) (x : A) :
  In x (Py.slice xs lo hi) -> In x xs.
Proof.
  unfold Py.slice. intros H.
  rewrite <- (firstn_skipn (Py.slice_bound (length xs) lo) xs).
  apply in_or_app. right.
  rewrite <- (firstn_skipn
                (Py.slice_bound (length xs) hi - Py.slice_bound (length xs) lo)
                (skipn (Py.slice_bound (length xs) lo) xs)).
  apply in_or_app. now left.
Qed.

(** On an n x m matrix of scores with 1 <= n <= m, [read_pair_file] returns
    one list of source views for all reference views; the list holds
    viewpoint indices below n only. *)
Lemma read_pair_file_views_aux (pairs : matrix) (nviews : Z) (n m : nat) :
  has_shape n m pairs ->
  (1 <= n)%nat -> (n <= m)%nat ->
  exists last_views,
    read_pair_file pairs nviews
    = inr (map (fun view_idx => (view_idx, last_views)) (seq 0 n))
    /\ Forall (fun v => (v < n)%nat) last_views
    /\ length last_views = (Py.slice_bound m nviews - 1)%nat.
Proof.
  intros [Hn Hrows] Hn1 Hnm.
  assert (Hd : holds_diagonal n pairs).
  { split; [exact Hn|]. eapply Forall_impl; [|exact Hrows].
    intros row Hrow. simpl in Hrow. lia. }
  destruct (read_pair_file_repeats_last_row_aux pairs nviews n Hn Hn1 Hd)
    as (pairs' & Hloop & Hread).
  set (last_views := rev (Py.slice (argsort_axis0_row pairs' (n - 1)) 1 nviews)) in *.
  destruct (diag_loop_spec _ _ _ _ _ Hloop) as (Hlen & _ & _).
  assert (Hshape' : has_shape n m pairs').
  { split.
    - rewrite <- (length_map (@length score)), Hlen, length_map. exact Hn.
    - apply Forall_forall. intros row Hrow.
      assert (Hin : In (length row) (map (@length score) pairs))
        by (rewrite <- Hlen; now apply in_map).
      apply in_map_iff in Hin as (row0 & <- & Hrow0).
      now apply (proj1 (Forall_forall _ _) Hrows). }
  assert (Hncols : ncols pairs' = m).
  { destruct Hshape' as [Hn' Hrows']. unfold ncols.
    destruct pairs' as [|row rest]; [simpl in Hn'; lia|].
    now inversion Hrows'. }
  assert (Hrowlen : length (argsort_axis0_row pairs' (n - 1)) = m).
  { unfold argsort_axis0_row. now rewrite length_map, length_seq, Hncols. }
  assert (Hrange : Forall (fun v => (v < n)%nat) (argsort_axis0_row pairs' (n - 1))).
  { apply Forall_forall. intros v Hv. unfold argsort_axis0_row in Hv.
    apply in_map_iff in Hv as (c & <- & Hc). apply in_seq in Hc.
    pose proof (argsort_by_perm score_leb (column pairs' c)) as HP.
    rewrite (column_length pairs' n m c Hshape') in HP by lia.
    assert (Hin : In (nth (n - 1) (Np.argsort_by score_leb (column pairs' c)) O)
                     (Np.argsort_by score_leb (column pairs' c))).
    { apply nth_In. rewrite (Permutation_length HP), length_seq. lia. }
    apply (Permutation_in _ HP) in Hin. apply in_seq in Hin. lia. }
  exists last_views. split; [exact Hread|]. split.
  - apply Forall_forall. intros v Hv. unfold last_views in Hv.
    apply in_rev in Hv. apply slice_In in Hv.
    now apply (proj1 (Forall_forall _ _) Hrange).
  - unfold last_views. rewrite length_rev, slice_from_one_length, Hrowlen by lia.
    reflexivity.
Qed.

(** X15.  On an n x m matrix of scores with 1 <= n <= m, [read_pair_file]
    returns one entry per viewpoint, with the reference views 0, ..., n-1 in
    order; every source view it lists is a viewpoint index below n, and every
    list has as many source views as the slice [1:nviews] has columns, which
    for a non-negative [nviews] is min(nviews, m) - 1. *)
Theorem read_pair_file_source_views (pairs : matrix) (nviews : Z) (n m : nat) :
  has_shape n m pairs ->
  (1 <= n)%nat -> (n <= m)%nat ->
  exists data,
    read_pair_file pairs nviews = inr data
    /\ map fst data = seq 0 n
    /\ Forall (fun entry =>
                 Forall (fun src_view => (src_view < n)%nat) (snd entry)
                 /\ length (snd entry) = (Py.slice_bound m nviews - 1)%nat)
              data
    /\ (0 <= nviews ->
        Forall (fun entry =>
                  length (snd entry) = (Nat.min (Z.to_nat nviews) m - 1)%nat)
               data).
Proof.
  intros Hshape Hn1 Hnm.
  destruct (read_pair_file_views_aux pairs nviews n m Hshape Hn1 Hnm)
    as (last_views & Hread & Hrange & Hlen).
  exists (map (fun view_idx => (view_idx, last_views)) (seq 0 n)).
  split; [exact Hread|].
  split; [rewrite map_map; simpl; apply map_id|].
  split.
  - apply Forall_forall. intros entry Hin.
    apply in_map_iff in Hin as (v & <- & _). now split.
  - intros Hnv. apply Forall_forall. intros entry Hin.
    apply in_map_iff in Hin as (v & <- & _). simpl.
    rewrite Hlen. unfold Py.slice_bound.
    destruct (nviews <? 0) eqn:E; [lia|reflexivity].
Qed.

End SourceViews.

(** ** Geometric consistency and depth fusion *)

Lemma with_coords_values {A : Type} (g : Fusion.grid A) :
  Forall2 (Forall2 (fun v p => snd p = v)) g (Fusion.with_coords g).
Proof.
  assert (Hrow : forall (row : list A) (y s : nat),
             Forall2 (fun (v : A) (p : Z * Z * A) => snd p = v) row
               (map (fun xv : nat * A => (Z.of_nat (fst xv), Z.of_nat y, snd xv))
                    (combine (seq s (length row)) row))).
  { induction row as [|v row IH]; intros y s; simpl; constructor;
      [reflexivity|apply IH]. }
  assert (Hgen : forall (rows : list (list A)) (s : nat),
             Forall2 (Forall2 (fun (v : A) (p : Z * Z * A) => snd p = v)) rows
               (map (fun yrow : nat * list A =>
                       map (fun xv : nat * A =>
                              (Z.of_nat (fst xv), Z.of_nat (fst yrow), snd xv))
                           (Np.enumerate (snd yrow)))
                    (combine (seq s (length rows)) rows))).
  { induction rows as [|row rows IH]; intros s; simpl; constructor.
    - apply Hrow.
    - apply IH. }
  apply Hgen.
Qed.

Lemma fusion_mapM_inr {A B : Type} (f : A -> Fusion.result B) (l : list A) :
  forall r, Fusion.mapM f l = inr r -> Forall2 (fun x y => f x = inr y) l r.
Proof.
  induction l as [|x l IH]; simpl; intros r H.
  - injection H as <-. constructor.
  - destruct (f x) as [e|y] eqn:E; [discriminate|].
    destruct (Fusion.mapM f l) as [e|ys]; [discriminate|].
    injection H as <-. constructor; [exact E|now apply IH].
Qed.

Lemma fusion_mapM_total {A B : Type} (f : A -> Fusion.result B) (l : list A) :
  Forall (fun x => exists y, f x = inr y) l -> exists r, Fusion.mapM f l = inr r.
Proof.
  induction 1 as [|x l [y Hy] _ [r Hr]]; simpl.
  - now eexists.
  - rewrite Hy, Hr. now eexists.
Qed.

Lemma flat_map_nil {A B : Type} (f : A -> list B) (l : list A) :
  (forall x, In x l -> f x = []) -> flat_map f l = [].
Proof.
  induction l as [|x l IH]; intros H; simpl; [reflexivity|].
  rewrite (H x (or_introl eq_refl)), IH; [reflexivity|].
  intros y Hy. apply H. now right.
Qed.

Lemma slice_from_one_short {A : Type} (xs : list A) (hi : Z) :
  0 <= hi -> (length (Py.slice xs 1 hi) <= Z.to_nat hi - 1)%nat.
Proof.
  intros Hhi. unfold Py.slice. rewrite length_firstn.
  assert (H1 : Py.slice_bound (length xs) 1 = Nat.min 1 (length xs)).
  { unfold Py.slice_bound. change (1 <? 0) with false. cbv iota.
    now change (Z.to_nat 1) with 1%nat. }
  assert (Hh : (Py.slice_bound (length xs) hi <= Z.to_nat hi)%nat).
  { unfold Py.slice_bound. destruct (Z.ltb_spec hi 0); lia. }
  rewrite length_skipn, H1. lia.
Qed.

(** Every list of source views that [read_pair_file] returns for a
    non-negative [nviews] has fewer than [nviews] entries. *)
Lemma read_pair_file_few_sources (pairs : PatchmatchEval.matrix) (nviews : Z)
    (data : list (nat * list nat)) :
  PatchmatchEval.read_pair_file pairs nviews = inr data ->
  0 <= nviews ->
  Forall (fun entry => (length (snd entry) <= Z.to_nat nviews - 1)%nat) data.
Proof.
  unfold PatchmatchEval.read_pair_file. intros H Hnv.
  destruct (PatchmatchEval.diag_loop (seq 0 (length pairs)) pairs None)
    as [e|[pairs' i]]; [discriminate|].
  simpl in H. apply mapM_inr in H.
  induction H as [|v entry vs entries Hentry _ IH]; constructor; [|exact IH].
  destruct i as [i|]; [|discriminate].
  unfold Py.getitem in Hentry.
  destruct (nth_error (PatchmatchEval.pair_idx pairs' nviews) i) as [src|] eqn:E;
    [|discriminate].
  simpl in Hentry. injection Hentry as <-. simpl.
  apply nth_error_In in E. unfold PatchmatchEval.pair_idx in E.
  apply in_map_iff in E as (r & <- & _).
  rewrite length_rev. now apply slice_from_one_short.
Qed.

Section FusionFacts.

Import Fusion.

Variable fsqrt : Q -> Q.
Variable Cam : Type.
Variable Img : Type.
Variable reproject_with_depth : Cam -> Cam -> option (grid Q -> Reprojection).
Variable unproject : Cam -> option (Z -> Z -> Q -> Gtsam.Point3).

Lemma check_pixel_masked (reproject : Reprojection)
    (geo_pixel_thres geo_depth_thres : Q) (x y : Z) (d : Q) :
  let r := check_pixel fsqrt reproject geo_pixel_thres geo_depth_thres (x, y, d) in
  (fst r = false -> snd r = 0%Q)
  /\ (fst r = true -> snd r = fst (fst (reproject x y d)))
  /\ ((d == 0)%Q -> fst r = false).
Proof.
  unfold check_pixel.
  destruct (reproject x y d) as [[dr xr] yr].
  cbv zeta. simpl fst. simpl snd.
  split; [|split].
  - now intros ->.
  - now intros ->.
  - intros Hd. unfold fdiv.
    apply Qeq_bool_iff in Hd. rewrite Hd. simpl. apply andb_false_r.
Qed.

(** X16.  [check_geometric_consistency] raises [LinAlgError] when a camera
    matrix is singular and returns otherwise.  What it returns has the shape
    of the reference depth map; wherever its mask is false the returned depth
    is 0, and a pixel whose reference depth is 0 is never consistent. *)
Theorem check_geometric_consistency_masks (depth_ref : grid Q) (cam_ref : Cam)
    (depth_src : grid Q) (cam_src : Cam) (geo_pixel_thres geo_depth_thres : Q) :
  let run := check_geometric_consistency fsqrt Cam reproject_with_depth
               depth_ref cam_ref depth_src cam_src geo_pixel_thres geo_depth_thres in
  (reproject_with_depth cam_ref cam_src = None -> run = inl LinAlgError)
  /\ (reproject_with_depth cam_ref cam_src <> None -> exists checked, run = inr checked)
  /\ (forall checked,
        run = inr checked ->
        Forall2 (Forall2 (fun d r => (fst r = false -> snd r = 0%Q)
                                     /\ ((d == 0)%Q -> fst r = false)))
                depth_ref checked).
Proof.
  intros run. unfold run, check_geometric_consistency, bind, inverted.
  destruct (reproject_with_depth cam_ref cam_src) as [reproject|].
  - split; [discriminate|]. split; [intros _; now eexists|].
    intros checked H. injection H as <-.
    pose proof (with_coords_values depth_ref) as Hc.
    induction Hc as [|row prow g pg Hrow _ IH]; simpl; constructor; [|exact IH].
    clear IH. induction Hrow as [|d p row prow Hp _ IH]; simpl; constructor;
      [|exact IH].
    destruct p as [[x y] d']. simpl in Hp. subst d'.
    destruct (check_pixel_masked (reproject depth_src)
                geo_pixel_thres geo_depth_thres x y d) as (H0 & _ & Hz).
    split; [exact H0|exact Hz].
  - split; [reflexivity|]. split; [congruence|discriminate].
Qed.



Let fuse := fuse_view fsqrt Cam Img reproject_with_depth unproject.

(** With fewer than three source views no pixel of the reference view
    passes the final mask. *)
Lemma fuse_view_few_sources (cameras : list Cam) (images : list Img)
    (views : list (nat * grid Pixel)) (gp gd pt : Q)
    (ref_view : nat) (src_views : list nat) (points : list Gtsam.Point3) :
  fuse cameras images views gp gd pt (ref_view, src_views) = inr points ->
  (length src_views < 3)%nat ->
  points = [].
Proof.
  unfold fuse, fuse_view, bind, lift. intros H Hfew.
  destruct (Py.getitem cameras ref_view) as [e|ref_cam]; [discriminate|].
  destruct (Py.getitem images ref_view) as [e|img]; [discriminate|].
  destruct (dict_get views ref_view) as [e|ref_maps]; [discriminate|].
  destruct (mapM _ src_views) as [e|srcs] eqn:Esrcs; [discriminate|].
  destruct src_views as [|sv svs]; [discriminate|].
  destruct (inverted (unproject ref_cam)) as [e|to_world]; [discriminate|].
  injection H as <-.
  apply fusion_mapM_inr in Esrcs. apply Forall2_length in Esrcs.
  apply flat_map_nil. intros row _. apply flat_map_nil. intros [[x y] px] _.
  unfold fuse_pixel.
  set (checks := map _ srcs).
  assert (Hk : (length (filter fst checks) <= length srcs)%nat).
  { pose proof (filter_length_le fst checks) as Hle.
    unfold checks in Hle at 2. now rewrite length_map in Hle. }
  replace (3 <=? Z.of_nat (length (filter fst checks))) with false
    by (symmetry; apply Z.leb_gt; lia).
  now rewrite andb_false_r.
Qed.

Let complete := complete Cam Img reproject_with_depth unproject.

(** On complete inputs the lookups and inversions of one pass go through; a
    pass without source views stops at the progress line. *)
Lemma fuse_view_total (cameras : list Cam) (images : list Img)
    (views : list (nat * grid Pixel)) (gp gd pt : Q) (n : nat)
    (ref_view : nat) (src_views : list nat) :
  complete n cameras images views ->
  (ref_view < n)%nat ->
  Forall (fun v => (v < n)%nat) src_views ->
  (src_views = [] ->
   fuse cameras images views gp gd pt (ref_view, src_views) = inl AttributeError)
  /\ (src_views <> [] ->
      exists points,
        fuse cameras images views gp gd pt (ref_view, src_views) = inr points).
Proof.
  intros (Hc & Hi & Hv & Hrep & Hun) Href Hsrc.
  assert (Hget : forall (A : Type) (l : list A) v,
             (n <= length l)%nat -> (v < n)%nat ->
             exists a, Py.getitem l v = inr a /\ In a l).
  { intros A l v Hl Hvn. unfold Py.getitem.
    destruct (nth_error l v) eqn:E.
    - eexists. split; [reflexivity|]. eapply nth_error_In. exact E.
    - apply nth_error_None in E. lia. }
  unfold fuse, fuse_view, bind, lift.
  destruct (Hget _ cameras ref_view Hc Href) as (ref_cam & -> & Hin).
  destruct (Hget _ images ref_view Hi Href) as (img & -> & _).
  destruct (Hv ref_view Href) as [ref_maps ->].
  match goal with
  | |- context [mapM ?f src_views] =>
    destruct (fusion_mapM_total f src_views) as [srcs Hsrcs]
  end.
  { eapply Forall_impl; [|exact Hsrc]. intros v Hvn. simpl in Hvn.
    destruct (Hget _ cameras v Hc Hvn) as (cam & Hcam & Hcin).
    destruct (Hv v Hvn) as [maps Hmaps].
    destruct (Hrep ref_cam cam Hin Hcin) as [f Hf].
    unfold bind, lift, inverted. rewrite Hcam, Hmaps, Hf. now eexists. }
  rewrite Hsrcs.
  destruct (Hun ref_cam Hin) as [u Hu].
  split.
  - now intros ->.
  - intros Hne. destruct src_views as [|sv svs]; [congruence|].
    unfold inverted. rewrite Hu. now eexists.
Qed.

(** X18.  With [0 <= nviews <= 3] no reference view gets three source
    views, so whenever [filter_depth] returns, the fused point cloud is
    empty; with [nviews] 2 or 3 it does return, on an n x m score matrix
    with 1 <= n <= m and 2 <= m and complete inputs. *)
Theorem filter_depth_needs_three_sources (pairs : PatchmatchEval.matrix)
    (cameras : list Cam) (images : list Img) (nviews : Z)
    (views : list (nat * grid Pixel)) (gp gd pt : Q) :
  0 <= nviews <= 3 ->
  (forall cloud,
      filter_depth fsqrt Cam Img reproject_with_depth unproject
        pairs cameras images nviews views gp gd pt = inr cloud ->
      cloud = [])
  /\ (forall n m,
        2 <= nviews ->
        PairsView.has_shape n m pairs -> (1 <= n)%nat -> (n <= m)%nat ->
        (2 <= m)%nat ->
        complete n cameras images views ->
        filter_depth fsqrt Cam Img reproject_with_depth unproject
          pairs cameras images nviews views gp gd pt = inr []).
Proof.
  intros Hnv.
  assert (Hempty : forall data vertexs,
             PatchmatchEval.read_pair_file pairs nviews = inr data ->
             mapM (fuse cameras images views gp gd pt) data = inr vertexs ->
             concat vertexs = []).
  { intros data vertexs Hread Hfuse.
    pose proof (read_pair_file_few_sources pairs nviews data Hread (proj1 Hnv)) as Hfew.
    clear Hread. apply fusion_mapM_inr in Hfuse.
    induction Hfuse as [|[ref src] points data vertexs Hp _ IH]; [reflexivity|].
    inversion Hfew as [|? ? Hlen Hrest]; subst. simpl in Hlen.
    simpl. rewrite (fuse_view_few_sources _ _ _ _ _ _ _ _ _ Hp) by lia.
    now apply IH. }
  split.
  - intros cloud H. unfold filter_depth, bind, lift in H.
    destruct (PatchmatchEval.read_pair_file pairs nviews) as [e|data] eqn:Hread;
      [discriminate|].
    fold fuse in H.
    destruct (mapM (fuse cameras images views gp gd pt) data) as [e|vertexs] eqn:Hfuse;
      [discriminate|].
    unfold concatenate in H.
    destruct vertexs as [|v vs]; [discriminate|].
    injection H as <-. exact (Hempty data (v :: vs) eq_refl Hfuse).
  - intros n m Hnv2 Hshape Hn1 Hnm Hm2 Hcomplete.
    destruct (read_pair_file_views_aux pairs nviews n m Hshape Hn1 Hnm)
      as (last_views & Hread & Hrange & Hlen).
    assert (Hne : last_views <> []).
    { intros ->. simpl in Hlen. unfold Py.slice_bound in Hlen.
      destruct (Z.ltb_spec nviews 0); lia. }
    unfold filter_depth, bind, lift. rewrite Hread. fold fuse.
    destruct (fusion_mapM_total (fuse cameras images views gp gd pt)
                (map (fun view_idx => (view_idx, last_views)) (seq 0 n)))
      as [vertexs Hfuse].
    { apply Forall_forall. intros entry Hin.
      apply in_map_iff in Hin as (v & <- & Hv). apply in_seq in Hv.
      destruct (fuse_view_total cameras images views gp gd pt n v last_views
                  Hcomplete) as [_ Hsome]; [lia|exact Hrange|].
      now apply Hsome. }
    rewrite Hfuse. unfold concatenate.
    pose proof (Hempty _ _ Hread Hfuse) as Hnil.
    destruct vertexs as [|v vs].
    + apply fusion_mapM_inr in Hfuse. apply Forall2_length in Hfuse.
      rewrite length_map, length_seq in Hfuse. simpl in Hfuse. lia.
    + now rewrite Hnil.
Qed.

(** X20.  With [nviews] 0 or 1 every reference view has an empty list of
    source views, [geo_mask] stays a Python [bool], and on complete inputs
    [filter_depth] raises [AttributeError] at the progress line of the first
    reference view. *)
Theorem filter_depth_without_sources (pairs : PatchmatchEval.matrix)
    (cameras : list Cam) (images : list Img) (nviews : Z)
    (views : list (nat * grid Pixel)) (gp gd pt : Q) (n m : nat) :
  0 <= nviews <= 1 ->
  PairsView.has_shape n m pairs -> (1 <= n)%nat -> (n <= m)%nat ->
  complete n cameras images views ->
  filter_depth fsqrt Cam Img reproject_with_depth unproject
    pairs cameras images nviews views gp gd pt = inl AttributeError.
Proof.
  intros Hnv Hshape Hn1 Hnm Hcomplete.
  destruct (read_pair_file_views_aux pairs nviews n m Hshape Hn1 Hnm)
    as (last_views & Hread & Hrange & Hlen).
  assert (Hnil : last_views = []).
  { apply length_zero_iff_nil. rewrite Hlen. unfold Py.slice_bound.
    destruct (Z.ltb_spec nviews 0); lia. }
  subst last_views.
  unfold filter_depth, bind, lift. rewrite Hread. fold fuse.
  destruct n as [|n]; [lia|].
  rewrite <- cons_seq. cbn [map mapM].
  destruct (fuse_view_total cameras images views gp gd pt (S n) O []
              Hcomplete) as [Hattr _]; [lia|constructor|].
  now rewrite (Hattr eq_refl).
Qed.

End FusionFacts.

(** ** Saving a depth map as an 8-bit image *)

Section DepthImageFacts.

Import DepthImage.

Lemma qmax_ge (a b : Q) : (a <= qmax a b)%Q /\ (b <= qmax a b)%Q.
Proof.
  unfold qmax. destruct (Qle_bool a b) eqn:E.
  - apply Qle_bool_iff in E. split; [exact E|apply Qle_refl].
  - apply Qle_bool_total in E. apply Qle_bool_iff in E.
    split; [apply Qle_refl|exact E].
Qed.

Lemma qmin_le (a b : Q) : (qmin a b <= a)%Q /\ (qmin a b <= b)%Q.
Proof.
  unfold qmin. destruct (Qle_bool a b) eqn:E.
  - apply Qle_bool_iff in E. split; [apply Qle_refl|exact E].
  - apply Qle_bool_total in E. apply Qle_bool_iff in E.
    split; [exact E|apply Qle_refl].
Qed.

Lemma array_max_ge (xs : list Q) :
  forall x, (x <= array_max x xs)%Q
            /\ forall v, In v xs -> (v <= array_max x xs)%Q.
Proof.
  unfold array_max. induction xs as [|y xs IH]; intros x; simpl.
  - split; [apply Qle_refl|intros v []].
  - destruct (IH (qmax x y)) as [Hx Hv]. destruct (qmax_ge x y) as [Ha Hb].
    split; [now apply Qle_trans with (qmax x y)|].
    intros v [Heq|Hin]; [subst v; now apply Qle_trans with (qmax x y)|now apply Hv].
Qed.

Lemma array_min_le (xs : list Q) :
  forall x, (array_min x xs <= x)%Q
            /\ forall v, In v xs -> (array_min x xs <= v)%Q.
Proof.
  unfold array_min. induction xs as [|y xs IH]; intros x; simpl.
  - split; [apply Qle_refl|intros v []].
  - destruct (IH (qmin x y)) as [Hx Hv]. destruct (qmin_le x y) as [Ha Hb].
    split; [now apply Qle_trans with (qmin x y)|].
    intros v [Heq|Hin]; [subst v; now apply Qle_trans with (qmin x y)|now apply Hv].
Qed.

Lemma truncate_floor (s : Q) : (0 <= s)%Q -> truncate s = Qfloor s.
Proof.
  intros Hs. unfold truncate, Qfloor. destruct s as [n dn]. simpl.
  apply Z.quot_div_nonneg; [|lia].
  unfold Qle in Hs. simpl in Hs. lia.
Qed.

Lemma as_uint8_in_range (nan : Z) (s : Q) :
  (0 <= s)%Q -> (s <= 255)%Q ->
  as_uint8 nan (Some s) = Qfloor s /\ 0 <= Qfloor s <= 255.
Proof.
  intros H0 H1. simpl. rewrite (truncate_floor s H0).
  assert (Hlo : 0 <= Qfloor s).
  { pose proof (Qfloor_resp_le _ _ H0) as H.
    change 0%Q with (inject_Z 0) in H. now rewrite Qfloor_Z in H. }
  assert (Hhi : Qfloor s <= 255).
  { pose proof (Qfloor_resp_le _ _ H1) as H.
    change 255%Q with (inject_Z 255) in H. now rewrite Qfloor_Z in H. }
  split; [|lia]. apply Z.mod_small. lia.
Qed.

(** X19.  For a depth map with two different depths, [save_depth_img] stores
    at every pixel an integer between 0 and 255, at the same position, and
    the stored transform decodes it to a depth that is at most the true
    depth and less than one step [d / 255] below it. *)
Theorem save_depth_img_round_trip (nan_as_uint8 : Z) (depth : Fusion.grid Q)
    (x : Q) (xs : list Q) :
  concat depth = x :: xs ->
  (array_min x xs < array_max x xs)%Q ->
  exists image transform,
    save_depth_img nan_as_uint8 depth = inr (image, transform)
    /\ fst transform = ((array_max x xs - array_min x xs) / 255)%Q
    /\ Forall2 (Forall2 (fun v pixel =>
                  0 <= pixel <= 255
                  /\ (decode transform pixel <= v)%Q
                  /\ (v < decode transform pixel + fst transform)%Q))
               depth image.
Proof.
  intros Hflat Hspread. unfold save_depth_img. rewrite Hflat.
  set (mx := array_max x xs) in *. set (mn := array_min x xs) in *.
  eexists. eexists. split; [reflexivity|]. split; [reflexivity|].
  assert (Hd : (0 < mx - mn)%Q) by lra.
  assert (Hbounds : forall v, In v (concat depth) -> (mn <= v)%Q /\ (v <= mx)%Q).
  { intros v Hv. rewrite Hflat in Hv.
    destruct (array_min_le xs x) as [Hmx Hmv].
    destruct (array_max_ge xs x) as [HMx HMv].
    destruct Hv as [<-|Hv]; split; auto. }
  clear Hflat.
  rewrite map_map.
  induction depth as [|row depth IH]; simpl; constructor.
  - assert (Hrow : forall v, In v row -> (mn <= v)%Q /\ (v <= mx)%Q).
    { intros v Hv. apply Hbounds. simpl. apply in_or_app. now left. }
    clear IH Hbounds. rewrite map_map.
    induction row as [|v row IHr]; simpl; constructor.
    + destruct (Hrow v (or_introl eq_refl)) as [Hlo Hhi].
      unfold Fusion.fdiv.
      destruct (Qeq_bool (mx - mn) 0) eqn:E.
      { apply Qeq_bool_iff in E. lra. }
      set (s := (255 * (v + - mn) / (mx - mn))%Q).
      assert (Hs0 : (0 <= s)%Q).
      { unfold s. apply Qle_shift_div_l; [exact Hd|]. lra. }
      assert (Hs1 : (s <= 255)%Q).
      { unfold s. apply Qle_shift_div_r; [exact Hd|]. lra. }
      destruct (as_uint8_in_range nan_as_uint8 s Hs0 Hs1) as [-> Hrange].
      split; [exact Hrange|].
      pose proof (Qfloor_le s) as Hfl. pose proof (Qlt_floor s) as Hfu.
      rewrite inject_Z_plus in Hfu. change (inject_Z 1) with 1%Q in Hfu.
      assert (Hv : (v == s * ((mx - mn) / 255) + mn)%Q).
      { unfold s. field. lra. }
      assert (Hstep : (0 < (mx - mn) / 255)%Q).
      { apply Qlt_shift_div_l; lra. }
      unfold decode. simpl fst. simpl snd.
      set (step := ((mx - mn) / 255)%Q) in *.
      set (q := inject_Z (Qfloor s)) in *.
      assert (Hm1 : (q * step <= s * step)%Q)
        by (apply Qmult_le_compat_r; [exact Hfl|lra]).
      assert (Hm2 : (s * step < (q + 1) * step)%Q)
        by (apply Qmult_lt_compat_r; [exact Hstep|exact Hfu]).
      split; lra.
    + apply IHr. intros w Hw. apply Hrow. now right.
  - apply IH. intros v Hv. apply Hbounds. simpl. apply in_or_app. now right.
Qed.

End DepthImageFacts.

(** ** The further properties on the sample inputs *)

Lemma returned_tracks_meet_min_length_witness :
  exists data m,
    Samples.run_with Samples.solve_front Samples.self_min3
      Samples.cams_012 Samples.corr Samples.kps = inr (data, m)
    /\ Forall (fun s => 3 <= number_measurements s) (tracks data)
    /\ int_at "num_len_2_tracks" m = Some 0.
Proof.
  destruct (Samples.run_with Samples.solve_front Samples.self_min3
              Samples.cams_012 Samples.corr Samples.kps)
    as [e|[data m]] eqn:E; [discriminate|].
  destruct (returned_tracks_meet_min_length nat _ _
              TrackBuilder.generate_tracks_from_pairwise_matches
              (Point3dInit.triangulate Samples.solve_front)
              Samples.self_min3 Samples.cams_012 Samples.corr Samples.kps data m E)
    as [Hlong Hzero].
  exists data, m. split; [reflexivity|]. split; [exact Hlong|].
  apply (proj1 (Forall_forall _ _) Hzero (2, "num_len_2_tracks"%string)).
  - simpl. tauto.
  - simpl. lia.
Defined.

Lemma returned_ratios_in_unit_interval_witness :
  exists data m a c,
    Samples.run_with Samples.solve_behind Samples.self_min3
      Samples.cams_012 Samples.corr Samples.kps = inr (data, m)
    /\ float_at "accepted_tracks_ratio" m = Some a
    /\ float_at "track_cheirality_failure_ratio" m = Some c
    /\ (0 <= a)%Q /\ (a <= 1)%Q /\ (0 <= c)%Q /\ (c <= 1)%Q.
Proof.
  destruct (Samples.run_with Samples.solve_behind Samples.self_min3
              Samples.cams_012 Samples.corr Samples.kps)
    as [e|[data m]] eqn:E; [discriminate|].
  destruct (returned_ratios_in_unit_interval nat _ _
              TrackBuilder.generate_tracks_from_pairwise_matches
              (Point3dInit.triangulate Samples.solve_behind)
              Samples.self_min3 Samples.cams_012 Samples.corr Samples.kps data m E)
    as (a & c & H).
  exists data, m, a, c. split; [reflexivity|exact H].
Defined.

Lemma histogram_adds_up_witness :
  exists data m counts,
    Samples.run_with Samples.solve_front Samples.self_min2
      Samples.cams_012 Samples.corr Samples.kps = inr (data, m)
    /\ map (fun kv => int_at (snd kv) m) histogram_keys = map Some counts
    /\ fold_right Z.add 0 counts
       + Z.of_nat (length (filter outside_histogram (tracks data)))
       = number_tracks data.
Proof.
  destruct (Samples.run_with Samples.solve_front Samples.self_min2
              Samples.cams_012 Samples.corr Samples.kps)
    as [e|[data m]] eqn:E; [discriminate|].
  destruct (histogram_adds_up nat _ _
              TrackBuilder.generate_tracks_from_pairwise_matches
              (Point3dInit.triangulate Samples.solve_front)
              Samples.self_min2 Samples.cams_012 Samples.corr Samples.kps data m E)
    as (counts & Hc & _ & Hsum).
  exists data, m, counts. split; [reflexivity|]. split; [exact Hc|exact Hsum].
Defined.

Lemma camera_position_is_key_witness :
  exists data m,
    Samples.run_with Samples.solve_front Samples.self_min2
      Samples.cams_012 Samples.corr Samples.kps = inr (data, m)
    /\ nth_error (cameras data) 1 = Some 101%nat.
Proof.
  destruct (Samples.run_with Samples.solve_front Samples.self_min2
              Samples.cams_012 Samples.corr Samples.kps)
    as [e|[data m]] eqn:E; [discriminate|].
  exists data, m. split; [reflexivity|].
  exact (camera_position_is_key nat _ _
           TrackBuilder.generate_tracks_from_pairwise_matches
           (Point3dInit.triangulate Samples.solve_front)
           Samples.self_min2 Samples.cams_012 Samples.corr Samples.kps data m
           E eq_refl 1%nat).
Defined.





Lemma filter_by_mask_keeps_masked_witness :
  exists kp,
    DetectorMask.filter_by_mask Samples2.mask23 Samples2.kp_mask Samples2.ds4
    = inr (kp, [ [1]; [2]; [4] ]%Q)
    /\ Keypoints.coordinates kp = [ (0, 0); (14 # 10, 6 # 10); (- (6 # 10), 0) ]%Q.
Proof.
  destruct (filter_by_mask_keeps_masked (list Q) Samples2.mask23 2 3
              Samples2.kp_mask Samples2.ds4)
    as (idxs & kp & ds & Hrun & _).
  - split; [reflexivity|repeat constructor].
  - unfold DetectorMask.within_mask. apply Forall_forall. intros xy Hxy.
    vm_compute in Hxy.
    repeat (destruct Hxy as [<-|Hxy]; [simpl; lia|]). destruct Hxy.
  - split; [reflexivity|]. split; intros s Hs; discriminate Hs.
  - vm_compute in Hrun. injection Hrun as <- <-.
    eexists. split; reflexivity.
Defined.

Lemma filter_by_mask_out_of_bounds_witness :
  DetectorMask.filter_by_mask Samples2.mask23 Samples2.kp_outside Samples2.ds2
  = inl Py.IndexError.
Proof.
  apply (filter_by_mask_out_of_bounds (list Q) Samples2.mask23 2 3
           Samples2.kp_outside Samples2.ds2 (3, 0)%Q).
  - split; [reflexivity|repeat constructor].
  - simpl. tauto.
  - assert (H3 : Np.round_half_even 3 = 3) by reflexivity.
    assert (H0 : Np.round_half_even 0 = 0) by reflexivity.
    cbn [fst snd]. rewrite H3, H0. lia.
Defined.

Lemma filter_by_mask_all_ones_witness :
  exists kp,
    DetectorMask.filter_by_mask Samples2.mask_ones Samples2.kp_mask Samples2.ds4
    = inr (kp, Samples2.ds4)
    /\ Keypoints.coordinates kp = Keypoints.coordinates Samples2.kp_mask.
Proof.
  apply (filter_by_mask_all_ones (list Q) Samples2.mask_ones 2 3).
  - split; [reflexivity|repeat constructor].
  - repeat constructor.
  - unfold DetectorMask.within_mask. apply Forall_forall. intros xy Hxy.
    vm_compute in Hxy.
    repeat (destruct Hxy as [<-|Hxy]; [simpl; lia|]). destruct Hxy.
  - split; [reflexivity|]. split; intros s Hs; discriminate Hs.
Defined.

Lemma filter_by_response_keeps_all_witness :
  exists kp ds,
    DetectorDescriptor.filter_by_response
      (DetectorDescriptor.mkDetectorDescriptor 5) Samples.kp3 Samples.ds3 = inr (kp, ds)
    /\ Permutation (Keypoints.coordinates kp) (Keypoints.coordinates Samples.kp3)
    /\ Permutation ds Samples.ds3.
Proof.
  destruct (filter_by_response_keeps_all
              (DetectorDescriptor.mkDetectorDescriptor 5) Samples.kp3 Samples.ds3
              [1 # 2; 9 # 10; 3 # 10]%Q eq_refl)
    as (idxs & kp & ds & Hrun & _ & _ & _ & Hc & Hd).
  - split; [reflexivity|]. split; intros s Hs.
    + discriminate Hs.
    + injection Hs as <-. reflexivity.
  - simpl. lia.
  - exists kp, ds. split; [exact Hrun|]. split; [exact Hc|exact Hd].
Defined.

Lemma filter_by_response_negative_bound_witness :
  exists kp ds,
    DetectorDescriptor.filter_by_response
      (DetectorDescriptor.mkDetectorDescriptor (-1)) Samples.kp3 Samples.ds3
    = inr (kp, ds)
    /\ Z.of_nat (length (Keypoints.coordinates kp)) = 2
    /\ ~ (Z.of_nat (length (Keypoints.coordinates kp)) <= -1).
Proof.
  destruct (filter_by_response_negative_bound
              (DetectorDescriptor.mkDetectorDescriptor (-1)) Samples.kp3 Samples.ds3
              [1 # 2; 9 # 10; 3 # 10]%Q eq_refl)
    as (kp & ds & Hrun & Hkept & _ & Hmore).
  - split; [reflexivity|]. split; intros s Hs.
    + discriminate Hs.
    + injection Hs as <-. reflexivity.
  - reflexivity.
  - exists kp, ds. split; [exact Hrun|]. split; [exact Hkept|exact Hmore].
Defined.

Lemma diag_loop_overwrites_diagonal_witness :
  exists pairs' i,
    PatchmatchEval.diag_loop (seq 0 3) Samples.pairs3 None = inr (pairs', i)
    /\ PairsView.entry pairs' 1 1 = Some PatchmatchEval.NegInf
    /\ PairsView.entry pairs' 1 2 = Some (PatchmatchEval.Fin 3).
Proof.
  destruct (diag_loop_overwrites_diagonal Samples.pairs3) as [Hent Hret].
  destruct Hret as (pairs' & i & Hloop).
  - split; [reflexivity|repeat constructor].
  - exists pairs', i. split; [exact Hloop|].
    split; [exact (Hent pairs' i Hloop 1%nat 1%nat)|exact (Hent pairs' i Hloop 1%nat 2%nat)].
Defined.

Lemma read_pair_file_short_row_witness :
  PatchmatchEval.read_pair_file Samples2.pairs_short 3 = inl Py.IndexError.
Proof.
  apply (read_pair_file_short_row Samples2.pairs_short 3 2
           [PatchmatchEval.Fin 2; PatchmatchEval.Fin 3]%Q).
  - reflexivity.
  - simpl. lia.
Defined.

Lemma read_pair_file_source_views_witness :
  exists data,
    PatchmatchEval.read_pair_file Samples.pairs3 3 = inr data
    /\ map fst data = [0; 1; 2]%nat
    /\ Forall (fun entry => length (snd entry) = 2%nat) data.
Proof.
  destruct (read_pair_file_source_views Samples.pairs3 3 3 3)
    as (data & Hread & Hrefs & _ & Hlen).
  - split; [reflexivity|repeat constructor].
  - lia.
  - lia.
  - exists data. split; [exact Hread|]. split; [exact Hrefs|].
    apply Hlen. lia.
Defined.

Lemma check_geometric_consistency_masks_witness :
  exists checked,
    Fusion.check_geometric_consistency Samples.isqrt unit Samples2.reproject_same
      Samples2.depth22 tt Samples2.depth22 tt 1 (1 # 100) = inr checked.
Proof.
  apply (check_geometric_consistency_masks Samples.isqrt unit Samples2.reproject_same
           Samples2.depth22 tt Samples2.depth22 tt 1 (1 # 100)).
  discriminate.
Defined.


Lemma filter_depth_needs_three_sources_witness :
  Fusion.filter_depth Samples.isqrt unit unit
    Samples2.reproject_same Samples2.unproject_plain
    Samples.pairs3 [tt; tt; tt] [tt; tt; tt] 3 Samples2.views3
    1 (1 # 100) (1 # 2)
  = inr [].
Proof.
  destruct (filter_depth_needs_three_sources Samples.isqrt unit unit
              Samples2.reproject_same Samples2.unproject_plain
              Samples.pairs3 [tt; tt; tt] [tt; tt; tt] 3 Samples2.views3
              1 (1 # 100) (1 # 2)) as [_ Hret].
  - lia.
  - apply (Hret 3%nat 3%nat).
    + lia.
    + split; [reflexivity|repeat constructor].
    + lia.
    + lia.
    + lia.
    + split; [simpl; lia|]. split; [simpl; lia|]. split.
      * intros v Hv. destruct v as [|[|[|v]]]; [| | |lia]; now eexists.
      * split; intros; now eexists.
Defined.

Lemma filter_depth_without_sources_witness :
  Fusion.filter_depth Samples.isqrt unit unit
    Samples2.reproject_same Samples2.unproject_plain
    Samples.pairs3 [tt; tt; tt] [tt; tt; tt] 1 Samples2.views3
    1 (1 # 100) (1 # 2)
  = inl Fusion.AttributeError.
Proof.
  apply (filter_depth_without_sources Samples.isqrt unit unit
           Samples2.reproject_same Samples2.unproject_plain
           Samples.pairs3 [tt; tt; tt] [tt; tt; tt] 1 Samples2.views3
           1 (1 # 100) (1 # 2) 3%nat 3%nat).
  - lia.
  - split; [reflexivity|repeat constructor].
  - lia.
  - lia.
  - split; [simpl; lia|]. split; [simpl; lia|]. split.
    + intros v Hv. destruct v as [|[|[|v]]]; [| | |lia]; now eexists.
    + split; intros; now eexists.
Defined.

Lemma save_depth_img_round_trip_witness :
  exists image transform,
    DepthImage.save_depth_img 0 Samples2.depth22 = inr (image, transform)
    /\ Forall2 (Forall2 (fun v pixel =>
                  0 <= pixel <= 255
                  /\ (DepthImage.decode transform pixel <= v)%Q
                  /\ (v < DepthImage.decode transform pixel + fst transform)%Q))
               Samples2.depth22 image.
Proof.
  destruct (save_depth_img_round_trip 0 Samples2.depth22 1 [2; 3; 5]%Q)
    as (image & transform & Hrun & _ & Hpix).
  - reflexivity.
  - reflexivity.
  - exists image, transform. split; [exact Hrun|exact Hpix].
Defined.
